(** * eden-js/user: the user model, the user controller and the client user store

    A shallow embedding of

    - the [User] model (authenticate, name, sanitise),
    - the [UserController] (listen / deafen, the login, register, forgot and
      reset forms behind its routes, logout, refresh, the acl bootstrap, the
      view hook, the passport verify callback and the session callbacks), and
    - the browser side [EdenUser] store and the user of a view rendered on
      the server,

    followed by the properties proved about them.  JavaScript strings are
    sequences of code units; the code units modelled here are U+0000..U+00FF
    (Rocq's [ascii]).  JavaScript numbers are modelled by [Z]. *)

From Stdlib Require Import ZArith Ascii String DecimalString DecimalZ.
From stdpp Require Import base decidable option list strings gmap relations.

Local Open Scope Z_scope.
Local Open Scope list_scope.
Local Open Scope stdpp_scope.

Set Warnings "-clear-no-such-hyp".

(* ===================================================================== *)
(** * Part I: definitions                                                 *)
(* ===================================================================== *)

(** ** Results of calls that may throw, and state *)

(** [Timeout] is the answer of a fuelled definition that ran out of fuel; the
    program itself never produces it. *)
Inductive result (A : Type) : Type :=
| Ok (a : A)
| Throw (e : string)
| Timeout.
Arguments Ok {A} a.
Arguments Throw {A} e.
Arguments Timeout {A}.

#[global] Instance result_ret : MRet result := @Ok.
#[global] Instance result_bind : MBind result := fun A B k r =>
  match r with
  | Ok a => k a
  | Throw e => Throw e
  | Timeout => Timeout
  end.
#[global] Instance result_fmap : FMap result := fun A B f r =>
  match r with
  | Ok a => Ok (f a)
  | Throw e => Throw e
  | Timeout => Timeout
  end.

(** [Promise.all(l.map(f))] for an [f] without effects: the results in order,
    or the first rejection. *)
Fixpoint rmap {A B} (f : A → result B) (l : list A) : result (list B) :=
  match l with
  | [] => Ok []
  | x :: l' => y ← f x; ys ← rmap f l'; Ok (y :: ys)
  end.

(** State passing with exceptions. *)
Definition st (S A : Type) : Type := S → result (A * S).

#[global] Instance st_ret {S} : MRet (st S) := fun A a s => Ok (a, s).
#[global] Instance st_bind {S} : MBind (st S) := fun A B k m s =>
  match m s with
  | Ok (a, s') => k a s'
  | Throw e => Throw e
  | Timeout => Timeout
  end.
#[global] Instance st_fmap {S} : FMap (st S) := fun A B f m s =>
  match m s with
  | Ok (a, s') => Ok (f a, s')
  | Throw e => Throw e
  | Timeout => Timeout
  end.

(** A result inside a computation with state. *)
Definition lift {S A} (r : result A) : st S A :=
  fun s => match r with
           | Ok a => Ok (a, s)
           | Throw e => Throw e
           | Timeout => Timeout
           end.

(** ** JavaScript strings *)

(** [WhiteSpace] and [LineTerminator] code units below U+0100: TAB, LF, VT,
    FF, CR, SP and NBSP.  These are what [String.prototype.trim] strips. *)
Definition is_ws (c : ascii) : bool :=
  let n := N_of_ascii c in
  ((9 <=? n) && (n <=? 13) || (n =? 32) || (n =? 160))%N.

(** [s.trimStart()]. *)
Fixpoint trimStart (s : string) : string :=
  match s with
  | String c s' => if is_ws c then trimStart s' else s
  | EmptyString => EmptyString
  end.

(** [trimEnd] drops the trailing white space: a white space character is kept
    only when something is kept after it. *)
Fixpoint trimEnd (s : string) : string :=
  match s with
  | String c s' =>
      match trimEnd s' with
      | EmptyString => if is_ws c then EmptyString else String c EmptyString
      | t => String c t
      end
  | EmptyString => EmptyString
  end.

(** [s.trim()]. *)
Definition trim (s : string) : string := trimEnd (trimStart s).

(** [!s.trim().length]. *)
Definition blank (s : string) : bool := (String.length (trim s) =? 0)%nat.

(** The double quote. *)
Definition dquote : string := String "034" "".

(** [l.join(sep)]. *)
Fixpoint join (sep : string) (l : list string) : string :=
  match l with
  | [] => ""
  | [x] => x
  | x :: l' => x +:+ sep +:+ join sep l'
  end.

(** ** JavaScript values *)

(** [VUser id data] is an instance of the [User] model class; [VModel data san]
    is an instance of any other model class, whose own [sanitise()] resolves to
    [san].  [VObj] is a plain object, properties in insertion order. *)
#[warning="-register-all"]
Inductive value : Type :=
| VUndef
| VNull
| VBool (b : bool)
| VNum (n : Z)
| VStr (s : string)
| VArr (xs : list value)
| VObj (props : list (string * value))
| VUser (id : option string) (data : list (string * value))
| VModel (data : list (string * value)) (san : value).

(** The own properties of an object, in insertion order. *)
Definition props := list (string * value).

(** [o[k]] on own properties; a missing property reads [undefined]. *)
Fixpoint prop_get (k : string) (o : props) : value :=
  match o with
  | [] => VUndef
  | (k', v) :: o' => if String.eqb k k' then v else prop_get k o'
  end.

Fixpoint prop_has (k : string) (o : props) : bool :=
  match o with
  | [] => false
  | (k', _) :: o' => String.eqb k k' || prop_has k o'
  end.

(** [o[k] = v]: an existing property keeps its place, a new one goes last. *)
Fixpoint prop_set (k : string) (v : value) (o : props) : props :=
  match o with
  | [] => [(k, v)]
  | (k', v') :: o' =>
      if String.eqb k k' then (k', v) :: o' else (k', v') :: prop_set k v o'
  end.

Fixpoint prop_del (k : string) (o : props) : props :=
  match o with
  | [] => []
  | (k', v') :: o' =>
      if String.eqb k k' then prop_del k o' else (k', v') :: prop_del k o'
  end.

(** [ToBoolean]. *)
Definition truthy (v : value) : bool :=
  match v with
  | VUndef | VNull => false
  | VBool b => b
  | VNum n => negb (n =? 0)
  | VStr s => negb (String.eqb s "")
  | VArr _ | VObj _ | VUser _ _ | VModel _ _ => true
  end.

(** [a || b]. *)
Definition js_or (a b : value) : value := if truthy a then a else b.

(** Strict equality [===] on the values compared in this program: primitives
    by value; objects, arrays and instances are never equal to a primitive. *)
Definition strict_eq_str (v : value) (s : string) : bool :=
  match v with
  | VStr t => String.eqb t s
  | _ => false
  end.

(** [v === true]. *)
Definition is_true (v : value) : bool :=
  match v with VBool true => true | _ => false end.

(** [v] is [undefined] or [null]. *)
Definition is_nullish (v : value) : bool :=
  match v with VUndef | VNull => true | _ => false end.

(** [v.k]. *)
Definition member (v : value) (k : string) : value :=
  match v with
  | VObj o => prop_get k o
  | _ => VUndef
  end.

(** The string that a value is, when it is one. *)
Definition text (v : value) : string :=
  match v with VStr s => s | _ => "" end.

(** [String(n)] for an integer. *)
Definition number_to_string (n : Z) : string :=
  NilZero.string_of_int (Z.to_int n).

(** [ToString], as applied by a template literal. *)
Fixpoint to_string (v : value) : string :=
  match v with
  | VUndef => "undefined"
  | VNull => "null"
  | VBool true => "true"
  | VBool false => "false"
  | VNum n => number_to_string n
  | VStr s => s
  | VArr xs =>
      join "," (map (fun x => match x with
                              | VUndef | VNull => ""
                              | _ => to_string x
                              end) xs)
  | VObj _ | VUser _ _ | VModel _ _ => "[object Object]"
  end.

(** [v.trim()]: only strings have the method. *)
Definition call_trim (v : value) : result string :=
  match v with
  | VStr s => Ok (trim s)
  | VUndef => Throw "TypeError: Cannot read property 'trim' of undefined"
  | VNull => Throw "TypeError: Cannot read property 'trim' of null"
  | _ => Throw "TypeError: trim is not a function"
  end.

(** ** Configuration *)

(** One entry of [acl.default] / [acl.admin]: a named policy record. *)
Record acl_spec := AclSpec { spec_name : string; spec_value : value }.

(** One entry of [user.fields]. *)
Record field_spec := FieldSpec { field_name : string }.

(** [config.get]: the secret, the two acl lists and the public user fields. *)
Record config := Config {
  secret : string;
  acl_default : list acl_spec;
  acl_admin : list acl_spec;
  user_fields : list field_spec;
}.

(** ** HMAC-SHA256, as Node's crypto module computes it *)

(** [crypto.createHmac('sha256', key).update(msg).digest('hex')]: Node's
    crypto module is an external service of the program. *)
Class Crypto := hmac_sha256_hex : string → string → string.

Module SHA256.

Definition w32 (x : Z) : Z := Z.land x 0xffffffff.
Definition rotr (n x : Z) : Z :=
  Z.lor (Z.shiftr x n) (w32 (Z.shiftl x (32 - n))).
Definition Ch (x y z : Z) : Z := Z.lxor (Z.land x y) (Z.land (Z.lnot x) z).
Definition Maj (x y z : Z) : Z :=
  Z.lxor (Z.land x y) (Z.lxor (Z.land x z) (Z.land y z)).
Definition Sigma0 (x : Z) : Z := Z.lxor (rotr 2 x) (Z.lxor (rotr 13 x) (rotr 22 x)).
Definition Sigma1 (x : Z) : Z := Z.lxor (rotr 6 x) (Z.lxor (rotr 11 x) (rotr 25 x)).
Definition sigma0 (x : Z) : Z := Z.lxor (rotr 7 x) (Z.lxor (rotr 18 x) (Z.shiftr x 3)).
Definition sigma1 (x : Z) : Z := Z.lxor (rotr 17 x) (Z.lxor (rotr 19 x) (Z.shiftr x 10)).

(** The round constants are the first 32 bits of the fractional parts of the
    cube roots of the first 64 primes, the initial hash value those of the
    square roots of the first 8 primes. *)
Definition is_prime (n : nat) : bool :=
  forallb (fun d => negb (n mod d =? 0)%nat) (seq 2 (n - 2)).

Definition primes (count : nat) : list Z :=
  Z.of_nat <$> take count (List.filter is_prime (seq 2 400)).

(** The integer part of the [k]-th root of [n], for [n] below [2 ^ (44 * k)]. *)
Definition root (k n : Z) : Z :=
  foldl (fun r b => let r' := r + 2 ^ Z.of_nat b in
                    if r' ^ k <=? n then r' else r)
        0 (rev (seq 0 44)).

Definition K : list Z :=
  Eval vm_compute in (fun p => w32 (root 3 (p * 2 ^ 96))) <$> primes 64.

Definition H0 : list Z :=
  Eval vm_compute in (fun p => w32 (root 2 (p * 2 ^ 64))) <$> primes 8.

(** The message followed by the bit 1, zeros, and its length in bits on 64
    bits, to a multiple of 64 bytes. *)
Definition be_bytes (n : nat) (x : Z) : list Z :=
  map (fun i => Z.land (Z.shiftr x (8 * Z.of_nat i)) 0xff) (rev (seq 0 n)).

Definition pad (msg : list Z) : list Z :=
  let len := Z.of_nat (length msg) in
  msg ++ [0x80] ++ repeat 0 (Z.to_nat ((55 - len) mod 64)) ++ be_bytes 8 (8 * len).

Fixpoint words (bytes : list Z) : list Z :=
  match bytes with
  | a :: b :: c :: d :: r =>
      (Z.shiftl a 24 + Z.shiftl b 16 + Z.shiftl c 8 + d) :: words r
  | _ => []
  end.

Fixpoint blocks (fuel : nat) (ws : list Z) : list (list Z) :=
  match fuel, ws with
  | S fuel', _ :: _ => take 16 ws :: blocks fuel' (drop 16 ws)
  | _, _ => []
  end.

(** The message schedule, most recent word first. *)
Definition extend (w : list Z) : list Z :=
  w32 (sigma1 (nth 1 w 0) + nth 6 w 0 + sigma0 (nth 14 w 0) + nth 15 w 0) :: w.

Definition schedule (block : list Z) : list Z :=
  rev (Nat.iter 48 extend (rev block)).

Definition round (s : list Z) (kw : Z * Z) : list Z :=
  match s with
  | [a; b; c; d; e; f; g; h] =>
      let t1 := h + Sigma1 e + Ch e f g + kw.1 + kw.2 in
      let t2 := Sigma0 a + Maj a b c in
      [w32 (t1 + t2); a; b; c; w32 (d + t1); e; f; g]
  | _ => s
  end.

Definition compress (h : list Z) (block : list Z) : list Z :=
  zip_with (fun x y => w32 (x + y)) h
    (foldl round h (zip K (schedule block))).

Definition digest (msg : list Z) : list Z :=
  let ws := words (pad msg) in
  mjoin (be_bytes 4 <$> foldl compress H0 (blocks (length ws) ws)).

Definition hmac (key msg : list Z) : list Z :=
  let key := if decide (64 < length key)%nat then digest key else key in
  let key := key ++ repeat 0 (64 - length key)%nat in
  digest (map (Z.lxor 0x5c) key ++ digest (map (Z.lxor 0x36) key ++ msg)).

Definition hex_char (n : Z) : ascii :=
  ascii_of_N (Z.to_N (if n <? 10 then 48 + n else 87 + n)).

Fixpoint hex (bytes : list Z) : string :=
  match bytes with
  | [] => ""
  | b :: r => String (hex_char (Z.shiftr b 4)) (String (hex_char (Z.land b 15)) (hex r))
  end.

(** The UTF-8 encoding of code units below U+0100. *)
Fixpoint utf8 (s : string) : list Z :=
  match s with
  | EmptyString => []
  | String c s' =>
      let n := Z.of_N (N_of_ascii c) in
      (if n <? 128 then [n] else [0xc0 + Z.shiftr n 6; 0x80 + Z.land n 63])
      ++ utf8 s'
  end.

End SHA256.

#[global] Instance node_crypto : Crypto := fun key msg =>
  SHA256.hex (SHA256.hmac (SHA256.utf8 key) (SHA256.utf8 msg)).

(** ** The User model *)

(** A document of the [user] collection: its id once saved, and its data. *)
Record user := User { _id : option string; fields : props }.

(** A user as a value. *)
Definition VUser' (u : user) : value := VUser (_id u) (fields u).

(** [this.get(key)] of the model class of the framework, for a key that
    names a field: the field as stored, the id under [_id].  (A key with a
    dot is a path into the data there.  The keys that the source writes have
    none; a configured field name, which [sanitise] reads, is read here as
    the field of that name.) *)
Definition get (u : user) (k : string) : value :=
  if String.eqb k "_id" then from_option VStr VUndef (_id u)
  else prop_get k (fields u).

(** [this.set(key, value)], for a key that names a field. *)
Definition set (k : string) (v : value) (u : user) : user :=
  User (_id u) (prop_set k v (fields u)).

(** Methods run against [this], which they may change, and may throw. *)
Abbreviation method := (st user).

(** [this.get(key)] inside a method. *)
Definition this_get (k : string) : method value :=
  fun this => Ok (get this k, this).

(** [{ info : 'Incorrect password', error : true }]. *)
Definition incorrect_password : value :=
  VObj [("info", VStr "Incorrect password"); ("error", VBool true)].

(** [User.authenticate(password)]. *)
Definition authenticate `{Crypto} (cfg : config) (password : string)
  : method value :=
  hash ← this_get "hash";
  let check := hmac_sha256_hex (secret cfg) password in
  if negb (strict_eq_str hash check) then mret incorrect_password
  else mret (VBool true).

(** [User.name()]. *)
Definition name (u : user) : result string :=
  let name := js_or (get u "name")
                (VStr (to_string (js_or (get u "first") (VStr "")) +:+ " "
                       +:+ to_string (js_or (get u "last") (VStr "")))) in
  t ← call_trim name;
  call_trim (if (String.length t =? 0)%nat
             then js_or (get u "username") (get u "email")
             else name).

(** *** sanitise *)

(** [v.sanitise] is truthy: model instances have the method; a plain object
    has it when it carries a truthy own property of that name. *)
Definition has_sanitise (v : value) : bool :=
  match v with
  | VUser _ _ | VModel _ _ => true
  | VObj o => truthy (prop_get "sanitise" o)
  | _ => false
  end.

(** A pre-handler of the [user.sanitise] hook: it receives the payload
    [{sanitised, user}] and may change [sanitised]. *)
Definition sanitise_hook := props → user → props.

Section sanitise.
Context (cfg : config) (hooks : list sanitise_hook).

(** The loop body of [sanitise] for one configured field; [call v] is
    [v.sanitise()]. *)
Definition sanitise_field (call : value → result value) (this : user)
    (sanitised : props) (field : field_spec) : result props :=
  let f := field_name field in
  (* sanitised[field.name] = await this.get(field.name) *)
  let sanitised := prop_set f (get this f) sanitised in
  (* sanitised[field.name] && sanitised[field.name].sanitise ? ... *)
  let x := prop_get f sanitised in
  x ← (if truthy x && has_sanitise x then call x else Ok x);
  let sanitised := prop_set f x sanitised in
  (* Array.isArray(sanitised[field.name]) ? Promise.all(... .map(...)) : ... *)
  let x := prop_get f sanitised in
  x ← match x with
      | VArr vals =>
          if existsb is_nullish vals
          then Throw "TypeError: Cannot read property 'sanitise' of null"
          else VArr <$> rmap (fun val => if has_sanitise val then call val
                                         else Ok val) vals
      | _ => Ok x
      end;
  Ok (prop_set f x sanitised).

(** [for (const field of fields) ...]. *)
Fixpoint sanitise_fields (call : value → result value) (this : user)
    (sanitised : props) (fs : list field_spec) : result props :=
  match fs with
  | [] => Ok sanitised
  | field :: fs' =>
      sanitised ← sanitise_field call this sanitised field;
      sanitise_fields call this sanitised fs'
  end.

(** [User.sanitise()], given [v.sanitise()] for the nested values. *)
Definition sanitise_with (call : value → result value) (this : user)
  : result props :=
  n ← name this;
  let id := if truthy (get this "_id") then VStr (to_string (get this "_id"))
            else VNull in
  let sanitised := [ ("id", id); ("_id", id); ("name", VStr n);
                     ("created_at", get this "created_at");
                     ("updated_at", get this "updated_at") ] in
  sanitised ← sanitise_fields call this sanitised (user_fields cfg);
  (* await this.eden.hook('user.sanitise', { sanitised, user : this }) *)
  Ok (foldl (fun sanitised h => h sanitised this) sanitised hooks).

(** [v.sanitise()]; the fuel bounds the nesting of users within users. *)
Fixpoint call_sanitise (fuel : nat) (v : value) : result value :=
  match fuel with
  | O => Timeout
  | S fuel' =>
      match v with
      | VUser id data =>
          VObj <$> sanitise_with (call_sanitise fuel') (User id data)
      | VModel _ san => Ok san
      | _ => Throw "TypeError: sanitise is not a function"
      end
  end.

(** [this.sanitise()]. *)
Definition sanitise (fuel : nat) (this : user) : result props :=
  sanitise_with (call_sanitise fuel) this.
End sanitise.

(** How deep users nest within the values of a user's fields. *)
Fixpoint depth (v : value) : nat :=
  match v with
  | VArr xs => foldr (fun x d => Nat.max (depth x) d) O xs
  | VUser _ data => S (foldr (fun kx d => Nat.max (depth kx.2) d) O data)
  | VObj o => foldr (fun kx d => Nat.max (depth kx.2) d) O o
  | VModel data san =>
      Nat.max (depth san) (foldr (fun kx d => Nat.max (depth kx.2) d) O data)
  | _ => O
  end.

(** [user.sanitise()] with fuel for the nesting at hand. *)
Definition User_sanitise (cfg : config) (shooks : list sanitise_hook)
    (u : user) : result props :=
  sanitise cfg shooks (depth (VUser' u)) u.

(** ** Regular expressions *)

(** [escape-string-regexp]: the characters [|\{}()[]^$+*?.] get a backslash
    in front, a hyphen becomes [\x2d]. *)
Definition is_syntax_char (c : ascii) : bool :=
  existsb (Ascii.eqb c) (list_ascii_of_string "|\{}()[]^$+*?.").

(** What one character is replaced by. *)
Definition escape_char (c : ascii) : string :=
  if is_syntax_char c then String "\" (String c "")
  else if Ascii.eqb c "-" then "\x2d"
  else String c "".

(** [escapeRegex(s)]. *)
Fixpoint escapeRegex (s : string) : string :=
  match s with
  | EmptyString => ""
  | String c s' => escape_char c +:+ escapeRegex s'
  end.

(** The patterns this program builds are sequences of anchors and single
    characters. *)
Inductive atom : Type :=
| Bol                (* ^ *)
| Eol                (* $ *)
| Chr (c : ascii).   (* a pattern character, written plainly or escaped *)

Definition hex_digit (c : ascii) : option N :=
  let n := N_of_ascii c in
  if ((48 <=? n) && (n <=? 57))%N then Some (n - 48)%N
  else if ((97 <=? n) && (n <=? 102))%N then Some (n - 87)%N
  else if ((65 <=? n) && (n <=? 70))%N then Some (n - 55)%N
  else None.

(** [new RegExp(source)] for that fragment: [None] is a pattern that uses
    another construct of the regular expression language (or is ill-formed). *)
Fixpoint parse_pattern (src : string) : option (list atom) :=
  match src with
  | EmptyString => Some []
  | String "^" r => cons Bol <$> parse_pattern r
  | String "$" r => cons Eol <$> parse_pattern r
  | String "\" (String "x" (String h (String l r))) =>
      match hex_digit h, hex_digit l with
      | Some a, Some b => cons (Chr (ascii_of_N (16 * a + b))) <$> parse_pattern r
      | _, _ => None
      end
  | String "\" (String c r) =>
      if is_syntax_char c then cons (Chr c) <$> parse_pattern r else None
  | String c r =>
      if is_syntax_char c then None else cons (Chr c) <$> parse_pattern r
  end.

(** [Canonicalize] under the [i] flag (without [u]): the upper case of the
    code unit, when that is again one code unit of the same range. *)
Definition canonicalize (c : ascii) : ascii :=
  let n := N_of_ascii c in
  if (((97 <=? n) && (n <=? 122)) ||
      ((224 <=? n) && (n <=? 254) && negb (n =? 247)))%N
  then ascii_of_N (n - 32)
  else c.

(** A pattern character matches an input character. *)
Definition char_eq (ignoreCase : bool) (c d : ascii) : bool :=
  if ignoreCase then Ascii.eqb (canonicalize c) (canonicalize d)
  else Ascii.eqb c d.

(** The atoms match at the current position; [at_start] says whether that is
    the beginning of the input, [input] is what follows the position. *)
Fixpoint match_here (ignoreCase : bool) (re : list atom) (at_start : bool)
    (input : string) : bool :=
  match re with
  | [] => true
  | Bol :: re' => at_start && match_here ignoreCase re' at_start input
  | Eol :: re' =>
      String.eqb input "" && match_here ignoreCase re' at_start input
  | Chr c :: re' =>
      match input with
      | String d input' => char_eq ignoreCase c d
                           && match_here ignoreCase re' false input'
      | EmptyString => false
      end
  end.

(** A match may start at any position. *)
Fixpoint match_from (ignoreCase : bool) (re : list atom) (at_start : bool)
    (input : string) : bool :=
  match_here ignoreCase re at_start input ||
  match input with
  | String _ input' => match_from ignoreCase re false input'
  | EmptyString => false
  end.

(** A compiled expression with its [i] flag. *)
Record regexp := RegExp { re_atoms : list atom; re_ignoreCase : bool }.

(** [re.test(input)]. *)
Definition regexp_test (re : regexp) (input : string) : bool :=
  match_from (re_ignoreCase re) (re_atoms re) true input.

(** [new RegExp(['^', escapeRegex(s), '$'].join(''), 'i')]. *)
Definition exact_regexp (s : string) : result regexp :=
  match parse_pattern ("^" +:+ escapeRegex s +:+ "$") with
  | Some atoms => Ok (RegExp atoms true)
  | None => Throw "SyntaxError: Invalid regular expression"
  end.

(** ** The persistence layer *)

(** The collections, documents in insertion order.  An [Acl] record has a
    name and a policy payload. *)
Record acl := Acl {
  acl_id : option string;
  acl_name : string;
  acl_value : value;
}.

(** A document of the [login] collection. *)
Record login := Login {
  login_ip : value;
  login_way : string;
  login_fail : bool;
  login_user : value;
  login_message : value;
}.

(** What the [Acl] model class answers to [sanitise()]. *)
Class AclModel := acl_sanitise : acl → value.

(** An [Acl] record as a value held by a field. *)
Definition VAcl `{AclModel} (a : acl) : value :=
  VModel [("name", VStr (acl_name a)); ("value", acl_value a)] (acl_sanitise a).

(** The collections, and the count of ids given out. *)
Record database := Database {
  users : list user;
  acls : list acl;
  logins : list login;
  next_id : nat;
}.

(** The id that the store gives to its [n]-th document. *)
Definition object_id (n : nat) : string := number_to_string (Z.of_nat n).

(** A query value matches a field: a regular expression matches the strings
    it accepts (the store is taken to apply it as [RegExp.prototype.test]
    does), any other value matches by equality. *)
Definition email_matches (re : regexp) (u : user) : bool :=
  match get u "email" with
  | VStr e => regexp_test re e
  | _ => false
  end.

(** [User.match('email', re).findOne()] and [User.findOne({ email : re })]. *)
Definition User_findOne_email (re : regexp) (db : database) : option user :=
  find (email_matches re) (users db).

(** [User.findOne({ token })], for a token that is a string. *)
Definition User_findOne_token (token : value) (db : database) : option user :=
  match token with
  | VStr t => find (fun u => strict_eq_str (get u "token") t) (users db)
  | _ => None
  end.

(** [User.findById(id)]. *)
Definition User_findById (id : string) (db : database) : option user :=
  find (fun u => bool_decide (_id u = Some id)) (users db).

(** [User.count()]. *)
Definition User_count (db : database) : nat := length (users db).

(** [Acl.count({ name })] and [Acl.findOne({ name })]. *)
Definition Acl_count (name : string) (db : database) : nat :=
  length (filter (fun a => acl_name a = name) (acls db)).

Definition Acl_findOne (name : string) (db : database) : option acl :=
  find (fun a => String.eqb (acl_name a) name) (acls db).

(** [user.save()]: a document without an id is inserted under a fresh one;
    a document with an id replaces the stored document of that id. *)
Fixpoint replace_user (u : user) (l : list user) : list user :=
  match l with
  | [] => []
  | v :: l' => if bool_decide (_id v = _id u) then u :: l'
               else v :: replace_user u l'
  end.

(** The document as stored, and the collections after the save. *)
Definition save_user (u : user) (db : database) : user * database :=
  match _id u with
  | Some _ =>
      (u, Database (replace_user u (users db)) (acls db) (logins db) (next_id db))
  | None =>
      let u' := User (Some (object_id (next_id db))) (fields u) in
      (u', Database (users db ++ [u']) (acls db) (logins db) (S (next_id db)))
  end.

(** [new Acl(spec).save()]. *)
Definition create_acl (spec : acl_spec) (db : database) : database :=
  Database (users db)
    (acls db ++ [Acl (Some (object_id (next_id db))) (spec_name spec) (spec_value spec)])
    (logins db) (S (next_id db)).

(** [login.save()]. *)
Definition save_login (l : login) (db : database) : database :=
  Database (users db) (acls db) (logins db ++ [l]) (next_id db).

(** ** The controller *)

(** What the actions read of [req]; the session user is [req.user]. *)
Record request := Request {
  body : props;
  query : props;
  req_user : option user;
  sessionID : string;
  headers : props;
  remoteAddress : string;
}.

(** What an action does to the outside: the response, the alerts, the events
    and the pushes over the session channel, in order. *)
Inductive effect : Type :=
| Alert (type message : string)
| Render (view : string) (locals : props)
| Redirect (url : value)
| Emitted (event : string) (u : value)
| Pushed (session channel : string) (payload : value)
| Saved (u : user).

(** The collections, the users bound to sessions, and what was done so far. *)
Record world := World {
  db : database;
  sessions : gmap string user;
  trace : list effect;
}.

(** Actions run against the world. *)
Abbreviation action := (st world).

(** Reading and writing the collections, and doing something to the outside. *)
Definition read_db : action database := fun w => Ok (db w, w).
Definition write_db (d : database) : action unit :=
  fun w => Ok (tt, World d (sessions w) (trace w)).
Definition out (e : effect) : action unit :=
  fun w => Ok (tt, World (db w) (sessions w) (trace w ++ [e])).

(** The world an action leaves. *)
Definition run_action {A} (m : action A) (w : world) : result world :=
  snd <$> m w.

(** [user.save(by)]. *)
Definition save (u : user) : action user :=
  d ← read_db;
  let '(u', d') := save_user u d in
  _ ← write_db d';
  _ ← out (Saved u');
  mret u'.

(** [passport.serializeUser]: [done(null, user.get('_id').toString())]. *)
Definition serializeUser (u : user) : result string :=
  match get u "_id" with
  | VStr id => Ok id
  | _ => Throw "TypeError: Cannot read property 'toString' of undefined"
  end.

(** [req.login(user, done)]: passport binds the user to the session when it
    can serialise it; a failure goes to [done] as its argument, which the
    callbacks of this controller do not look at. *)
Definition req_login (req : request) (u : user) : action unit :=
  fun w =>
    match serializeUser u with
    | Ok _ => Ok (tt, World (db w) (<[sessionID req := u]> (sessions w)) (trace w))
    | _ => Ok (tt, w)
    end.

(** [req.logout()]. *)
Definition req_logout (req : request) : action unit :=
  fun w => Ok (tt, World (db w) (delete (sessionID req) (sessions w)) (trace w)).

(** *** Audit records *)

(** The payload of [user.login], [user.login.fail] and [user.logout]. *)
Record login_event := LoginEvent {
  ev_req : option request;
  ev_user : value;
  ev_fail : value;
  ev_message : value;
}.

Definition is_line_terminator (c : ascii) : bool :=
  let n := N_of_ascii c in ((n =? 10) || (n =? 13))%N.

(** [s.replace(/^.*:/, '')]: what follows the last colon of the first line,
    when that line has one. *)
Fixpoint after_last_colon (s : string) : option string :=
  match s with
  | EmptyString => None
  | String c s' =>
      if is_line_terminator c then None
      else match after_last_colon s' with
           | Some r => Some r
           | None => if Ascii.eqb c ":" then Some s' else None
           end
  end.

Definition strip_to_last_colon (s : string) : string :=
  default s (after_last_colon s).

(** [_login(obj)]. *)
Definition _login (obj : login_event) : action unit :=
  let ip := match ev_req obj with
            | Some req =>
                js_or (prop_get "x-forwarded-for" (headers req))
                      (VStr (strip_to_last_colon (remoteAddress req)))
            | None => VBool false
            end in
  let login := Login ip "login" (truthy (ev_fail obj)) (ev_user obj)
                 (ev_message obj) in
  d ← read_db;
  write_db (save_login login d).

(** [_logout(obj)]. *)
Definition _logout (obj : login_event) : action unit :=
  let ip := match ev_req obj with
            | Some req =>
                js_or (prop_get "x-forwarded-for" (headers req))
                      (VStr (remoteAddress req))
            | None => VBool false
            end in
  let login := Login ip "logout" false (ev_user obj) (VBool false) in
  d ← read_db;
  write_db (save_login login d).

(** [this.eden.emit(event, obj)], with the listeners that [build] registers:
    [_login] on [user.login] and [user.login.fail], [_logout] on
    [user.logout]. *)
Definition emit (event : string) (obj : login_event) : action unit :=
  _ ← out (Emitted event (ev_user obj));
  if String.eqb event "user.login" || String.eqb event "user.login.fail"
  then _login obj
  else if String.eqb event "user.logout" then _logout obj
  else mret tt.

(** *** The [user.register] hook *)

(** The payload [{req, user}] that the pre-handlers share; [error] is the
    flag by which a handler vetoes. *)
Record register_payload := RegisterPayload {
  p_user : user;
  p_error : value;
}.

(** A pre-handler inspects the stored data and changes the payload. *)
Definition register_hook :=
  database → request → register_payload → result register_payload.

(** Modelled from the spec: the pre-handlers of the EventBus, which belongs
    to the framework and is not part of these sources.  "handlers run in
    registration order, each receiving (and able to mutate) a shared mutable
    payload; any handler may set an error/prevented flag on the payload,
    which short-circuits remaining handlers and signals the orchestrator to
    abort the in-flight operation." *)
Fixpoint run_pre (hs : list register_hook) (d : database) (req : request)
    (obj : register_payload) : result register_payload :=
  match hs with
  | [] => Ok obj
  | h :: hs' =>
      obj' ← h d req obj;
      if truthy (p_error obj') then Ok obj' else run_pre hs' d req obj'
  end.

(** [eden.hook(name, payload, fn)]: the answer is the payload as the
    handlers left it, and what [fn] returned when it was called. *)
Definition dispatcher : Type :=
  ∀ A, list register_hook → request → register_payload →
       (register_payload → action A) → action (register_payload * option A).

(** Modelled from the spec: [eden.hook], the [hook] of the EventBus, which
    "runs all pre-handlers sequentially against payload, then - only if not
    prevented - invokes finalizer(payload) and returns finalizer's result; if
    prevented, returns the payload unmodified and finalizer is never
    invoked". *)
Definition eden_hook : dispatcher := fun A hs req obj fn =>
  d ← read_db;
  obj' ← lift (run_pre hs d req obj);
  if truthy (p_error obj') then mret (obj', None)
  else r ← fn obj'; mret (obj', Some r).

(** [_register(obj)], the pre-handler that [build] registers. *)
Fixpoint load_acls `{AclModel} (d : database) (def : list acl_spec) (acls : list value)
  : list value :=
  match def with
  | [] => acls
  | spec :: def' =>
      match Acl_findOne (spec_name spec) d with
      | Some check => load_acls d def' (acls ++ [VAcl check])
      | None => load_acls d def' acls
      end
  end.

(** The handler itself: [user.set('acl', acls)] on the user of the payload. *)
Definition _register `{AclModel} (cfg : config) : register_hook := fun d req obj =>
  let def := acl_default cfg in
  let count := User_count d in
  let def := if (count =? 0)%nat then def ++ acl_admin cfg else def in
  let acls := load_acls d def [] in
  Ok (RegisterPayload (set "acl" (VArr acls) (p_user obj)) (p_error obj)).

(** *** Registration *)

(** [req.query.redirect || req.body.redirect || fallback]. *)
Definition redirect_or (req : request) (fallback : value) : value :=
  js_or (prop_get "redirect" (query req))
        (js_or (prop_get "redirect" (body req)) fallback).

(** [res.render('register', { old : req.body, redirect : ... })]. *)
Definition render_register (req : request) : action unit :=
  out (Render "register"
         [("old", VObj (body req)); ("redirect", redirect_or req (VBool false))]).

Section registerSubmitAction.
Context `{Crypto} (hook : dispatcher) (cfg : config)
        (hooks : list register_hook) (shooks : list sanitise_hook).

(** The callback of [req.login] after a registration. *)
Definition register_logged_in (req : request) (user : user) : action unit :=
  _ ← out (Alert "success" "You are now successfully registered");
  _ ← emit "user.login" (LoginEvent (Some req) (VUser' user) VUndef VUndef);
  sanitised ← lift (User_sanitise cfg shooks user);
  _ ← out (Pushed (sessionID req) "user" (VObj sanitised));
  out (Redirect (redirect_or req (VStr "/"))).

(** The function handed to the hook; it answers whether it prevented the
    registration, and the user as saved. *)
Definition register_finalizer (req : request) (obj : register_payload)
  : action (bool * user) :=
  if truthy (p_error obj) then
    _ ← render_register req;
    mret (true, p_user obj)
  else
    user ← save (p_user obj);
    mret (false, user).

(** [registerSubmitAction(req, res)]. *)
Definition registerSubmitAction (req : request) : action unit :=
  let user := User None [] in
  let email := prop_get "email" (body req) in
  let password := prop_get "password" (body req) in
  t ← lift (call_trim email);
  if (String.length t <? 5)%nat then
    _ ← out (Alert "error" "your email must be at least 5 characters long");
    render_register req
  else
    re ← lift (exact_regexp (text email));
    d ← read_db;
    if User_findOne_email re d is Some _ then
      _ ← out (Alert "error" ("the email " +:+ dquote +:+ text email +:+ dquote
                               +:+ " is already taken"));
      render_register req
    else
      let user := set "email" email user in
      t ← lift (call_trim password);
      if (String.length t <? 5)%nat then
        _ ← out (Alert "error" "your password must be at least 5 characters long");
        render_register req
      else if negb (strict_eq_str (prop_get "passwordb" (body req)) (text password)) then
        _ ← out (Alert "error" "your passwords do not match");
        render_register req
      else
        let hash := hmac_sha256_hex (secret cfg) (text password) in
        let user := set "hash" (VStr hash) user in
        '(obj, answer) ← hook _ hooks req (RegisterPayload user VUndef)
                           (register_finalizer req);
        (* [prevented] is false unless the function set it; [user] is the
           object the payload shares *)
        let '(prevented, user) := default (false, p_user obj) answer in
        if negb prevented then
          _ ← req_login req user;
          register_logged_in req user
        else mret tt.
End registerSubmitAction.

(** *** Password reset *)

Section resetSubmitAction.
Context `{Crypto} (cfg : config).

(** [res.render('reset', { token : req.body.token })]. *)
Definition render_reset (req : request) : action unit :=
  out (Render "reset" [("token", prop_get "token" (body req))]).

(** [resetSubmitAction(req, res)]. *)
Definition resetSubmitAction (req : request) : action unit :=
  let token := prop_get "token" (body req) in
  let password := prop_get "password" (body req) in
  if negb (truthy token) then out (Redirect (VStr "/forgot"))
  else
    d ← read_db;
    match User_findOne_token token d with
    | None =>
        _ ← out (Alert "error" "The token you have used is invalid");
        out (Redirect (VStr "/forgot"))
    | Some user =>
        t ← lift (call_trim password);
        if (String.length t <? 5)%nat then
          _ ← out (Alert "error" "Your password must be at least 5 characters long");
          render_reset req
        else if negb (strict_eq_str (prop_get "passwordb" (body req)) (text password)) then
          _ ← out (Alert "error" "Your passwords do not match");
          render_reset req
        else
          let hash := hmac_sha256_hex (secret cfg) (text password) in
          let user := set "hash" (VStr hash) user in
          _ ← save user;
          _ ← out (Alert "success" "Successfully updated your password");
          out (Redirect (VStr "/login"))
    end.
End resetSubmitAction.

(** *** Logout *)

(** [logoutAction(req, res)]. *)
Definition logoutAction (req : request) : action unit :=
  _ ← emit "user.logout"
        (LoginEvent (Some req) (from_option VUser' VUndef (req_user req))
           VUndef VUndef);
  _ ← req_logout req;
  _ ← out (Pushed (sessionID req) "user" (VBool false));
  _ ← out (Alert "success" "Successfully logged out");
  out (Redirect (VStr "/")).

(** *** The acl bootstrap *)

(** [_acl()].  [Promise.all(acls.map(async ...))] starts every callback
    before any of them resumes: each runs up to its [await Acl.count(...)],
    so all the counts are taken on the records as they were, and the records
    found missing are created afterwards. *)
Definition _acl (cfg : config) : action unit :=
  let acls := acl_default cfg ++ acl_admin cfg in
  d ← read_db;
  let checks := map (fun acl => Acl_count (spec_name acl) d) acls in
  write_db (foldl (fun d' '(acl, check) =>
                     if (check =? 0)%nat then create_acl acl d' else d')
                  d (zip acls checks)).

(** *** The passport verify callback *)

(** The arguments [_authenticate] hands to [done]. *)
Record done_args := Done {
  done_err : value;
  done_user : value;
  done_info : option props;
}.

(** [_authenticate(email, password, done)]: what [done] is called with. *)
Definition _authenticate `{Crypto} (cfg : config) (email password : string)
    (d : database) : result done_args :=
  re ← exact_regexp email;
  match User_findOne_email re d with
  | None =>
      Ok (Done VNull (VBool false)
            (Some [("user", VBool false); ("message", VStr "User not found")]))
  | Some user =>
      '(result, user) ← authenticate cfg password user;
      if negb (is_true result) then
        Ok (Done VNull (VBool false)
              (Some [("user", VUser' user); ("message", member result "info")]))
      else Ok (Done VNull (VUser' user) None)
  end.

(** *** Live updates: listen and deafen *)

(** The transport (which socket sits in which room) and the registry of the
    sync helper (which session listens to which entity, under which listen
    token). *)
Record live := Live {
  rooms : gset (string * string);
  listeners : gset (string * string * string);
}.

(** What the actions read of [opts]. *)
Record listen_opts := Opts {
  opts_socket : string;
  opts_user : option user;
  opts_sessionID : string;
}.

(** An action runs in segments: what it does from one suspension to the
    next.  Between two segments of an action, segments of other actions may
    run. *)
Inductive segment : Type :=
| SocketJoin (socket room : string)
| SocketLeave (socket room : string)
| AddListener (model : option user) (listenID sessionID : string)
| RemoveListener (model : option user) (listenID sessionID : string).

(** [listenAction(id, uuid, opts)]: the room is joined before the action
    suspends on [User.findById]; the helper is called when it resumes. *)
Definition listenAction (d : database) (id uuid : string) (opts : listen_opts)
  : list segment :=
  if String.eqb id "" then []
  else [ SocketJoin (opts_socket opts) ("user." +:+ id);
         AddListener (User_findById id d) uuid (opts_sessionID opts) ].

(** [deafenAction(id, uuid, opts)]. *)
Definition deafenAction (d : database) (id uuid : string) (opts : listen_opts)
  : list segment :=
  if String.eqb id "" then []
  else [ SocketLeave (opts_socket opts) ("user." +:+ id);
         RemoveListener (User_findById id d) uuid (opts_sessionID opts) ].

(** Modelled from the spec: [syncHelper.addListener] and [removeListener],
    the ListenerRegistry that "tracks, per entity, the set of (session,
    listen-token) pairs currently subscribed"; removing a registration that
    is not there is a no-op.  The entity is the model it is handed; without
    one there is nothing to key the registration on. *)
Definition registration (model : option user) (listenID sessionID : string)
  : result (string * string * string) :=
  match model ≫= _id with
  | Some id => Ok (id, sessionID, listenID)
  | None => Throw "TypeError: Cannot read property 'get' of null"
  end.

(** What a segment does to the transport and the registry. *)
Definition run_segment (l : live) (s : segment) : result live :=
  match s with
  | SocketJoin socket room => Ok (Live ({[ (socket, room) ]} ∪ rooms l) (listeners l))
  | SocketLeave socket room => Ok (Live (rooms l ∖ {[ (socket, room) ]}) (listeners l))
  | AddListener model listenID sessionID =>
      key ← registration model listenID sessionID;
      Ok (Live (rooms l) ({[ key ]} ∪ listeners l))
  | RemoveListener model listenID sessionID =>
      key ← registration model listenID sessionID;
      Ok (Live (rooms l) (listeners l ∖ {[ key ]}))
  end.

Fixpoint run_segments (l : live) (ss : list segment) : result live :=
  match ss with
  | [] => Ok l
  | s :: ss' => l' ← run_segment l s; run_segments l' ss'
  end.

(** The schedules of two actions that run at the same time: each keeps the
    order of its own segments. *)
Inductive interleaving {A : Type} : list A → list A → list A → Prop :=
| interleaving_nil : interleaving [] [] []
| interleaving_left x l1 l2 l :
    interleaving l1 l2 l → interleaving (x :: l1) l2 (x :: l)
| interleaving_right x l1 l2 l :
    interleaving l1 l2 l → interleaving l1 (x :: l2) (x :: l).

(** *** The login form *)



(** [info.k], where [info] may be [undefined]. *)
Definition info_member (info : option props) (k : string) : result value :=
  match info with
  | Some o => Ok (prop_get k o)
  | None => Throw ("TypeError: Cannot read property '" +:+ k +:+ "' of undefined")
  end.

(** [lookup(obj, field)] of the local strategy, for a field name without
    brackets: a field that holds an object, or nothing, reads as [null]. *)
Definition field_lookup (o : props) (k : string) : value :=
  match prop_get k o with
  | VUndef | VNull | VArr _ | VObj _ | VUser _ _ | VModel _ _ => VNull
  | x => x
  end.

Section loginSubmitAction.
Context `{Crypto} (cfg : config) (shooks : list sanitise_hook).

(** The callback that [loginSubmitAction] hands to [passport.authenticate]:
    it is called with [(err, user, info)]. *)
Definition login_callback (req : request) (args : done_args) : action unit :=
  if negb (truthy (done_user args)) || truthy (done_err args) then
    (* err || info.message *)
    message ← lift (if truthy (done_err args) then Ok (done_err args)
                    else info_member (done_info args) "message");
    _ ← out (Alert "error" (to_string message));
    user ← lift (info_member (done_info args) "user");
    _ ← emit "user.login.fail" (LoginEvent (Some req) user (VBool true) message);
    out (Render "login"
           [("old", VObj (body req)); ("redirect", redirect_or req (VBool false))])
  else
    match done_user args with
    | VUser id data =>
        let user := User id data in
        _ ← req_login req user;
        sanitised ← lift (User_sanitise cfg shooks user);
        _ ← out (Pushed (sessionID req) "user" (VObj sanitised));
        _ ← out (Alert "success" "Successfully logged in");
        _ ← emit "user.login" (LoginEvent (Some req) (VUser' user) VUndef VUndef);
        out (Redirect (redirect_or req (VStr "/")))
    | _ => lift (Throw "TypeError: user.sanitise is not a function")
    end.

(** [loginSubmitAction(req, res, next)].  The local strategy of passport
    reads the two fields named in [build] from the body, else from the query;
    without one of them it fails with "Missing credentials", else it calls
    [_authenticate] and passes on what that hands to [done].  Where
    [_authenticate] rejects, nothing answers: with an email that is not a
    string in [escapeRegex], with a password that is not a string in the
    digest of the user it found. *)
Definition loginSubmitAction (req : request) : action unit :=
  let lookup k := js_or (field_lookup (body req) k) (field_lookup (query req) k) in
  let email := lookup "email" in
  let password := lookup "password" in
  if negb (truthy email) || negb (truthy password) then
    login_callback req
      (Done VNull (VBool false) (Some [("message", VStr "Missing credentials")]))
  else
    match email, password with
    | VStr email, VStr password =>
        d ← read_db;
        args ← lift (_authenticate cfg email password d);
        login_callback req args
    | VStr email, _ =>
        d ← read_db;
        re ← lift (exact_regexp email);
        if User_findOne_email re d is Some _
        then lift (Throw "TypeError: The data argument must be of type string")
        else login_callback req
               (Done VNull (VBool false)
                  (Some [("user", VBool false); ("message", VStr "User not found")]))
    | _, _ => lift (Throw "TypeError: Expected a string")
    end.

(** [refreshAction(opts)]. *)
Definition refreshAction (opts : listen_opts) : result value :=
  match opts_user opts with
  | Some user => VObj <$> User_sanitise cfg shooks user
  | None => Ok VNull
  end.
End loginSubmitAction.

(** [_deserialise(id, done)]: what [done] is called with. *)
Definition _deserialise (id : string) (d : database) : done_args :=
  Done VNull (from_option VUser' VNull (User_findById id d)) None.

(** *** Forgotten passwords *)

(** [s.toLowerCase()], on the code units below U+0100. *)
Definition to_lower (c : ascii) : ascii :=
  let n := N_of_ascii c in
  if (((65 <=? n) && (n <=? 90)) ||
      ((192 <=? n) && (n <=? 222) && negb (n =? 215)))%N
  then ascii_of_N (n + 32)
  else c.

Fixpoint toLowerCase (s : string) : string :=
  match s with
  | EmptyString => ""
  | String c s' => String (to_lower c) (toLowerCase s')
  end.

(** [v.toLowerCase()]: only strings have the method. *)
Definition call_toLowerCase (v : value) : result string :=
  match v with
  | VStr s => Ok (toLowerCase s)
  | VUndef => Throw "TypeError: Cannot read property 'toLowerCase' of undefined"
  | VNull => Throw "TypeError: Cannot read property 'toLowerCase' of null"
  | _ => Throw "TypeError: toLowerCase is not a function"
  end.

(** [s.slice(from, to)] for indices within [0 .. to]. *)
Definition slice (from to : nat) (s : string) : string :=
  substring from (to - from) s.

(** [forgotAction(req, res)]. *)
Definition forgotAction (req : request) : action unit :=
  let token := prop_get "token" (query req) in
  if truthy token then
    d ← read_db;
    match User_findOne_token token d with
    | None =>
        _ ← out (Alert "error" "The token you have sent is invalid");
        out (Render "forgot" [])
    | Some user => out (Render "reset" [("token", get user "token")])
    end
  else out (Render "forgot" []).

(** A call of [emailHelper.send(to, template, data)]. *)
Record mail := Mail {
  mail_to : value;
  mail_template : string;
  mail_data : props;
}.

(** The world together with the mails handed to the email helper. *)
Record postal := Postal {
  world_of : world;
  outbox : list mail;
}.

(** An action of the controller, where mail may be sent as well. *)
Definition in_world {A} (m : action A) : st postal A := fun p =>
  match m (world_of p) with
  | Ok (a, w) => Ok (a, Postal w (outbox p))
  | Throw e => Throw e
  | Timeout => Timeout
  end.

Definition send (m : mail) : st postal unit := fun p =>
  Ok (tt, Postal (world_of p) (outbox p ++ [m])).

(** [crypto.randomBytes(Math.ceil(24 / 2)).toString('hex').slice(0, 24)],
    from the twelve bytes that [randomBytes] hands out. *)
Definition reset_token (random : list Z) : string :=
  slice 0 24 (SHA256.hex random).

Section forgotSubmitAction.
Context (domain : string).

(** [forgotSubmitAction(req, res)]; [random] is what [crypto.randomBytes]
    answers. *)
Definition forgotSubmitAction (random : list Z) (req : request) : st postal unit :=
  email ← lift (call_toLowerCase (prop_get "email" (body req)));
  re ← lift (exact_regexp email);
  d ← in_world read_db;
  match User_findOne_email re d with
  | None =>
      _ ← in_world (out (Alert "error" "Email not found"));
      in_world (forgotAction req)
  | Some user =>
      if negb (truthy (get user "email")) then
        in_world (out (Alert "error" "User does not have an email"))
      else
        let user := set "token" (VStr (reset_token random)) user in
        user ← in_world (save user);
        _ ← in_world (out (Alert "success"
                             "An email has been sent with your password reset token"));
        _ ← send (Mail (get user "email") "forgot"
                    [ ("token", get user "token");
                      ("subject", VStr (domain +:+ " - forgot password")) ]);
        in_world (out (Redirect (VStr "/forgot")))
  end.
End forgotSubmitAction.

(** *** The routes *)


Section routes.
Context `{Crypto} (cfg : config) (domain : string)
        (hooks : list register_hook) (shooks : list sanitise_hook).

End routes.

(** *** The view hook *)

Section view_compile.
Context (cfg : config) (shooks : list sanitise_hook).

(** [aclHelper.list(user)], a service of another module. *)
Context (acl_list : user → value).

(** The pre-handler of [view.compile] that [build] registers: what it makes
    of [render]. *)
Definition view_compile (req : request) (render : props) : result props :=
  match req_user req with
  | Some user =>
      if negb (truthy (prop_get "isJSON" render)) then
        let render := prop_set "acls" (acl_list user) render in
        sanitised ← User_sanitise cfg shooks user;
        Ok (prop_set "user" (VObj sanitised) render)
      else Ok render
  | None => Ok render
  end.
End view_compile.

(** ** The browser side: EdenUser *)

Module Client.

(** *** JSON.stringify *)

Definition hex4 (n : N) : string :=
  let digit d := SHA256.hex_char (Z.of_N d) in
  String (digit (n / 4096)%N) (String (digit (n / 256 mod 16)%N)
    (String (digit (n / 16 mod 16)%N) (String (digit (n mod 16)%N) ""))).

Definition quote_char (c : ascii) : string :=
  let n := N_of_ascii c in
  if (n =? 34)%N then String "\" dquote
  else if (n =? 92)%N then "\\"
  else if (n =? 8)%N then "\b"
  else if (n =? 9)%N then "\t"
  else if (n =? 10)%N then "\n"
  else if (n =? 12)%N then "\f"
  else if (n =? 13)%N then "\r"
  else if (n <? 32)%N then "\u" +:+ hex4 n
  else String c "".

Fixpoint quote_chars (s : string) : string :=
  match s with
  | EmptyString => ""
  | String c s' => quote_char c +:+ quote_chars s'
  end.

Definition quote (s : string) : string := dquote +:+ quote_chars s +:+ dquote.

(** [JSON.stringify(v)]; [None] is [undefined].  An instance of a class is
    written with its own properties. *)
Fixpoint stringify (v : value) : option string :=
  let object (o : list (string * value)) :=
    "{" +:+ join "," (omap (fun kx : string * value =>
                              s ← stringify kx.2;
                              Some (quote kx.1 +:+ ":" +:+ s)) o) +:+ "}" in
  match v with
  | VUndef => None
  | VNull => Some "null"
  | VBool true => Some "true"
  | VBool false => Some "false"
  | VNum n => Some (number_to_string n)
  | VStr s => Some (quote s)
  | VArr xs =>
      Some ("[" +:+ join "," (map (fun x => default "null" (stringify x)) xs) +:+ "]")
  | VObj o => Some (object o)
  | VUser _ data => Some (object data)
  | VModel data _ => Some (object data)
  end.

(** *** dot-prop *)

Definition isObj (v : value) : bool :=
  match v with
  | VArr _ | VObj _ | VUser _ _ | VModel _ _ => true
  | _ => false
  end.

(** [s.split('.')]. *)
Fixpoint split_dot (s : string) : list string :=
  match s with
  | EmptyString => [""]
  | String c s' =>
      match split_dot s' with
      | seg :: segs =>
          if Ascii.eqb c "." then "" :: seg :: segs else String c seg :: segs
      | [] => [String c ""]
      end
  end.

Fixpoint ends_with_backslash (s : string) : bool :=
  match s with
  | EmptyString => false
  | String c EmptyString => Ascii.eqb c "\"
  | String _ s' => ends_with_backslash s'
  end.

Fixpoint drop_last (s : string) : string :=
  match s with
  | EmptyString | String _ EmptyString => ""
  | String c s' => String c (drop_last s')
  end.

(** A part that ends in a backslash takes the next part with it, the
    backslash giving way to the dot. *)
Fixpoint merge_escaped (parts : list string) : list string :=
  match parts with
  | [] => []
  | p :: rest =>
      match merge_escaped rest with
      | q :: qs => if ends_with_backslash p then (drop_last p +:+ "." +:+ q) :: qs
                   else p :: q :: qs
      | [] => [p]
      end
  end.

Definition disallowed (seg : string) : bool :=
  String.eqb seg "__proto__" || String.eqb seg "prototype"
  || String.eqb seg "constructor".

(** [getPathSegments(path)]: no segments when one of them is disallowed. *)
Definition getPathSegments (path : string) : list string :=
  let parts := merge_escaped (split_dot path) in
  if existsb disallowed parts then [] else parts.

(** The array index that a property name denotes: a decimal numeral in
    canonical form. *)
Definition array_index (seg : string) : option nat :=
  n ← Nat.of_uint <$> NilZero.uint_of_string seg;
  if String.eqb (number_to_string (Z.of_nat n)) seg then Some n else None.

(** The enumerable own property [seg] of [v], when it has one. *)
Definition own_property (v : value) (seg : string) : option value :=
  match v with
  | VObj o => if prop_has seg o then Some (prop_get seg o) else None
  | VUser _ data | VModel data _ =>
      if prop_has seg data then Some (prop_get seg data) else None
  | VArr xs => i ← array_index seg; xs !! i
  | _ => None
  end.

Fixpoint get_path (v : value) (segs : list string) (d : value) : value :=
  match segs with
  | [] => v
  | seg :: segs' =>
      match own_property v seg with
      | None => d
      | Some (VUndef as x) | Some (VNull as x) =>
          match segs' with [] => x | _ => d end
      | Some x => get_path x segs' d
      end
  end.

(** [dotProp.get(object, path, value)]. *)
Definition dotProp_get (object : value) (path : string) (d : value) : value :=
  if negb (isObj object) then (if d is VUndef then object else d)
  else match getPathSegments path with
       | [] => VUndef
       | segs => get_path object segs d
       end.

(** [object[p] = x]; an array grows to hold the index it is given. *)
Definition assign (object : value) (p : string) (x : value) : value :=
  match object with
  | VObj o => VObj (prop_set p x o)
  | VUser id data => VUser id (prop_set p x data)
  | VModel data san => VModel (prop_set p x data) san
  | VArr xs =>
      match array_index p with
      | Some i => VArr (<[i := x]> (xs ++ replicate (S i - length xs) VUndef))
      | None => object
      end
  | _ => object
  end.

Fixpoint set_path (object : value) (segs : list string) (x : value) : value :=
  match segs with
  | [] => object
  | [p] => assign object p x
  | p :: segs' =>
      let child := default VUndef (own_property object p) in
      let child := if isObj child then child else VObj [] in
      assign object p (set_path child segs' x)
  end.

(** [dotProp.set(object, path, value)]. *)
Definition dotProp_set (object : value) (path : string) (x : value) : value :=
  if negb (isObj object) then object
  else set_path object (getPathSegments path) x.

(** *** The store *)

Record EdenUser := Build {
  __data : value;
  __fields : list string;
  emitted : list (string * list value);   (* the calls of [emit] that returned *)
  store_user : bool;                      (* [store.user = builtUser] ran *)
  _events : list string;                  (* the events that have a listener *)
}.

(** [new EdenUser()], with the user the page was rendered with. *)
Definition build (user : value) : EdenUser :=
  Build (if truthy user then user else VObj []) [] [] false [].

(** [this.get(key, d)]. *)
Definition get (this : EdenUser) (key : string) (d : value) : value :=
  if String.eqb key "" then __data this
  else match dotProp_get (__data this) key VUndef with
       | VUndef => d
       | got => got
       end.

(** [this.on(event, listener)], inherited from [EventEmitter]. *)
Definition on (event : string) (this : EdenUser) : EdenUser :=
  Build (__data this) (__fields this) (emitted this) (store_user this)
    (_events this ++ [event]).

(** [this.emit(event, ...args)], inherited from [EventEmitter]: the call is
    recorded; what the listeners do with it is theirs.  An [error] event
    that has no listener is thrown instead; the message of the emitter goes
    on with a rendering of the argument, which is left out here. *)
Definition emit (event : string) (args : list value) (this : EdenUser)
  : result EdenUser :=
  if String.eqb event "error" && negb (bool_decide ("error" ∈ _events this))
  then Throw "Error: Unhandled error."
  else Ok (Build (__data this) (__fields this) (emitted this ++ [(event, args)])
             (store_user this) (_events this)).

Definition remember (key : string) (this : EdenUser) : EdenUser :=
  if bool_decide (key ∈ __fields this) then this
  else Build (__data this) (__fields this ++ [key]) (emitted this)
         (store_user this) (_events this).

Fixpoint includes_dot (s : string) : bool :=
  match s with
  | EmptyString => false
  | String c s' => Ascii.eqb c "." || includes_dot s'
  end.

(** [this.set(key, value)]. *)
Definition set (key : string) (x : value) (this : EdenUser) : result EdenUser :=
  let this := Build (dotProp_set (__data this) key x) (__fields this)
                (emitted this) (store_user this) (_events this) in
  let this := remember key this in
  this ← emit key [x] this;
  if includes_dot key then emit (default "" (head (split_dot key))) [x] this
  else Ok this.

(** [this.clear()]. *)
Definition clear (this : EdenUser) : EdenUser :=
  Build (VObj []) (__fields this) (emitted this) (store_user this) (_events this).

(** [this.exists()]. *)
Definition exists_ (this : EdenUser) : bool := truthy (get this "_id" VUndef).

(** What [__update] is called with: the store itself (from the [set] hook of
    the page store), or a value delivered over the [user] channel. *)
Inductive update_arg : Type :=
| Itself
| Payload (user : value).

(** [Object.keys(v)] and [v[key]] for the values the channel delivers. *)
Definition keys (v : value) : list string :=
  match v with
  | VObj o | VUser _ o | VModel o _ => o.*1
  | VArr xs => (fun i => number_to_string (Z.of_nat i)) <$> seq 0 (length xs)
  | VStr s => (fun i => number_to_string (Z.of_nat i)) <$> seq 0 (String.length s)
  | _ => []
  end.

Definition index (v : value) (key : string) : value :=
  match v with
  | VStr s =>
      match array_index key ≫= fun i : nat => String.get i s with
      | Some c => VStr (String c "")
      | None => VUndef
      end
  | _ => default VUndef (own_property v key)
  end.

(** The body of the [forEach] in [__update]. *)
Definition update_key (user : value) (this : EdenUser) (key : string)
  : result EdenUser :=
  this ← (if negb (bool_decide (stringify (get this key VUndef)
                                = stringify (index user key)))
          then set key (index user key) this
          else Ok this);
  Ok (remember key this).

(** [keys.forEach(f)], where [f] may throw. *)
Fixpoint forEach (f : EdenUser → string → result EdenUser) (this : EdenUser)
    (keys : list string) : result EdenUser :=
  match keys with
  | [] => Ok this
  | key :: keys' => this ← f this key; forEach f this keys'
  end.

(** [this.__update(user)]. *)
Definition __update (arg : update_arg) (this : EdenUser) : result EdenUser :=
  match arg with
  | Itself => Ok this                              (* user.__data is set *)
  | Payload VUndef =>
      Throw "TypeError: Cannot read property '__data' of undefined"
  | Payload VNull =>
      Throw "TypeError: Cannot read property '__data' of null"
  | Payload user =>
      if truthy (default VUndef (own_property user "__data")) then Ok this
      else
        let this := Build (__data this) (__fields this) (emitted this) true
                      (_events this) in
        if negb (truthy user) then Ok (clear this)
        else this ← forEach (update_key user) this (keys user);
             emit "update" [] this
  end.

(** [this.refresh()], given what [socket.call('user.refresh')] resolves to. *)
Definition refresh (answer : value) (this : Client.EdenUser) : result Client.EdenUser :=
  Client.__update (Client.Payload answer) this.

End Client.

(** ** The user of a view rendered on the server *)

Module Mixin.

(** [toMix.user] when the view is not rendered in the browser: the data of
    the user the page is rendered for. *)
Record user_view := View { __data : value }.

(** [{ __data : toMix.eden.get('user') || {} }]. *)
Definition build (user : value) : user_view :=
  View (if truthy user then user else VObj []).

(** [toMix.user.get(key, d)]. *)
Definition get (this : user_view) (key : string) (d : value) : value :=
  if String.eqb key "" then __data this
  else js_or (Client.dotProp_get (__data this) key VUndef) d.

(** [toMix.user.set(key, value)]. *)
Definition set (key : string) (x : value) (this : user_view) : user_view :=
  View (Client.dotProp_set (__data this) key x).

(** [toMix.user.exists()]. *)
Definition exists_ (this : user_view) : bool := false.

End Mixin.

(** ** Specification vocabulary *)

(** *** The display name *)

(** The display name as the specification words it: the candidates in order
    (explicit name, first and last, username, email), the first one that is
    not empty, trimmed.  [nonempty] is the reading of "non-empty": of the raw
    candidate, or of the candidate once trimmed; [sep] is what joins the first
    and the last name. *)
Definition name_candidates (sep : string) (u : user) : list string :=
  [ text (get u "name");
    text (get u "first") +:+ sep +:+ text (get u "last");
    text (get u "username");
    text (get u "email") ].

Definition spec_display_name (nonempty : string → bool) (sep : string) (u : user)
  : option string :=
  trim <$> head (List.filter nonempty (name_candidates sep u)).

Definition raw_nonempty (s : string) : bool := negb (String.eqb s "").
Definition trimmed_nonempty (s : string) : bool := negb (blank s).

(** The display fields hold text or are absent. *)
Definition textual (v : value) : bool :=
  match v with VStr _ | VUndef | VNull => true | _ => false end.

Definition display_fields_textual (u : user) : bool :=
  forallb (fun k => textual (get u k)) ["name"; "first"; "last"; "username"; "email"].

(** A field that is not empty and yet has no visible character. *)
Definition whitespace_only (v : value) : bool :=
  match v with VStr s => negb (String.eqb s "") && blank s | _ => false end.

(** *** Authentication *)

(** A string with the letter case taken out. *)
Definition string_canon (s : string) : list ascii :=
  map canonicalize (list_ascii_of_string s).

#[global] Instance value_is_str_dec (v : value) (s : string) :
  Decision (v = VStr s).
Proof.
  destruct v; try (right; discriminate).
  destruct (decide (s0 = s)); [left | right]; congruence.
Defined.

(** The stored digest is the keyed digest of the supplied password. *)
Definition password_ok `{Crypto} (cfg : config) (u : user) (password : string)
  : Prop :=
  get u "hash" = VStr (hmac_sha256_hex (secret cfg) password).

#[global] Instance password_ok_dec `{Crypto} cfg u password :
  Decision (password_ok cfg u password) := _.

(** The stored email is the given one, letter case apart. *)
Definition same_email (email : string) (u : user) : bool :=
  match get u "email" with
  | VStr e => bool_decide (string_canon e = string_canon email)
  | _ => false
  end.

Definition user_not_found : done_args :=
  Done VNull (VBool false)
    (Some [("user", VBool false); ("message", VStr "User not found")]).

Definition invalid_credential (u : user) (reason : string) : done_args :=
  Done VNull (VBool false)
    (Some [("user", VUser' u); ("message", VStr reason)]).

Definition authenticated (u : user) : done_args :=
  Done VNull (VUser' u) None.

(** *** sanitise *)

(** A value carries a digest or a token: it has, at some depth, an object, a
    user or a model instance with a property named [hash] or [token].  A
    model instance counts with what its own [sanitise()] answers. *)
Fixpoint carries_secret (v : value) : bool :=
  let inside (o : list (string * value)) :=
    prop_has "hash" o || prop_has "token" o
    || existsb (fun kx : string * value => carries_secret kx.2) o in
  match v with
  | VArr xs => existsb carries_secret xs
  | VObj o => inside o
  | VUser _ data => inside data
  | VModel data san => inside data || carries_secret san
  | _ => false
  end.

(** The stored values that [v.sanitise()] hands out as they are.  Of a user:
    the two timestamps and, under every configured field, the value when it
    is neither a sequence nor has a [sanitise] of its own, and the elements
    of a sequence that have none; then the same of the users found at those
    places, which are sanitised in turn.  Of an instance of another model
    class: what that class answers. *)
Definition elem_handed (handed : value → list value) (val : value) : list value :=
  if has_sanitise val then handed val else [val].

Definition field_handed (handed : value → list value) (x : value) : list value :=
  match x with
  | VArr vals => vals ≫= elem_handed handed
  | _ => elem_handed handed x
  end.

Fixpoint handed_out (cfg : config) (fuel : nat) (v : value) : list value :=
  match fuel with
  | O => []
  | S fuel' =>
      match v with
      | VUser id data =>
          let this := User id data in
          get this "created_at" :: get this "updated_at"
          :: (user_fields cfg ≫= fun f =>
                field_handed (handed_out cfg fuel') (get this (field_name f)))
      | VModel _ san => [san]
      | _ => []
      end
  end.

Definition User_handed_out (cfg : config) (u : user) : list value :=
  handed_out cfg (S (depth (VUser' u))) (VUser' u).

(** The value that ends up under a configured field, from the raw value of
    the field. *)
Definition field_value (call : value → result value) (x : value) : result value :=
  x ← (if truthy x && has_sanitise x then call x else Ok x);
  match x with
  | VArr vals =>
      if existsb is_nullish vals
      then Throw "TypeError: Cannot read property 'sanitise' of null"
      else VArr <$> rmap (fun val => if has_sanitise val then call val
                                     else Ok val) vals
  | _ => Ok x
  end.

(** An object carries neither the credential digest nor the reset token. *)
Definition no_secret_keys (o : props) : Prop :=
  prop_has "hash" o = false ∧ prop_has "token" o = false.

(** Where the raw value is a user, what is handed out is an object without
    those keys. *)
Definition public_view (raw out : value) : Prop :=
  match raw with
  | VUser _ _ => ∃ o, out = VObj o ∧ no_secret_keys o
  | _ => True
  end.

Definition public_field (raw out : value) : Prop :=
  match raw with
  | VUser _ _ => public_view raw out
  | VArr vals => ∃ outs, out = VArr outs ∧ Forall2 public_view vals outs
  | _ => True
  end.

Definition field_names (cfg : config) : list string :=
  field_name <$> user_fields cfg.

(** No configured field name is a path. *)
Definition plain_names (cfg : config) : bool :=
  forallb (fun f => negb (Client.includes_dot (field_name f))) (user_fields cfg).

(** *** Registration and password reset *)

(** The password of a form is long enough and confirmed. *)
Definition valid_password (body : props) : bool :=
  match prop_get "password" body with
  | VStr p => (5 <=? String.length (trim p))%nat
              && strict_eq_str (prop_get "passwordb" body) p
  | _ => false
  end.

(** A registration request passes the local validations. *)
Definition locally_valid (req : request) (d : database) : bool :=
  match prop_get "email" (body req) with
  | VStr e => (5 <=? String.length (trim e))%nat
              && negb (existsb (same_email e) (users d))
              && valid_password (body req)
  | _ => false
  end.

(** The candidate user handed to the [user.register] hook. *)
Definition candidate `{Crypto} (cfg : config) (req : request) : register_payload :=
  RegisterPayload
    (set "hash" (VStr (hmac_sha256_hex (secret cfg)
                         (text (prop_get "password" (body req)))))
       (set "email" (prop_get "email" (body req)) (User None [])))
    VUndef.

Definition emitted_events (t : list effect) : list string :=
  omap (fun e => match e with Emitted ev _ => Some ev | _ => None end) t.

(** *** The acl bootstrap *)

(** The records that a list of named policy records resolves to: for each
    entry, in order, the first stored record of that name, when there is one. *)
Definition resolve (d : database) (specs : list acl_spec) : list acl :=
  omap (fun spec => Acl_findOne (spec_name spec) d) specs.

(** The entries [_register] looks up, given how many users are stored. *)
Definition register_specs (cfg : config) (d : database) : list acl_spec :=
  if decide (User_count d = 0%nat) then acl_default cfg ++ acl_admin cfg
  else acl_default cfg.

(** What [_acl] creates, given the counts it took: one record for each entry
    whose count was zero. *)
Definition creates (d : database) (l : list (acl_spec * nat)) : database :=
  foldl (fun d' '(acl, check) =>
           if (check =? 0)%nat then create_acl acl d' else d') d l.

(** The stored data after [_acl]. *)
Definition bootstrap (cfg : config) (d : database) : database :=
  let acls := acl_default cfg ++ acl_admin cfg in
  creates d (zip acls (map (fun acl => Acl_count (spec_name acl) d) acls)).

(** The names of the entries whose count was zero. *)
Definition missing (l : list (acl_spec * nat)) : list string :=
  omap (fun x : acl_spec * nat =>
          if (x.2 =? 0)%nat then Some (spec_name x.1) else None) l.

(** The names of the records attached to each stored user. *)
Definition attached_names (d : database) : list (list value) :=
  (fun u => match get u "acl" with
            | VArr l => (fun a => match a with
                                  | VModel data _ => prop_get "name" data
                                  | _ => VUndef
                                  end) <$> l
            | _ => []
            end) <$> users d.

(** *** Listen and deafen *)

(** The session is registered on the entity under the token; its socket is
    in the room of the entity. *)
Definition registered (l : live) (id uuid : string) (opts : listen_opts) : Prop :=
  (id, opts_sessionID opts, uuid) ∈ listeners l.

Definition joined (l : live) (id : string) (opts : listen_opts) : Prop :=
  (opts_socket opts, "user." +:+ id) ∈ rooms l.

(** The two well-defined end states. *)
Definition settled (l : live) (id uuid : string) (opts : listen_opts) : Prop :=
  (registered l id uuid opts ∧ joined l id opts)
  ∨ (¬ registered l id uuid opts ∧ ¬ joined l id opts).

(** What kind of segment comes first in a schedule. *)
Inductive kind : Type := KJoin | KLeave | KAdd | KRemove.

#[global] Instance kind_eq_dec : EqDecision kind.
Proof. solve_decision. Defined.

Definition segment_kind (s : segment) : kind :=
  match s with
  | SocketJoin _ _ => KJoin
  | SocketLeave _ _ => KLeave
  | AddListener _ _ _ => KAdd
  | RemoveListener _ _ _ => KRemove
  end.

(** [a] occurs in the schedule, and [b] occurs later. *)
Fixpoint precedes (a b : kind) (ss : list segment) : bool :=
  match ss with
  | [] => false
  | s :: ss' =>
      if decide (segment_kind s = a) then bool_decide (b ∈ segment_kind <$> ss')
      else precedes a b ss'
  end.

(** *** The login form and the audit records *)

(** The address that [_login] records for a request. *)
Definition login_address (req : request) : value :=
  js_or (prop_get "x-forwarded-for" (headers req))
        (VStr (strip_to_last_colon (remoteAddress req))).

(** A string without a line terminator, and one without a colon. *)
Definition single_line (s : string) : bool :=
  forallb (fun c => negb (is_line_terminator c)) (list_ascii_of_string s).

Definition colon_free (s : string) : bool :=
  forallb (fun c => negb (Ascii.eqb c ":")) (list_ascii_of_string s).

(** *** Registration, continued *)

(** A value is a string. *)
Definition is_text (v : value) : bool :=
  match v with VStr _ => true | _ => false end.

(** A value that [sanitise] hands out without a failure: a primitive, or a
    sequence of instances of other model classes. *)
Definition flat (v : value) : Prop :=
  match v with
  | VUndef | VNull | VBool _ | VNum _ | VStr _ => True
  | VArr l => Forall (fun x => match x with VModel _ _ => True | _ => False end) l
  | _ => False
  end.

(** The user that a registration stores. *)
Definition registered_user `{Crypto} `{AclModel} (cfg : config) (d : database)
    (email password : string) : user :=
  User (Some (object_id (next_id d)))
    [ ("email", VStr email);
      ("hash", VStr (hmac_sha256_hex (secret cfg) password));
      ("acl", VArr (VAcl <$> resolve d (register_specs cfg d))) ].

(** *** Forgotten passwords *)



(** *** The store *)



(** *** The browser side *)

(** A key that names one property: not empty, without a dot, and none of
    the names that dot-prop refuses. *)
Definition simple_key (key : string) : bool :=
  negb (String.eqb key "") && negb (Client.includes_dot key)
  && negb (Client.disallowed key).

(** Two values that [__update] does not tell apart. *)
Definition same_json (a b : value) : Prop := Client.stringify a = Client.stringify b.

(** An event that [emit] lets through: any but [error], and [error] too
    when somebody listens to it. *)
Definition heard (this : Client.EdenUser) (event : string) : Prop :=
  event ≠ "error" ∨ "error" ∈ Client._events this.

(** *** sanitise, continued *)

(** The keys that [sanitise] always writes. *)
Definition base_keys : list string := ["id"; "_id"; "name"; "created_at"; "updated_at"].

(** What [sanitise] writes before it turns to the configured fields, for a
    user whose display name is [n]: the id (twice), [null] for a user that
    has none, the name and the two timestamps. *)
Definition base_object (u : user) (n : string) : props :=
  let id := match _id u with
            | Some i => if String.eqb i "" then VNull else VStr i
            | None => VNull
            end in
  [ ("id", id); ("_id", id); ("name", VStr n);
    ("created_at", get u "created_at"); ("updated_at", get u "updated_at") ].

(** *** The display name, continued *)

(** What [name] looks at first: the explicit name when there is one, else
    the first and the last name with a space between them. *)
Definition shown_name (u : user) : string :=
  if String.eqb (text (get u "name")) ""
  then text (get u "first") +:+ " " +:+ text (get u "last")
  else text (get u "name").

(** *** Password reset, continued *)

(** A reset request that [resetSubmitAction] carries out: its token is a
    string that some stored user holds, and its password is valid. *)
Definition reset_valid (req : request) (d : database) : bool :=
  match prop_get "token" (body req) with
  | VStr t =>
      negb (String.eqb t "")
      && existsb (fun u => strict_eq_str (get u "token") t) (users d)
      && valid_password (body req)
  | _ => false
  end.

(** *** Accounts and emails *)




(** ** Sample data *)

Definition padded_name : user :=
  User None [ ("name", VStr "  "); ("first", VStr "Ada"); ("last", VStr "Lovelace");
              ("username", VStr "ada"); ("email", VStr "ada@x.org") ].

Definition ada : user :=
  User (Some "1") [ ("first", VStr " Ada"); ("last", VStr "Lovelace ");
                    ("username", VStr "ada"); ("email", VStr "ada@x.org") ].

(** A user with a friend and a team, each with credentials of their own. *)
Definition grace : user :=
  User (Some "2") [ ("name", VStr "Grace"); ("hash", VStr "c0ffee");
                    ("token", VStr "t-grace") ].

Definition nested : user :=
  User (Some "1")
    [ ("name", VStr "Ada"); ("hash", VStr "deadbeef"); ("token", VStr "t-ada");
      ("friend", VUser' grace); ("team", VArr [VUser' grace; VStr "guest"]) ].

Definition nested_config : config :=
  Config "s3cr3t" [] [] [FieldSpec "friend"; FieldSpec "team"].

(** A user whose team is kept in shifts, a sequence of sequences, and whose
    friend is kept inside a plain object. *)
Definition shifts : user :=
  User (Some "3")
    [ ("name", VStr "Ada"); ("hash", VStr "deadbeef");
      ("friend", VObj [("mentor", VUser' grace)]);
      ("team", VArr [VArr [VUser' grace]]) ].

(** A pre-handler of [user.sanitise] that adds the digest. *)
Definition leaky : sanitise_hook := fun sanitised user =>
  prop_set "hash" (get user "hash") sanitised.

Definition sample_config : config :=
  Config "s3cr3t" [AclSpec "user" (VArr [VStr "profile"])]
    [AclSpec "admin" (VBool true)] [FieldSpec "email"].

(** A configuration that names the same record in both lists. *)
Definition repeated_name : config :=
  Config "s3cr3t" [AclSpec "admin" (VBool true)] [AclSpec "admin" (VBool true)] [].

(** An [Acl] class whose [sanitise()] hands out the name and the payload. *)
Definition plain_acl_model : AclModel := fun a =>
  VObj [("name", VStr (acl_name a)); ("value", acl_value a)].

(** Nothing stored, nobody logged in, nothing done yet. *)
Definition empty_database : database := Database [] [] [] 0.
Definition empty_world : world := World empty_database ∅ [].

(** The collections after a bootstrap with [sample_config]. *)
Definition seeded : database :=
  Database [] [ Acl (Some "0") "user" (VArr [VStr "profile"]);
                Acl (Some "1") "admin" (VBool true) ] [] 2.

Definition form (fields : props) : request :=
  Request fields [] None "session-1" [] "::ffff:10.0.0.7".

(** A stored user who asked for a password reset. *)
Definition forgetful : user :=
  User (Some "7")
    [ ("email", VStr "a@b.com");
      ("hash", VStr (hmac_sha256_hex "s3cr3t" "secret"));
      ("token", VStr "5f2b9c0d1e3a4b5c6d7e8f90") ].

Definition forgetful_world : world :=
  World (Database [forgetful] [] [] 8) ∅ [].

Definition reset_form (password : string) : request :=
  form [ ("token", VStr "5f2b9c0d1e3a4b5c6d7e8f90");
         ("password", VStr password); ("passwordb", VStr password) ].

Definition register_form' (email password : string) : request :=
  form [ ("email", VStr email); ("password", VStr password);
         ("passwordb", VStr password) ].

Definition register_form : request :=
  form [ ("email", VStr "c@d.com"); ("password", VStr "secret2");
         ("passwordb", VStr "secret2") ].



Definition no_live : live := Live ∅ ∅.

Definition tab : listen_opts := Opts "socket-1" (Some ada) "session-1".

Definition ada_world : database := Database [ada] [] [] 2.

(** A schedule in which the deafen call overtakes the listen call. *)
Definition racy : list segment :=
  [ SocketJoin "socket-1" "user.1"; SocketLeave "socket-1" "user.1";
    RemoveListener (Some ada) "listen-1" "session-1";
    AddListener (Some ada) "listen-1" "session-1" ].

(** The login form, filled in. *)
Definition login_form (email password : string) : request :=
  form [ ("email", VStr email); ("password", VStr password) ].

(** The next request of the session that [forgetful] logged in with. *)
Definition logout_request : request :=
  Request [] [] (Some forgetful) "session-1" [] "::ffff:10.0.0.7".

(** The forgot form, the twelve bytes of a token, and the link that the mail
    carries. *)
Definition forgot_form (email : string) : request := form [ ("email", VStr email) ].

Definition twelve_bytes : list Z := [1; 35; 69; 103; 137; 171; 205; 239; 16; 50; 84; 118].

Definition mailed_link : request :=
  Request [] [("token", VStr "0123456789abcdef10325476")] None "session-1" []
    "::ffff:10.0.0.7".




(** A store in the browser, and the view of the same user on the server. *)
Definition ada_store : Client.EdenUser :=
  Client.build (VObj [("_id", VStr "1"); ("credit", VNum 0)]).

Definition ada_view : Mixin.user_view :=
  Mixin.build (VObj [("_id", VStr "1"); ("credit", VNum 0)]).

Definition ada_payload : props := [("_id", VStr "1"); ("name", VStr "Ada")].

(** A user whose team has a hole. *)
Definition holey : user :=
  User (Some "4") [ ("email", VStr "h@x.org"); ("team", VArr [VStr "guest"; VNull]) ].

(** An acl helper that lists nothing. *)
Definition no_acls : user → value := fun _ => VArr [].

(** A stored user with the empty email. *)
Definition unreachable : user := User (Some "5") [ ("email", VStr "") ].

Definition unreachable_post : postal :=
  Postal (World (Database [unreachable] [] [] 6) ∅ []) [].

(* ===================================================================== *)
(** * Part II: properties                                                 *)
(* ===================================================================== *)

(** ** Strings and regular expressions *)

Lemma strict_eq_str_spec (v : value) (s : string) :
  strict_eq_str v s = true ↔ v = VStr s.
Proof.
  destruct v; simpl; try (split; [discriminate | congruence]).
  rewrite String.eqb_eq. split; congruence.
Qed.

Lemma strict_eq_str_decide (v : value) (s : string) :
  strict_eq_str v s = bool_decide (v = VStr s).
Proof.
  case_bool_decide as E.
  - by apply strict_eq_str_spec.
  - destruct (strict_eq_str v s) eqn:Hs; [|done].
    by apply strict_eq_str_spec in Hs.
Qed.

Lemma append_assoc (a b c : string) : (a +:+ b) +:+ c = a +:+ (b +:+ c).
Proof.
  induction a as [|x a IH]; [reflexivity|].
  change (String x ((a +:+ b) +:+ c) = String x (a +:+ (b +:+ c))).
  by rewrite IH.
Qed.

Lemma find_ext {A} (f g : A → bool) (l : list A) :
  (∀ x, f x = g x) → find f l = find g l.
Proof. intros E. induction l as [|x l IH]; simpl; [done|]. by rewrite E, IH. Qed.

(** An escaped character parses back to that one character, whatever it is. *)
Lemma parse_escape_char (c : ascii) (r : string) :
  parse_pattern (escape_char c +:+ r) = cons (Chr c) <$> parse_pattern r.
Proof.
  destruct c as [[] [] [] [] [] [] [] []]; reflexivity.
Qed.

Lemma parse_escapeRegex (s tail : string) :
  parse_pattern (escapeRegex s +:+ tail)
  = app (Chr <$> list_ascii_of_string s) <$> parse_pattern tail.
Proof.
  induction s as [|c s IH].
  - change (parse_pattern tail = app [] <$> parse_pattern tail).
    destruct (parse_pattern tail); reflexivity.
  - change (parse_pattern ((escape_char c +:+ escapeRegex s) +:+ tail)
            = app (Chr c :: (Chr <$> list_ascii_of_string s)) <$> parse_pattern tail).
    rewrite append_assoc, parse_escape_char, IH.
    destruct (parse_pattern tail); reflexivity.
Qed.

(** The pattern built from any string is well formed: the two anchors around
    the characters of the string, each taken literally. *)
Lemma exact_regexp_atoms (s : string) :
  exact_regexp s
  = Ok (RegExp (Bol :: (Chr <$> list_ascii_of_string s) ++ [Eol]) true).
Proof.
  unfold exact_regexp.
  change ("^" +:+ escapeRegex s +:+ "$")
    with (String "^" (escapeRegex s +:+ "$")).
  cbn [parse_pattern]. rewrite parse_escapeRegex. reflexivity.
Qed.

Lemma match_here_exact (s : string) (b : bool) (input : string) :
  match_here true ((Chr <$> list_ascii_of_string s) ++ [Eol]) b input
  = bool_decide (string_canon input = string_canon s).
Proof.
  revert b input. induction s as [|c s IH]; intros b input.
  - destruct input; reflexivity.
  - destruct input as [|d input].
    + reflexivity.
    + cbn [list_ascii_of_string fmap list_fmap app match_here].
      rewrite IH. unfold string_canon, char_eq. cbn [list_ascii_of_string map].
      destruct (Ascii.eqb_spec (canonicalize c) (canonicalize d)) as [E|E].
      * rewrite E. simpl. apply bool_decide_ext. split; intros; congruence.
      * simpl. symmetry. apply bool_decide_eq_false. congruence.
Qed.

Lemma match_from_bol (re : list atom) (input : string) :
  match_from true (Bol :: re) false input = false.
Proof. induction input; simpl; auto. Qed.

(** The expression accepts exactly the strings equal to [s] up to case. *)
Lemma regexp_test_exact (s input : string) (re : regexp) :
  exact_regexp s = Ok re →
  regexp_test re input = bool_decide (string_canon input = string_canon s).
Proof.
  rewrite exact_regexp_atoms. intros [= <-]. unfold regexp_test.
  simpl re_atoms. simpl re_ignoreCase.
  destruct input as [|d input]; cbn [match_from].
  - rewrite orb_false_r. cbn [match_here andb]. apply match_here_exact.
  - rewrite match_from_bol, orb_false_r. cbn [match_here andb].
    apply match_here_exact.
Qed.

Example metacharacters_are_literal :
  (re ← exact_regexp "a.b+c@x.org";
   Ok (regexp_test re "A.B+C@X.ORG", regexp_test re "aXb+c@x.org",
       regexp_test re "a.b+c@x.org.uk", regexp_test re "xa.b+c@x.org"))
  = Ok (true, false, false, false).
Proof. reflexivity. Qed.

(** ** Objects and documents *)

Lemma prop_get_set_eq (k : string) (v : value) (o : props) :
  prop_get k (prop_set k v o) = v.
Proof.
  induction o as [|[k' v'] o IH]; cbn [prop_set prop_get].
  - by rewrite String.eqb_refl.
  - destruct (String.eqb_spec k k') as [->|E]; cbn [prop_get].
    + by rewrite String.eqb_refl.
    + by destruct (String.eqb_spec k k').
Qed.

Lemma prop_get_set_ne (k k' : string) (v : value) (o : props) :
  k ≠ k' → prop_get k' (prop_set k v o) = prop_get k' o.
Proof.
  intros Hk. induction o as [|[k0 v0] o IH]; cbn [prop_set prop_get].
  - by destruct (String.eqb_spec k' k) as [->|].
  - destruct (String.eqb_spec k k0) as [->|E]; cbn [prop_get].
    + by destruct (String.eqb_spec k' k0) as [->|].
    + by rewrite IH.
Qed.

Lemma prop_set_set (k : string) (v v' : value) (o : props) :
  prop_set k v' (prop_set k v o) = prop_set k v' o.
Proof.
  induction o as [|[k0 v0] o IH]; cbn [prop_set].
  - by rewrite String.eqb_refl.
  - destruct (String.eqb_spec k k0) as [->|E]; cbn [prop_set].
    + by rewrite String.eqb_refl.
    + destruct (String.eqb_spec k k0); [done|]. by rewrite IH.
Qed.

Lemma prop_has_set (k k' : string) (v : value) (o : props) :
  prop_has k' (prop_set k v o) = String.eqb k' k || prop_has k' o.
Proof.
  induction o as [|[k0 v0] o IH]; cbn [prop_set prop_has].
  - by rewrite orb_false_r.
  - destruct (String.eqb_spec k k0) as [->|E]; cbn [prop_has].
    + by destruct (String.eqb k' k0).
    + rewrite IH. by destruct (String.eqb k' k0), (String.eqb k' k).
Qed.

Lemma prop_get_del_ne (k k' : string) (o : props) :
  k ≠ k' → prop_get k' (prop_del k o) = prop_get k' o.
Proof.
  intros Hk. induction o as [|[k0 v0] o IH]; cbn [prop_del prop_get]; [done|].
  destruct (String.eqb_spec k k0) as [->|E]; cbn [prop_get].
  - rewrite IH. by destruct (String.eqb_spec k' k0) as [->|].
  - by rewrite IH.
Qed.

Lemma get_set_eq (u : user) (k : string) (v : value) :
  k ≠ "_id" → get (set k v u) k = v.
Proof.
  intros Hk. unfold get, set. cbn [_id fields].
  destruct (String.eqb_spec k "_id"); [done|].
  induction (fields u) as [|[k' v'] o IH]; cbn [prop_set prop_get].
  - by rewrite String.eqb_refl.
  - destruct (String.eqb_spec k k') as [->|E]; cbn [prop_get].
    + by rewrite String.eqb_refl.
    + by destruct (String.eqb_spec k k').
Qed.

Lemma get_set_ne (u : user) (k k' : string) (v : value) :
  k ≠ k' → get (set k v u) k' = get u k'.
Proof.
  intros Hk. unfold get, set. cbn [_id fields].
  destruct (String.eqb k' "_id"); [done|].
  induction (fields u) as [|[k0 v0] o IH]; cbn [prop_set prop_get].
  - by destruct (String.eqb_spec k' k) as [->|].
  - destruct (String.eqb_spec k k0) as [->|E]; cbn [prop_get].
    + by destruct (String.eqb_spec k' k0) as [->|].
    + by rewrite IH.
Qed.

Lemma User_findById_id (id : string) (d : database) (u : user) :
  User_findById id d = Some u → _id u = Some id.
Proof.
  unfold User_findById. intros F. apply find_some in F as [_ F].
  by apply bool_decide_eq_true in F.
Qed.

Lemma find_replace_user (f : user → bool) (u u' : user) (l : list user) :
  find f l = Some u →
  NoDup (_id <$> l) →
  _id u' = _id u →
  f u' = true →
  find f (replace_user u' l) = Some u'.
Proof.
  intros F ND Hid Hf. induction l as [|v l IH]; [done|].
  cbn [find replace_user] in *. apply NoDup_cons in ND as [Hv ND].
  destruct (f v) eqn:Fv.
  - injection F as ->. rewrite Hid, bool_decide_eq_true_2 by done.
    cbn [find]. by rewrite Hf.
  - case_bool_decide as E.
    + exfalso. apply Hv. rewrite E, Hid.
      apply list_elem_of_fmap. exists u. split; [done|].
      apply find_some in F as [? _]. by apply list_elem_of_In.
    + cbn [find]. rewrite Fv. by apply IH.
Qed.

Lemma Acl_findOne_Some (name : string) (d : database) (a : acl) :
  Acl_findOne name d = Some a → a ∈ acls d ∧ acl_name a = name.
Proof.
  unfold Acl_findOne. intros F. apply find_some in F as [Hin E].
  split; [by apply list_elem_of_In | by apply String.eqb_eq].
Qed.

Lemma Acl_findOne_None (name : string) (d : database) :
  Acl_findOne name d = None ↔ ∀ a, a ∈ acls d → acl_name a ≠ name.
Proof.
  unfold Acl_findOne. split.
  - intros F a Hin E. apply list_elem_of_In in Hin.
    apply (find_none _ _ F) in Hin. apply String.eqb_neq in Hin. done.
  - intros Hno. induction (acls d) as [|a l IH]; [done|]. cbn [find].
    destruct (String.eqb_spec (acl_name a) name) as [E|E].
    + exfalso. eapply Hno; [left | done].
    + apply IH. intros b Hb. apply Hno. by right.
Qed.

Lemma Acl_count_pos (name : string) (d : database) :
  Acl_count name d ≠ 0%nat ↔ ∃ a, a ∈ acls d ∧ acl_name a = name.
Proof.
  unfold Acl_count. split.
  - destruct (filter _ _) as [|a l] eqn:E; [done|]. intros _.
    assert (a ∈ filter (λ a, acl_name a = name) (acls d)) as Ha
      by (rewrite E; left).
    apply list_elem_of_filter in Ha as []. eauto.
  - intros (a & Ha & En) E. apply length_zero_iff_nil in E.
    assert (a ∈ filter (λ a, acl_name a = name) (acls d)) as Hf
      by by apply list_elem_of_filter.
    rewrite E in Hf. by apply elem_of_nil in Hf.
Qed.

(** ** The keyed digest on test vectors *)

Example sha256_abc :
  SHA256.hex (SHA256.digest (SHA256.utf8 "abc"))
  = "ba7816bf8f01cfea414140de5dae2223b00361a396177a9cb410ff61f20015ad".
Proof. vm_compute. reflexivity. Qed.

Example hmac_sha256_fox :
  hmac_sha256_hex "key" "The quick brown fox jumps over the lazy dog"
  = "f7bc83f430538424b13298e6aa6fb143ef4d59a14946175997479dbc2d1a3cd8".
Proof. vm_compute. reflexivity. Qed.

(** A key longer than a block is hashed first; a code unit above U+007F
    takes two bytes. *)
Example hmac_sha256_long_key :
  hmac_sha256_hex
    "kkkkkkkkkkkkkkkkkkkkkkkkkkkkkkkkkkkkkkkkkkkkkkkkkkkkkkkkkkkkkkkkkkkkkk"
    (String "h" (String "233" "llo"))
  = "499df8a4fa30344584014f12448542badabf332c4b60d49bf7d2fbb4f3c0e7c2".
Proof. vm_compute. reflexivity. Qed.

(** ** Authentication *)

Section authentication.
Context `{Crypto} (cfg : config).

(** The method reads the stored digest, compares, and hands [this] back. *)
Lemma authenticate_run (u : user) (password : string) :
  authenticate cfg password u
  = Ok (if strict_eq_str (get u "hash") (hmac_sha256_hex (secret cfg) password)
        then VBool true else incorrect_password, u).
Proof.
  unfold authenticate, this_get, mbind, st_bind, mret, st_ret.
  by destruct (strict_eq_str _ _).
Qed.

(** C2.  [User.authenticate] answers [true] exactly when the keyed digest
    of the supplied password is the stored digest, and the typed failure
    [{info : 'Incorrect password', error : true}] otherwise; it does not
    throw, and the user is as it was. *)
Theorem authenticate_verdict (u : user) (password : string) :
  authenticate cfg password u
  = Ok (if decide (password_ok cfg u password) then VBool true
        else incorrect_password, u).
Proof.
  rewrite authenticate_run, strict_eq_str_decide. unfold password_ok.
  case_bool_decide as E; case_decide; done.
Qed.

Lemma email_matches_same (email : string) (re : regexp) (u : user) :
  exact_regexp email = Ok re → email_matches re u = same_email email u.
Proof.
  intros E. unfold email_matches, same_email.
  destruct (get u "email"); try reflexivity.
  by apply regexp_test_exact.
Qed.

(** C1.  [_authenticate] resolves the first stored user whose email is the
    given one up to letter case (the characters of the input taken
    literally).  Without such a user it answers "User not found", and only
    then; with one and a wrong password it answers with the verifier's
    "Incorrect password" and that user; with the right password it hands
    the user over. *)
Theorem _authenticate_outcome (email password : string) (d : database) :
  _authenticate cfg email password d
  = Ok match find (same_email email) (users d) with
       | None => user_not_found
       | Some u =>
           if decide (password_ok cfg u password) then authenticated u
           else invalid_credential u "Incorrect password"
       end
  ∧ (_authenticate cfg email password d = Ok user_not_found
     ↔ ∀ u, u ∈ users d → same_email email u = false).
Proof.
  assert (_authenticate cfg email password d
          = Ok match find (same_email email) (users d) with
               | None => user_not_found
               | Some u =>
                   if decide (password_ok cfg u password) then authenticated u
                   else invalid_credential u "Incorrect password"
               end) as Hrun.
  { unfold _authenticate. rewrite exact_regexp_atoms. cbn [mbind result_bind].
    unfold User_findOne_email.
    rewrite (find_ext _ (same_email email)).
    2:{ intros u. apply email_matches_same, exact_regexp_atoms. }
    destruct (find _ _) as [u|]; [|reflexivity].
    rewrite authenticate_run, strict_eq_str_decide. unfold password_ok.
    cbn [mbind result_bind]. case_bool_decide as E; case_decide; done. }
  split; [exact Hrun|]. rewrite Hrun.
  destruct (find _ _) as [u|] eqn:F.
  - apply find_some in F as [Hin Hu]. split.
    + case_decide; discriminate.
    + intros Hno. apply list_elem_of_In, Hno in Hin. congruence.
  - split; [|done]. intros _ u Hin.
    apply list_elem_of_In in Hin.
    exact (find_none _ _ F _ Hin).
Qed.
End authentication.

Lemma _authenticate_outcome_witness :
  _authenticate sample_config "A@b.COM" "secret" (db forgetful_world)
  = Ok (authenticated forgetful)
  ∧ _authenticate sample_config "a@b.com" "wrong" (db forgetful_world)
    = Ok (invalid_credential forgetful "Incorrect password")
  ∧ _authenticate sample_config "a@b.co" "secret" (db forgetful_world)
    = Ok user_not_found.
Proof.
  split; [|split].
  - by rewrite (proj1 (_authenticate_outcome sample_config "A@b.COM" "secret"
                         (db forgetful_world))).
  - by rewrite (proj1 (_authenticate_outcome sample_config "a@b.com" "wrong"
                         (db forgetful_world))).
  - apply (_authenticate_outcome sample_config "a@b.co" "secret"
             (db forgetful_world)).
    intros u [->|[]%elem_of_nil]%elem_of_cons. reflexivity.
Defined.

Example authenticate_secret :
  authenticate sample_config "secret" forgetful = Ok (VBool true, forgetful)
  ∧ authenticate sample_config "Secret" forgetful
    = Ok (incorrect_password, forgetful).
Proof. split; vm_compute; reflexivity. Qed.

(** ** The display name *)

Example name_explicit :
  name (User None [("name", VStr " Ada Lovelace "); ("email", VStr "ada@x.org")])
  = Ok "Ada Lovelace".
Proof. reflexivity. Qed.

Example name_first_last :
  name (User None [("first", VStr "Ada"); ("last", VStr "Lovelace")])
  = Ok "Ada Lovelace".
Proof. reflexivity. Qed.

Example name_nothing :
  name (User None []) = Throw "TypeError: Cannot read property 'trim' of undefined".
Proof. reflexivity. Qed.

(** C9, as stated, fails: an explicit name made of white space only makes
    [name] skip the first and last names and answer the username, whichever
    way "non-empty" and the concatenation are read. *)
Lemma name_skips_first_last :
  name padded_name = Ok "ada"
  ∧ spec_display_name trimmed_nonempty " " padded_name = Some "Ada Lovelace"
  ∧ spec_display_name trimmed_nonempty "" padded_name = Some "AdaLovelace"
  ∧ spec_display_name raw_nonempty " " padded_name = Some ""
  ∧ spec_display_name raw_nonempty "" padded_name = Some "".
Proof. repeat split; reflexivity. Qed.

Lemma js_or_text v : textual v = true →
  to_string (js_or v (VStr "")) = text v.
Proof.
  destruct v; simpl; try discriminate; try reflexivity.
  unfold js_or. simpl. destruct (String.eqb_spec s ""); simpl; congruence.
Qed.

Lemma blank_empty : blank "" = true.
Proof. reflexivity. Qed.

Lemma truthy_str (s : string) : truthy (VStr s) = negb (String.eqb s "").
Proof. reflexivity. Qed.

Lemma not_blank_nonempty (s : string) : blank s = false → String.eqb s "" = false.
Proof. destruct s; [discriminate | reflexivity]. Qed.

(** The first candidate that is not blank once trimmed. *)
Lemma head_filter_cons (c : string) (l : list string) :
  head (List.filter trimmed_nonempty (c :: l))
  = if blank c then head (List.filter trimmed_nonempty l) else Some c.
Proof. cbn [List.filter]. unfold trimmed_nonempty at 1. by destruct (blank c). Qed.

Lemma textual_cases (v : value) :
  textual v = true →
  whitespace_only v = false →
  (∃ t, v = VStr t ∧ blank t = false) ∨ (truthy v = false ∧ text v = "").
Proof.
  destruct v; simpl; try discriminate; auto.
  intros _. destruct (String.eqb_spec s "") as [->|]; simpl; eauto.
Qed.

Lemma js_or_falsy (a b : value) : truthy a = false → js_or a b = b.
Proof. unfold js_or. by intros ->. Qed.

Lemma js_or_str (t : string) (b : value) : blank t = false → js_or (VStr t) b = VStr t.
Proof.
  intros B. unfold js_or. by rewrite truthy_str, (not_blank_nonempty _ B).
Qed.

(** What [name] does with a string in hand. *)
Lemma name_of_str (u : user) (t : string) :
  js_or (get u "name")
    (VStr (to_string (js_or (get u "first") (VStr "")) +:+ " "
           +:+ to_string (js_or (get u "last") (VStr "")))) = VStr t →
  name u = if blank t then call_trim (js_or (get u "username") (get u "email"))
           else Ok (trim t).
Proof.
  intros E. unfold name. rewrite E. cbn [call_trim mbind result_bind].
  fold (blank t). by destruct (blank t).
Qed.

(** C9, amended.  When the explicit name and the username are each absent,
    empty, or carry a visible character, [name] answers the first candidate
    that is not blank, trimmed, in the order: explicit name, first and last
    name joined by a space, username, email. *)
Theorem name_first_nonblank (u : user) (s : string) :
  display_fields_textual u = true →
  whitespace_only (get u "name") = false →
  whitespace_only (get u "username") = false →
  spec_display_name trimmed_nonempty " " u = Some s →
  name u = Ok s.
Proof.
  unfold display_fields_textual. cbn [forallb].
  rewrite !andb_true_iff. intros (Tn & Tf & Tl & Tu & Te & _) Wn Wu.
  unfold spec_display_name, name_candidates.
  rewrite !head_filter_cons.
  destruct (textual_cases _ Tn Wn) as [(n & En & Bn)|[Fn Xn]].
  { (* the explicit name shows *)
    rewrite En. cbn [text]. rewrite Bn. intros [= <-].
    rewrite (name_of_str u n), Bn; [done|].
    rewrite En. by apply js_or_str. }
  rewrite Xn, blank_empty.
  set (fl := text (get u "first") +:+ " " +:+ text (get u "last")).
  rewrite (name_of_str u fl).
  2:{ rewrite js_or_falsy by done. by rewrite !js_or_text. }
  destruct (blank fl); [|by intros [= <-]].
  destruct (textual_cases _ Tu Wu) as [(n & En & Bu)|[Fu Xu]].
  { rewrite En. cbn [text]. rewrite Bu. intros [= <-].
    by rewrite js_or_str. }
  rewrite Xu, blank_empty, js_or_falsy by done.
  destruct (get u "email"); try discriminate Te; cbn [text];
    rewrite ?blank_empty; try discriminate.
  cbn [head List.filter]. destruct (blank s0); [discriminate|].
  intros [= <-]. reflexivity.
Qed.

Lemma name_first_nonblank_witness : name ada = Ok "Ada Lovelace".
Proof. apply name_first_nonblank; reflexivity. Defined.

(** ** sanitise *)

(** *** What [sanitise] stores under a field *)

Lemma sanitise_field_value (call : value → result value) (this : user)
    (s : props) (f : field_spec) :
  sanitise_field call this s f
  = v ← field_value call (get this (field_name f)); Ok (prop_set (field_name f) v s).
Proof.
  unfold sanitise_field, field_value. rewrite prop_get_set_eq.
  destruct (if truthy _ && has_sanitise _ then _ else _) as [x| |];
    cbn [mbind result_bind]; [|done..].
  rewrite prop_get_set_eq, prop_set_set.
  destruct x; cbn [mbind result_bind]; rewrite ?prop_set_set; try done.
  destruct (existsb is_nullish xs); [done|].
  destruct (rmap _ xs); cbn; rewrite ?prop_set_set; done.
Qed.

Lemma sanitise_fields_has (call : value → result value) (this : user)
    (fs : list field_spec) (s out : props) (k : string) :
  sanitise_fields call this s fs = Ok out →
  k ∉ field_name <$> fs →
  prop_has k out = prop_has k s ∧ prop_get k out = prop_get k s.
Proof.
  revert s. induction fs as [|f fs IH]; intros s; cbn [sanitise_fields].
  - by intros [= ->].
  - rewrite sanitise_field_value. intros Hrun Hk.
    apply not_elem_of_cons in Hk as [Hf Hk].
    destruct (field_value call _) as [v| |]; try discriminate Hrun.
    cbn [mbind result_bind] in Hrun. destruct (IH _ Hrun Hk) as [-> ->].
    rewrite prop_has_set, prop_get_set_ne by done.
    by destruct (String.eqb_spec k (field_name f)).
Qed.

Lemma sanitise_fields_lookup (call : value → result value) (this : user)
    (fs : list field_spec) (s out : props) (f : field_spec) :
  sanitise_fields call this s fs = Ok out →
  f ∈ fs →
  field_value call (get this (field_name f)) = Ok (prop_get (field_name f) out).
Proof.
  revert s f. induction fs as [|f0 fs IH]; intros s f; cbn [sanitise_fields].
  - intros _ []%elem_of_nil.
  - rewrite sanitise_field_value. intros Hrun Hf.
    destruct (field_value call (get this (field_name f0))) as [v| |] eqn:Hv;
      try discriminate Hrun.
    cbn [mbind result_bind] in Hrun.
    destruct (decide (field_name f ∈ field_name <$> fs)) as [Hin|Hout].
    + apply list_elem_of_fmap in Hin as (f' & Hn & Hin).
      rewrite Hn. by apply (IH _ _ Hrun).
    + apply elem_of_cons in Hf as [->|Hf].
      * destruct (sanitise_fields_has _ _ _ _ _ _ Hrun Hout) as [_ ->].
        by rewrite prop_get_set_eq.
      * exfalso. apply Hout, list_elem_of_fmap. eauto.
Qed.

(** *** The credentials stay inside *)

Section sanitise_facts.
Context (cfg : config).
Hypothesis no_hash : "hash" ∉ field_names cfg.
Hypothesis no_token : "token" ∉ field_names cfg.

(** Whatever the nested values answer, the object carries no key for the
    digest or the token. *)
Lemma sanitise_with_keys (call : value → result value) (u : user) (out : props) :
  sanitise_with cfg [] call u = Ok out → no_secret_keys out.
Proof.
  unfold sanitise_with. destruct (name u) as [n| |]; try done.
  cbn [mbind result_bind foldl].
  destruct (sanitise_fields _ _ _ _) as [s| |] eqn:Hs; try done.
  cbn [mbind result_bind]. intros [= <-]. split.
  - by destruct (sanitise_fields_has _ _ _ _ _ "hash" Hs no_hash) as [-> _].
  - by destruct (sanitise_fields_has _ _ _ _ _ "token" Hs no_token) as [-> _].
Qed.

Lemma call_sanitise_user (fuel : nat) (id : option string) (data : props)
    (out : value) :
  call_sanitise cfg [] fuel (VUser id data) = Ok out →
  ∃ o, out = VObj o ∧ no_secret_keys o.
Proof.
  destruct fuel as [|fuel]; [done|]. cbn [call_sanitise].
  destruct (sanitise_with _ _ _ _) as [o| |] eqn:Ho; try done.
  intros [= <-]. exists o. split; [done|]. by eapply sanitise_with_keys.
Qed.

Lemma rmap_Forall2 {A B} (g : A → result B) (l : list A) (outs : list B) :
  rmap g l = Ok outs → Forall2 (fun a b => g a = Ok b) l outs.
Proof.
  revert outs. induction l as [|a l IH]; intros outs; cbn [rmap].
  - intros [= <-]. constructor.
  - destruct (g a) as [b| |] eqn:Hb; try done. cbn [mbind result_bind].
    destruct (rmap g l) as [bs| |]; try done. cbn [mbind result_bind].
    intros [= <-]. constructor; auto.
Qed.

Lemma field_value_public (fuel : nat) (x out : value) :
  field_value (call_sanitise cfg [] fuel) x = Ok out → public_field x out.
Proof.
  unfold field_value. destruct x as [| | | | |vals| |id data|]; try done.
  - (* a sequence *)
    cbn [truthy has_sanitise andb mbind result_bind].
    destruct (existsb is_nullish vals); [done|].
    destruct (rmap _ vals) as [outs| |] eqn:Houts; try done.
    intros [= <-]. exists outs. split; [done|].
    apply rmap_Forall2 in Houts. eapply Forall2_impl; [exact Houts|].
    intros val o. destruct val; try done. cbn [has_sanitise public_view].
    apply call_sanitise_user.
  - (* a user *)
    cbn [truthy has_sanitise andb].
    destruct (call_sanitise cfg [] fuel (VUser id data)) as [o| |] eqn:Ho;
      try done.
    apply call_sanitise_user in Ho as (o' & -> & Hk).
    cbn [mbind result_bind]. intros [= <-]. exists o'. done.
Qed.

Lemma sanitise_public_fields (fuel : nat) (u : user) (out : props) (f : field_spec) :
  sanitise cfg [] fuel u = Ok out →
  f ∈ user_fields cfg →
  public_field (get u (field_name f)) (prop_get (field_name f) out).
Proof.
  unfold sanitise, sanitise_with. destruct (name u) as [n| |]; try done.
  cbn [mbind result_bind foldl].
  destruct (sanitise_fields _ _ _ _) as [s| |] eqn:Hs; try done.
  cbn [mbind result_bind]. intros [= <-] Hf.
  eapply field_value_public, sanitise_fields_lookup; done.
Qed.

End sanitise_facts.

(** *** What is handed out as stored *)

Lemma existsb_false_Forall {A} (f : A → bool) (l : list A) :
  existsb f l = false ↔ Forall (fun x => f x = false) l.
Proof.
  induction l as [|x l IH]; cbn [existsb]; [by split|].
  rewrite orb_false_iff, IH, Forall_cons. done.
Qed.

Lemma prop_get_clean (k : string) (o : props) :
  existsb (fun kx : string * value => carries_secret kx.2) o = false →
  carries_secret (prop_get k o) = false.
Proof.
  induction o as [|[k' v] o IH]; cbn [existsb prop_get snd]; [done|].
  intros [Hv Ho]%orb_false_iff. destruct (String.eqb k k'); auto.
Qed.

Lemma get_clean (id : option string) (data : props) (k : string) :
  carries_secret (VUser id data) = false →
  carries_secret (get (User id data) k) = false.
Proof.
  cbn [carries_secret]. intros [_ Hin]%orb_false_iff. unfold get. cbn [_id fields].
  destruct (String.eqb k "_id"); [by destruct id | by apply prop_get_clean].
Qed.

Lemma prop_set_clean (k : string) (v : value) (o : props) :
  carries_secret v = false →
  existsb (fun kx : string * value => carries_secret kx.2) o = false →
  existsb (fun kx : string * value => carries_secret kx.2) (prop_set k v o) = false.
Proof.
  intros Hv. induction o as [|[k' v'] o IH]; cbn [existsb prop_set snd].
  - by rewrite Hv.
  - intros [Hv' Ho]%orb_false_iff. destruct (String.eqb k k'); cbn [existsb snd].
    + by rewrite Hv, Ho.
    + by rewrite Hv', IH.
Qed.

Lemma has_sanitise_truthy (x : value) : truthy x && has_sanitise x = has_sanitise x.
Proof. destruct x; cbn [truthy has_sanitise andb]; by rewrite ?andb_false_r. Qed.

Section handed.
Context (call : value → result value) (handed : value → list value).
Hypothesis call_clean :
  ∀ w out, call w = Ok out →
           Forall (fun x => carries_secret x = false) (handed w) →
           carries_secret out = false.
Hypothesis handed_clean :
  ∀ w, carries_secret w = false →
       Forall (fun x => carries_secret x = false) (handed w).

Lemma elem_value_clean (val out : value) :
  (if has_sanitise val then call val else Ok val) = Ok out →
  Forall (fun x => carries_secret x = false) (elem_handed handed val) →
  carries_secret out = false.
Proof.
  unfold elem_handed. destruct (has_sanitise val); [apply call_clean|].
  intros [= <-] Hval. by apply Forall_inv in Hval.
Qed.

Lemma elems_clean (vals outs : list value) :
  rmap (fun val => if has_sanitise val then call val else Ok val) vals = Ok outs →
  Forall (fun x => carries_secret x = false) (vals ≫= elem_handed handed) →
  existsb carries_secret outs = false.
Proof.
  revert outs. induction vals as [|val vals IH]; intros outs; cbn [rmap].
  - by intros [= <-].
  - destruct (if has_sanitise val then call val else Ok val) as [o| |] eqn:Ho;
      try done. cbn [mbind result_bind].
    destruct (rmap _ vals) as [os| |]; try done. cbn [mbind result_bind].
    intros [= <-]. rewrite bind_cons. intros [Hval Hvals]%Forall_app.
    cbn [existsb]. by rewrite (elem_value_clean _ _ Ho Hval), IH.
Qed.

(** What is made of a value that carries none carries none. *)
Lemma settled_clean (x out : value) :
  carries_secret x = false →
  match x with
  | VArr vals =>
      if existsb is_nullish vals
      then Throw "TypeError: Cannot read property 'sanitise' of null"
      else VArr <$> rmap (fun val => if has_sanitise val then call val
                                     else Ok val) vals
  | _ => Ok x
  end = Ok out →
  carries_secret out = false.
Proof.
  intros Hx. destruct x as [| | | | |vals| | |]; try by intros [= <-].
  destruct (existsb is_nullish vals); [done|].
  destruct (rmap _ vals) as [outs| |] eqn:Houts; try done. intros [= <-].
  cbn [carries_secret]. apply (elems_clean _ _ Houts).
  cbn [carries_secret] in Hx. apply existsb_false_Forall in Hx.
  apply Forall_forall. intros x (val & Hx' & Hval)%list_elem_of_bind.
  eapply Forall_forall in Hx; [|exact Hval].
  unfold elem_handed in Hx'. destruct (has_sanitise val).
  - exact (proj1 (Forall_forall _ _) (handed_clean val Hx) x Hx').
  - by apply list_elem_of_singleton in Hx' as ->.
Qed.

Lemma field_value_clean (x out : value) :
  field_value call x = Ok out →
  Forall (fun x => carries_secret x = false) (field_handed handed x) →
  carries_secret out = false.
Proof.
  unfold field_value. rewrite has_sanitise_truthy.
  assert ((∃ vals, x = VArr vals) ∨ ¬ ∃ vals, x = VArr vals) as [[vals ->]|Hseq].
  { destruct x; eauto; right; by intros [? [=]]. }
  - cbn [has_sanitise mbind result_bind field_handed].
    destruct (existsb is_nullish vals); [done|].
    destruct (rmap _ vals) as [outs| |] eqn:Houts; try done. intros [= <-].
    cbn [carries_secret]. by apply elems_clean.
  - assert (field_handed handed x = elem_handed handed x) as ->.
    { destruct x; try done. exfalso. eauto. }
    destruct (if has_sanitise x then call x else Ok x) as [x1| |] eqn:Hx1;
      try done. cbn [mbind result_bind]. intros Hout Hx.
    apply (settled_clean x1); [|done]. by apply (elem_value_clean x).
Qed.
End handed.

Lemma sanitise_fields_clean (call : value → result value) (u : user)
    (fs : list field_spec) (s out : props) :
  sanitise_fields call u s fs = Ok out →
  existsb (fun kx : string * value => carries_secret kx.2) s = false →
  (∀ f y, f ∈ fs → field_value call (get u (field_name f)) = Ok y →
          carries_secret y = false) →
  existsb (fun kx : string * value => carries_secret kx.2) out = false.
Proof.
  revert s. induction fs as [|f fs IH]; intros s; cbn [sanitise_fields].
  - by intros [= <-].
  - rewrite sanitise_field_value.
    destruct (field_value call _) as [y| |] eqn:Hy; try done.
    cbn [mbind result_bind]. intros Hrun Hs Hfs. apply (IH _ Hrun).
    + apply prop_set_clean; [|done]. apply (Hfs f); [by left | done].
    + intros f' y' Hf'. apply Hfs. by right.
Qed.

Section sanitise_deep.
Context (cfg : config).
Hypothesis no_hash : "hash" ∉ field_names cfg.
Hypothesis no_token : "token" ∉ field_names cfg.

Lemma handed_out_clean (fuel : nat) (v : value) :
  carries_secret v = false →
  Forall (fun x => carries_secret x = false) (handed_out cfg fuel v).
Proof.
  revert v. induction fuel as [|fuel IH]; intros v Hv; [constructor|].
  destruct v as [| | | | | | |id data|data san]; cbn [handed_out];
    try (by constructor).
  - do 2 (constructor; [by apply get_clean|]).
    apply Forall_forall. intros x (f & Hx & _)%list_elem_of_bind.
    pose proof (get_clean id data (field_name f) Hv) as Hf.
    destruct (get (User id data) (field_name f)) as [| | | | |vals| | |] eqn:E;
      cbn [field_handed] in Hx.
    6:{ apply list_elem_of_bind in Hx as (val & Hx & Hval).
        cbn [carries_secret] in Hf. apply existsb_false_Forall in Hf.
        eapply Forall_forall in Hf; [|exact Hval].
        unfold elem_handed in Hx. destruct (has_sanitise val).
        - exact (proj1 (Forall_forall _ _) (IH val Hf) x Hx).
        - by apply list_elem_of_singleton in Hx as ->. }
    all: unfold elem_handed in Hx;
      match type of Hx with
      | _ ∈ (if ?b then _ else _) => destruct b
      end;
      try (by apply list_elem_of_singleton in Hx as ->);
      exact (proj1 (Forall_forall _ _) (IH _ Hf) x Hx).
  - constructor; [|constructor].
    cbn [carries_secret] in Hv. by apply orb_false_iff in Hv as [_ ?].
Qed.

(** What [v.sanitise()] answers carries a digest or a token only if one of
    the stored values that it hands out carries one. *)
Lemma call_sanitise_clean (fuel : nat) (v out : value) :
  call_sanitise cfg [] fuel v = Ok out →
  Forall (fun x => carries_secret x = false) (handed_out cfg fuel v) →
  carries_secret out = false.
Proof.
  revert v out. induction fuel as [|fuel IH]; intros v out; [done|].
  destruct v as [| | | | | | |id data|data san]; try done.
  - cbn [call_sanitise handed_out].
    destruct (sanitise_with _ _ _ _) as [o| |] eqn:Ho; try done.
    intros [= <-] (Hc & (Hu & Hfs)%Forall_cons)%Forall_cons.
    cbn [carries_secret].
    destruct (sanitise_with_keys cfg no_hash no_token _ _ _ Ho) as [-> ->].
    cbn [orb]. revert Ho. unfold sanitise_with.
    destruct (name _) as [n| |]; try done. cbn [mbind result_bind foldl].
    destruct (sanitise_fields _ _ _ _) as [s| |] eqn:Hs; try done.
    intros [= <-]. apply (sanitise_fields_clean _ _ _ _ _ Hs).
    + cbn [existsb snd]. rewrite Hc, Hu.
      by destruct (truthy (get (User id data) "_id")).
    + intros f y Hf Hy.
      apply (field_value_clean _ (handed_out cfg fuel) IH (handed_out_clean fuel)
               _ _ Hy).
      apply Forall_forall. intros x Hx.
      apply (proj1 (Forall_forall _ _) Hfs x).
      apply list_elem_of_bind. eauto.
  - cbn [call_sanitise handed_out]. intros [= <-] Hsan.
    by apply Forall_inv in Hsan.
Qed.

(** C4, amended.  When the configured public fields name neither [hash] nor
    [token] and none of the names is a path, and with no pre-handler on
    [user.sanitise]: the object that [sanitise] returns has no [hash] and no
    [token] key; under a configured field that holds a user, and in a
    configured sequence at every place that holds a user, it has an object
    without those keys; and it carries [hash] or [token] under no key at any
    depth, unless one of the stored values that it hands out as they are
    carries one. *)
Theorem sanitise_hides_credentials (u : user) (out : props) :
  plain_names cfg = true →
  User_sanitise cfg [] u = Ok out →
  no_secret_keys out
  ∧ (∀ f, f ∈ user_fields cfg →
          public_field (get u (field_name f)) (prop_get (field_name f) out))
  ∧ (Forall (fun x => carries_secret x = false) (User_handed_out cfg u) →
     carries_secret (VObj out) = false).
Proof.
  intros _ Hout. split; [|split].
  - by eapply sanitise_with_keys.
  - intros f Hf. by eapply sanitise_public_fields.
  - intros Hraw. apply (call_sanitise_clean (S (depth (VUser' u))) (VUser' u)).
    + unfold User_sanitise, sanitise in Hout. cbn [call_sanitise VUser'].
      destruct u as [id data]. cbn [_id fields]. by rewrite Hout.
    + exact Hraw.
Qed.
End sanitise_deep.

Lemma sanitise_hides_credentials_witness :
  ∃ out, User_sanitise nested_config [] nested = Ok out
         ∧ carries_secret (VUser' nested) = true
         ∧ carries_secret (VObj out) = false.
Proof.
  eexists. split; [reflexivity|]. split; [reflexivity|].
  refine (proj2 (proj2 (sanitise_hides_credentials nested_config _ _ nested _
                          eq_refl eq_refl)) _).
  - unfold field_names. cbn. intros Hin.
    repeat (apply elem_of_cons in Hin as [Hin|Hin]; [discriminate|]).
    by apply elem_of_nil in Hin.
  - unfold field_names. cbn. intros Hin.
    repeat (apply elem_of_cons in Hin as [Hin|Hin]; [discriminate|]).
    by apply elem_of_nil in Hin.
  - repeat constructor.
Defined.

(** C4 as stated fails: a user inside a sequence of sequences, or inside a
    plain object, is handed out as stored, with its digest and its token;
    and a pre-handler of [user.sanitise] can add what it likes. *)
Lemma sanitise_exposes_nested :
  ("hash" ∉ field_names nested_config)
  ∧ ("token" ∉ field_names nested_config)
  ∧ (∃ out, User_sanitise nested_config [] shifts = Ok out
            ∧ prop_get "team" out = VArr [VArr [VUser' grace]]
            ∧ prop_get "friend" out = VObj [("mentor", VUser' grace)]
            ∧ carries_secret (VObj out) = true)
  ∧ (∃ out, User_sanitise nested_config [leaky] nested = Ok out
            ∧ prop_get "hash" out = VStr "deadbeef").
Proof.
  assert (∀ k, k ≠ "friend" → k ≠ "team" → k ∉ field_names nested_config) as Hk.
  { intros k ? ? Hin. unfold field_names in Hin. cbn in Hin.
    repeat (apply elem_of_cons in Hin as [Hin|Hin]; [done|]).
    by apply elem_of_nil in Hin. }
  split; [by apply Hk|]. split; [by apply Hk|].
  split; eexists; (split; [reflexivity|]); repeat split.
Qed.

(** The proviso matters, and so does the nesting: a configured [hash] field
    is handed out, and a user two sequences deep has no [sanitise] called. *)
Example sanitise_provisos :
  (o ← User_sanitise (Config "s3cr3t" [] [] [FieldSpec "hash"; FieldSpec "team"]) []
         (User (Some "1") [ ("email", VStr "ada@x.org"); ("hash", VStr "deadbeef");
                            ("team", VArr [VArr [VUser' grace]]) ]);
   Ok (prop_get "hash" o, prop_get "team" o))
  = Ok (VStr "deadbeef", VArr [VArr [VUser' grace]]).
Proof. reflexivity. Qed.

(** *** Enough fuel *)

Lemma depth_prop_get (k : string) (data : props) :
  (depth (prop_get k data) ≤ foldr (fun kx d => Nat.max (depth kx.2) d) O data)%nat.
Proof.
  induction data as [|[k' v] data IH]; cbn [prop_get foldr snd]; [done|].
  destruct (String.eqb k k'); lia.
Qed.

Lemma depth_elem (val : value) (vals : list value) :
  val ∈ vals → (depth val ≤ depth (VArr vals))%nat.
Proof.
  cbn [depth]. induction vals as [|v vals IH]; cbn [foldr].
  - intros []%elem_of_nil.
  - intros [->|Hin]%elem_of_cons; [lia|]. specialize (IH Hin). lia.
Qed.

Lemma get_depth (u : user) (k : string) : (depth (get u k) < depth (VUser' u))%nat.
Proof.
  unfold get, VUser'. cbn [depth]. destruct (String.eqb k "_id").
  - destruct (_id u); cbn; lia.
  - pose proof (depth_prop_get k (fields u)). lia.
Qed.

Lemma call_trim_returns (v : value) : call_trim v ≠ Timeout.
Proof. by destruct v. Qed.

Lemma name_returns (u : user) : name u ≠ Timeout.
Proof.
  unfold name. destruct (call_trim _) as [t| |] eqn:E; cbn [mbind result_bind];
    try done.
  - destruct (String.length t =? 0)%nat; [apply call_trim_returns|].
    by rewrite E.
  - by apply call_trim_returns in E.
Qed.

Lemma rmap_returns {A B} (g : A → result B) (l : list A) :
  (∀ a, a ∈ l → g a ≠ Timeout) → rmap g l ≠ Timeout.
Proof.
  induction l as [|a l IH]; intros Hg; cbn [rmap]; [done|].
  destruct (g a) eqn:Ha; cbn [mbind result_bind]; try done.
  - destruct (rmap g l) eqn:Hl; cbn [mbind result_bind]; try done.
    apply IH. intros b Hb. apply Hg. by right.
  - exfalso. by apply (Hg a); [left|].
Qed.

Section fuel.
Context (cfg : config) (hooks : list sanitise_hook).

Lemma elems_return (fuel : nat) (vals : list value) :
  (∀ w, (depth w < fuel)%nat → call_sanitise cfg hooks fuel w ≠ Timeout) →
  (depth (VArr vals) < fuel)%nat →
  (if existsb is_nullish vals
   then Throw "TypeError: Cannot read property 'sanitise' of null"
   else VArr <$> rmap (fun val => if has_sanitise val
                                  then call_sanitise cfg hooks fuel val
                                  else Ok val) vals) ≠ Timeout.
Proof.
  intros Hcall Hd. destruct (existsb is_nullish vals); [done|].
  destruct (rmap _ vals) eqn:E; try done. exfalso.
  eapply rmap_returns; [|exact E].
  intros val Hin. cbn beta. destruct (has_sanitise val); [|done].
  apply Hcall. pose proof (depth_elem _ _ Hin). lia.
Qed.

Lemma call_sanitise_model (fuel : nat) (data : props) (san : value) :
  (0 < fuel)%nat → call_sanitise cfg hooks fuel (VModel data san) = Ok san.
Proof. destruct fuel; [lia | done]. Qed.

Lemma call_sanitise_object (fuel : nat) (id : option string) (data : props)
    (out : value) :
  call_sanitise cfg hooks fuel (VUser id data) = Ok out → ∃ o, out = VObj o.
Proof.
  destruct fuel; [done|]. cbn [call_sanitise].
  destruct (sanitise_with _ _ _ _); try done. intros [= <-]. eauto.
Qed.

Lemma field_value_returns (fuel : nat) (x : value) :
  (∀ w, (depth w < fuel)%nat → call_sanitise cfg hooks fuel w ≠ Timeout) →
  (depth x < fuel)%nat →
  field_value (call_sanitise cfg hooks fuel) x ≠ Timeout.
Proof.
  intros Hcall Hd. unfold field_value.
  destruct x as [| | | | |vals|o|id data|data san];
    cbn [truthy has_sanitise andb mbind result_bind]; rewrite ?andb_false_r;
    cbn [mbind result_bind]; try done.
  - by apply elems_return.
  - destruct (truthy (prop_get "sanitise" o)); [|done].
    destruct fuel; [lia | done].
  - specialize (Hcall _ Hd).
    destruct (call_sanitise cfg hooks fuel (VUser id data)) as [out| |] eqn:E;
      try done.
    by apply call_sanitise_object in E as [o ->].
  - rewrite call_sanitise_model by lia. cbn [mbind result_bind].
    destruct san; try done. apply elems_return; [done|]. cbn [depth] in *. lia.
Qed.

Lemma sanitise_fields_returns (fuel : nat) (u : user) (fs : list field_spec)
    (s : props) :
  (∀ w, (depth w < fuel)%nat → call_sanitise cfg hooks fuel w ≠ Timeout) →
  (depth (VUser' u) ≤ fuel)%nat →
  sanitise_fields (call_sanitise cfg hooks fuel) u s fs ≠ Timeout.
Proof.
  intros Hcall Hd. revert s. induction fs as [|f fs IH]; intros s; [done|].
  cbn [sanitise_fields]. rewrite sanitise_field_value.
  destruct (field_value _ _) eqn:E; cbn [mbind result_bind]; try done.
  exfalso. eapply field_value_returns; [exact Hcall | | exact E].
  pose proof (get_depth u (field_name f)). lia.
Qed.

Lemma sanitise_returns (fuel : nat) (u : user) :
  (∀ w, (depth w < fuel)%nat → call_sanitise cfg hooks fuel w ≠ Timeout) →
  (depth (VUser' u) ≤ fuel)%nat →
  sanitise cfg hooks fuel u ≠ Timeout.
Proof.
  intros Hcall Hd. unfold sanitise, sanitise_with.
  destruct (name u) eqn:En; cbn [mbind result_bind]; try done.
  - destruct (sanitise_fields _ _ _ _) eqn:E; cbn [mbind result_bind]; try done.
    exfalso. by eapply sanitise_fields_returns.
  - by apply name_returns in En.
Qed.

Lemma call_sanitise_returns (fuel : nat) (v : value) :
  (depth v < fuel)%nat → call_sanitise cfg hooks fuel v ≠ Timeout.
Proof.
  revert v. induction fuel as [|fuel IH]; intros v Hd; [lia|].
  destruct v as [| | | | | | |id data|]; try done.
  cbn [call_sanitise].
  pose proof (sanitise_returns fuel (User id data) IH) as Hs.
  unfold sanitise in Hs. destruct (sanitise_with _ _ _ _); try done.
  exfalso. apply Hs; [|done]. unfold VUser'. cbn [_id fields]. lia.
Qed.

(** With the fuel that [User_sanitise] takes, [sanitise] gives its answer. *)
Lemma User_sanitise_returns (u : user) : User_sanitise cfg hooks u ≠ Timeout.
Proof.
  unfold User_sanitise. apply sanitise_returns; [|done].
  intros w. apply call_sanitise_returns.
Qed.
End fuel.

(** ** The [user.register] pre-handler *)

Section register_hook.
Context `{AclModel} (cfg : config).

Lemma load_acls_resolve (d : database) (def : list acl_spec) (acc : list value) :
  load_acls d def acc = acc ++ (VAcl <$> resolve d def).
Proof.
  revert acc. induction def as [|spec def IH]; intros acc; cbn [load_acls].
  - by rewrite app_nil_r.
  - unfold resolve. cbn [omap list_omap]. fold (resolve d def).
    destruct (Acl_findOne _ d) as [a|]; rewrite IH; [|done].
    by rewrite <- app_assoc.
Qed.

(** C7.  [_register] sets the [acl] field of the new user to the records that
    the configured lists resolve to: the default list followed by the admin
    list when no user is stored yet, the default list alone otherwise.  A
    record is attached only if it is stored under a configured name, and every
    configured name that has a stored record gets one attached. *)
Theorem _register_attaches (d : database) (req : request) (obj : register_payload) :
  let specs := register_specs cfg d in
  (∃ obj', _register cfg d req obj = Ok obj'
           ∧ get (p_user obj') "acl" = VArr (VAcl <$> resolve d specs)
           ∧ p_error obj' = p_error obj)
  ∧ (∀ a, a ∈ resolve d specs →
          a ∈ acls d ∧ ∃ spec, spec ∈ specs ∧ acl_name a = spec_name spec)
  ∧ (∀ spec, spec ∈ specs →
          (∃ a, a ∈ acls d ∧ acl_name a = spec_name spec) →
          ∃ a, a ∈ resolve d specs ∧ acl_name a = spec_name spec).
Proof.
  intros specs. split; [|split].
  - eexists. split; [reflexivity|]. cbn [p_user p_error]. split; [|done].
    rewrite get_set_eq by done. rewrite load_acls_resolve. cbn [app].
    do 3 f_equal. unfold specs, register_specs.
    destruct (Nat.eqb_spec (User_count d) 0); case_decide; done.
  - intros a Ha. apply list_elem_of_omap in Ha as (spec & Hs & F).
    apply Acl_findOne_Some in F as [Hin E]. eauto.
  - intros spec Hs (a & Ha & E).
    destruct (Acl_findOne (spec_name spec) d) as [b|] eqn:F.
    + exists b. split.
      * apply list_elem_of_omap. eauto.
      * by apply Acl_findOne_Some in F as [].
    + exfalso. by eapply Acl_findOne_None in F.
Qed.
End register_hook.

Lemma _register_attaches_witness :
  let _ : AclModel := plain_acl_model in
  ∃ a, a ∈ resolve seeded (register_specs sample_config seeded)
       ∧ acl_name a = "admin".
Proof.
  intros M.
  destruct (@_register_attaches M sample_config seeded register_form
              (RegisterPayload (User None []) VUndef)) as (_ & _ & Hattached).
  apply (Hattached (AclSpec "admin" (VBool true))).
  - right. left.
  - exists (Acl (Some "1") "admin" (VBool true)). split; [right; left | done].
Defined.

(** ** The acl bootstrap *)

(** C8 at a configuration that names one record in both lists, on an empty
    collection: both counts are taken before either record is saved, and two
    records of that name are created. *)
Lemma _acl_repeated_name :
  (w ← run_action (_acl repeated_name) empty_world;
   Ok (acl_name <$> acls (db w), Acl_count "admin" (db w)))
  = Ok (["admin"; "admin"], 2%nat).
Proof. reflexivity. Qed.

(** Creating records only adds records, at the end. *)
Lemma creates_extends (l : list (acl_spec * nat)) (d : database) :
  ∃ new, acls (creates d l) = acls d ++ new
         ∧ users (creates d l) = users d
         ∧ ∀ spec, (spec, 0%nat) ∈ l → ∃ a, a ∈ new ∧ acl_name a = spec_name spec.
Proof.
  revert d. induction l as [|[spec check] l IH]; intros d.
  - exists []. rewrite app_nil_r. repeat split. intros ? ?%elem_of_nil. done.
  - cbn [creates foldl]. fold (creates (if (check =? 0)%nat then create_acl spec d else d) l).
    destruct (IH (if (check =? 0)%nat then create_acl spec d else d))
      as (new & Ea & Eu & Hnew).
    destruct (Nat.eqb_spec check 0) as [->|Hc].
    + eexists (_ :: new). rewrite Ea, Eu. cbn [create_acl acls users].
      rewrite <- app_assoc. repeat split.
      intros s [Heq|Hs]%elem_of_cons.
      * injection Heq as ->. eexists. split; [left|]. done.
      * destruct (Hnew s Hs) as (a & ? & ?). exists a. split; [by right | done].
    + exists new. repeat split; [done..|].
      intros s [Heq|Hs]%elem_of_cons; [|auto].
      injection Heq as -> <-. done.
Qed.

Lemma creates_nothing (l : list (acl_spec * nat)) (d : database) :
  (∀ x, x ∈ l → x.2 ≠ 0%nat) → creates d l = d.
Proof.
  revert d. induction l as [|[spec check] l IH]; intros d Hl; [done|].
  cbn [creates foldl]. destruct (Nat.eqb_spec check 0) as [->|_].
  - exfalso. by apply (Hl (spec, 0%nat)); [left|].
  - apply IH. intros x Hx. apply Hl. by right.
Qed.

Lemma _acl_run (cfg : config) (w : world) :
  _acl cfg w = Ok (tt, World (bootstrap cfg (db w)) (sessions w) (trace w)).
Proof. reflexivity. Qed.

Lemma zip_map_elem {A B} (f : A → B) (l : list A) (x : A) (y : B) :
  (x, y) ∈ zip l (map f l) ↔ x ∈ l ∧ y = f x.
Proof.
  induction l as [|a l IH]; cbn [zip zip_with map].
  - split; [intros []%elem_of_nil | intros [[]%elem_of_nil _]].
  - rewrite !elem_of_cons, IH. split.
    + intros [[= -> ->]|[? ->]]; auto.
    + intros [[->|?] ->]; auto.
Qed.

(** After the bootstrap every configured name has a record. *)
Lemma bootstrap_all_exist (cfg : config) (d : database) (spec : acl_spec) :
  spec ∈ acl_default cfg ++ acl_admin cfg →
  Acl_count (spec_name spec) (bootstrap cfg d) ≠ 0%nat.
Proof.
  intros Hs. unfold bootstrap.
  destruct (creates_extends
              (zip (acl_default cfg ++ acl_admin cfg)
                 (map (fun acl => Acl_count (spec_name acl) d)
                    (acl_default cfg ++ acl_admin cfg))) d)
    as (new & Ea & _ & Hnew).
  apply Acl_count_pos. rewrite Ea.
  destruct (decide (Acl_count (spec_name spec) d = 0%nat)) as [E|E].
  - destruct (Hnew spec) as (a & Ha & En).
    { apply zip_map_elem. done. }
    exists a. split; [|done]. apply elem_of_app. by right.
  - apply Acl_count_pos in E as (a & Ha & En).
    exists a. split; [|done]. apply elem_of_app. by left.
Qed.

(** The records that existed are kept as they are, in place; new ones come
    after them. *)
Lemma bootstrap_keeps (cfg : config) (d : database) :
  ∃ new, acls (bootstrap cfg d) = acls d ++ new
         ∧ users (bootstrap cfg d) = users d.
Proof.
  destruct (creates_extends
              (zip (acl_default cfg ++ acl_admin cfg)
                 (map (fun acl => Acl_count (spec_name acl) d)
                    (acl_default cfg ++ acl_admin cfg))) d)
    as (new & Ea & Eu & _).
  eauto.
Qed.

(** A second bootstrap changes nothing. *)
Lemma bootstrap_idempotent (cfg : config) (d : database) :
  bootstrap cfg (bootstrap cfg d) = bootstrap cfg d.
Proof.
  unfold bootstrap at 1. apply creates_nothing.
  intros [spec check] [Hs ->]%zip_map_elem. cbn [snd].
  by apply bootstrap_all_exist.
Qed.

Lemma _acl_twice (cfg : config) (w : world) :
  (_ ← _acl cfg; _acl cfg) w = _acl cfg w.
Proof.
  unfold mbind, st_bind. rewrite !_acl_run. cbn [db sessions trace].
  by rewrite bootstrap_idempotent.
Qed.

(** The names of the records created are those of the entries counted zero,
    in order. *)
Lemma creates_names (l : list (acl_spec * nat)) (d : database) :
  ∃ new, acls (creates d l) = acls d ++ new ∧ acl_name <$> new = missing l.
Proof.
  revert d. induction l as [|[spec check] l IH]; intros d.
  - exists []. by rewrite app_nil_r.
  - cbn [creates foldl]. fold (creates (if (check =? 0)%nat then create_acl spec d else d) l).
    destruct (IH (if (check =? 0)%nat then create_acl spec d else d))
      as (new & Ea & En).
    unfold missing. cbn [omap list_omap fst snd]. fold (missing l).
    destruct (Nat.eqb_spec check 0) as [->|Hc].
    + eexists (_ :: new). rewrite Ea. cbn [create_acl acls].
      rewrite <- app_assoc. split; [done|]. cbn. by rewrite En.
    + by exists new.
Qed.

Lemma missing_zip (f : acl_spec → nat) (specs : list acl_spec) :
  missing (zip specs (map f specs))
  = spec_name <$> List.filter (fun s => (f s =? 0)%nat) specs.
Proof.
  induction specs as [|s specs IH]; [done|].
  unfold missing. cbn [zip zip_with map omap list_omap fst snd List.filter].
  fold (zip specs (map f specs)). fold (missing (zip specs (map f specs))).
  rewrite IH. by destruct (f s =? 0)%nat.
Qed.

Lemma NoDup_fmap_filter {A B} (g : A → B) (p : A → bool) (l : list A) :
  NoDup (g <$> l) → NoDup (g <$> List.filter p l).
Proof.
  induction l as [|x l IH]; cbn [List.filter fmap list_fmap]; [done|].
  intros [Hx Hl]%NoDup_cons. destruct (p x); [|auto].
  cbn [fmap list_fmap]. apply NoDup_cons. split; [|auto].
  intros (y & Ey & Hy)%list_elem_of_fmap. apply Hx, list_elem_of_fmap.
  exists y. split; [done|]. apply list_elem_of_In in Hy.
  apply filter_In in Hy as [Hy _]. by apply list_elem_of_In.
Qed.

(** When no name is listed twice, the records created bear distinct names,
    none of which was stored before: each name is created at most once. *)
Lemma bootstrap_distinct (cfg : config) (d : database) :
  NoDup (spec_name <$> acl_default cfg ++ acl_admin cfg) →
  ∃ new, acls (bootstrap cfg d) = acls d ++ new
         ∧ NoDup (acl_name <$> new)
         ∧ ∀ a, a ∈ new → Acl_count (acl_name a) d = 0%nat.
Proof.
  intros ND. unfold bootstrap.
  destruct (creates_names
              (zip (acl_default cfg ++ acl_admin cfg)
                 (map (fun acl => Acl_count (spec_name acl) d)
                    (acl_default cfg ++ acl_admin cfg))) d)
    as (new & Ea & En).
  rewrite missing_zip in En.
  exists new. split; [done|]. split.
  - rewrite En. by apply NoDup_fmap_filter.
  - intros a Ha.
    assert (acl_name a ∈ acl_name <$> new) as Hn
      by (apply list_elem_of_fmap; eauto).
    rewrite En in Hn. apply list_elem_of_fmap in Hn as (s & -> & Hs).
    apply list_elem_of_In, filter_In in Hs as [_ Hs].
    by apply Nat.eqb_eq in Hs.
Qed.

(** ** Registration *)

(** One step of an action. *)
Ltac step_action :=
  unfold mbind, st_bind, mret, st_ret, lift, read_db, write_db, out;
  cbn [db sessions trace call_trim text negb].

Section register.
Context `{Crypto} (cfg : config) (hooks : list register_hook)
        (shooks : list sanitise_hook).

Lemma existsb_find {A} (f : A → bool) (l : list A) :
  existsb f l = false → find f l = None.
Proof.
  induction l as [|x l IH]; [done|]. cbn. destruct (f x); [done | auto].
Qed.


End register.

Section register_veto.
Context `{Crypto} (cfg : config) (shooks : list sanitise_hook).


End register_veto.


(** Without a veto the same request is saved before it is logged in. *)
Example register_without_veto :
  (w ← run_action (registerSubmitAction eden_hook sample_config [] []
                     register_form) empty_world;
   Ok ((fun u => get u "email") <$> users (db w), sessions w !! "session-1",
       emitted_events (trace w)))
  = Ok ([VStr "c@d.com"],
        Some (User (Some "0")
                (fields (p_user (candidate sample_config register_form)))),
        ["user.login"]).
Proof. vm_compute. reflexivity. Qed.

(** The first registered user gets the default and the admin records, the
    second one the default records only. *)
Example first_user_is_admin :
  let _ : AclModel := plain_acl_model in
  let register email password :=
    registerSubmitAction eden_hook sample_config [_register sample_config] []
      (register_form' email password) in
  (w ← run_action (_ ← _acl sample_config;
                   _ ← register "a@b.com" "secret";
                   register "c@d.com" "secret2") empty_world;
   Ok (attached_names (db w), emitted_events (trace w)))
  = Ok ([ [VStr "user"; VStr "admin"]; [VStr "user"] ],
        ["user.login"; "user.login"]).
Proof. vm_compute. reflexivity. Qed.

(** ** Password reset *)

Section reset.
Context `{Crypto} (cfg : config).

(** C6, amended.  A successful reset (the token resolves to a stored user,
    the new password is long enough and confirmed) stores the new digest and
    leaves the reset token as it is: the same token resolves again, to the
    updated user. *)
Theorem reset_keeps_token (req : request) (w : world) (t : string) (u : user) :
  prop_get "token" (body req) = VStr t →
  t ≠ "" →
  User_findOne_token (VStr t) (db w) = Some u →
  is_Some (_id u) →
  NoDup (_id <$> users (db w)) →
  valid_password (body req) = true →
  let u' := set "hash" (VStr (hmac_sha256_hex (secret cfg)
                                (text (prop_get "password" (body req))))) u in
  ∃ w', resetSubmitAction cfg req w = Ok (tt, w')
        ∧ users (db w') = replace_user u' (users (db w))
        ∧ trace w' = trace w ++ [ Saved u';
                                  Alert "success" "Successfully updated your password";
                                  Redirect (VStr "/login") ]
        ∧ get u' "hash" = VStr (hmac_sha256_hex (secret cfg)
                                  (text (prop_get "password" (body req))))
        ∧ get u' "token" = VStr t
        ∧ User_findOne_token (VStr t) (db w') = Some u'.
Proof.
  intros Ht Hne Hfind [i Hi] ND Hvalid u'.
  unfold resetSubmitAction. rewrite Ht.
  assert (truthy (VStr t) = true) as ->.
  { cbn. by destruct (String.eqb_spec t ""). }
  unfold valid_password in Hvalid.
  destruct (prop_get "password" (body req)) as [| | | |p| | | |] eqn:Hp;
    try discriminate Hvalid.
  apply andb_true_iff in Hvalid as [Hlen Hconf].
  apply Nat.leb_le in Hlen.
  step_action. rewrite Hfind.
  destruct (Nat.ltb_spec (String.length (trim p)) 5) as [?|_]; [lia|].
  rewrite Hconf. unfold save, save_user. step_action.
  cbn [set _id]. rewrite Hi. step_action.
  eexists. split; [reflexivity|]. cbn [db users].
  assert (get u' "token" = VStr t) as Htok.
  { unfold u'. rewrite get_set_ne by done. unfold User_findOne_token in Hfind.
    apply find_some in Hfind as [_ Hm]. by apply strict_eq_str_spec in Hm. }
  split; [done|]. split; [by rewrite <- !app_assoc|].
  split; [by apply get_set_eq|]. split; [done|].
  unfold User_findOne_token in *. cbn [users].
  apply (find_replace_user _ u); [done..|].
  by apply strict_eq_str_spec.
Qed.
End reset.

Lemma reset_keeps_token_witness :
  let u' := set "hash" (VStr (hmac_sha256_hex "s3cr3t" "newpass")) forgetful in
  ∃ w', resetSubmitAction sample_config (reset_form "newpass") forgetful_world
        = Ok (tt, w')
        ∧ User_findOne_token (VStr "5f2b9c0d1e3a4b5c6d7e8f90") (db w') = Some u'.
Proof.
  destruct (reset_keeps_token sample_config (reset_form "newpass")
              forgetful_world "5f2b9c0d1e3a4b5c6d7e8f90" forgetful)
    as (w' & Hrun & _ & _ & _ & _ & Hfind); try reflexivity.
  - discriminate.
  - by eexists.
  - cbn. apply NoDup_singleton.
  - by exists w'.
Defined.

(** C6 as stated fails: after a successful reset the token still resolves,
    and the same token sets the password a second time. *)
Lemma reset_token_reusable :
  (w1 ← run_action (resetSubmitAction sample_config (reset_form "newpass"))
          forgetful_world;
   w2 ← run_action (resetSubmitAction sample_config (reset_form "another"))
          w1;
   Ok ((fun u => get u "token") <$> User_findOne_token (VStr "5f2b9c0d1e3a4b5c6d7e8f90") (db w1),
       (fun u => get u "hash") <$> users (db w1),
       (fun u => get u "hash") <$> users (db w2),
       last (trace w2)))
  = Ok (Some (VStr "5f2b9c0d1e3a4b5c6d7e8f90"),
        [VStr (hmac_sha256_hex "s3cr3t" "newpass")],
        [VStr (hmac_sha256_hex "s3cr3t" "another")],
        Some (Redirect (VStr "/login"))).
Proof. vm_compute. reflexivity. Qed.

(** After a reset the new password opens the account and the old one does
    not. *)
Example reset_then_login :
  (w ← run_action (resetSubmitAction sample_config (reset_form "newpass"))
         forgetful_world;
   a ← _authenticate sample_config "a@b.com" "newpass" (db w);
   b ← _authenticate sample_config "a@b.com" "secret" (db w);
   Ok (truthy (done_user a), truthy (done_user b),
       prop_get "message" <$> done_info b))
  = Ok (true, false, Some (VStr "Incorrect password")).
Proof. vm_compute. reflexivity. Qed.

(** ** Listen and deafen *)

(** C5 as stated fails: the two calls are not atomic units.  In this
    schedule of a listen and a deafen on one key the session ends registered
    while its socket has left the room. *)
Lemma listen_deafen_race :
  interleaving (listenAction ada_world "1" "listen-1" tab)
               (deafenAction ada_world "1" "listen-1" tab) racy
  ∧ ∃ l, run_segments no_live racy = Ok l
         ∧ registered l "1" "listen-1" tab
         ∧ ¬ joined l "1" tab
         ∧ ¬ settled l "1" "listen-1" tab.
Proof.
  split.
  - repeat constructor.
  - eexists. split; [reflexivity|].
    unfold settled, registered, joined. cbn. set_solver.
Qed.

Ltac schedules :=
  repeat match goal with
         | H : interleaving _ _ _ |- _ => inversion H; subst; clear H
         end.

(** C5, amended.  For an entity that exists, every schedule of a listen and a
    deafen call on one key runs to the end; the socket ends in the room
    exactly when the join came after the leave, and the session ends
    registered exactly when the helper added after it removed, so the end
    state is one of the two well-defined ones exactly when the two orders
    agree.  They agree when one call runs after the other: listen then
    deafen ends unregistered and out of the room, deafen then listen ends
    registered and in the room. *)
Theorem listen_deafen_outcomes (d : database) (id uuid : string)
    (opts : listen_opts) (u : user) (l0 : live) (schedule : list segment) :
  id ≠ "" →
  User_findById id d = Some u →
  interleaving (listenAction d id uuid opts) (deafenAction d id uuid opts)
    schedule →
  ∃ l, run_segments l0 schedule = Ok l
       ∧ (joined l id opts ↔ precedes KLeave KJoin schedule = true)
       ∧ (registered l id uuid opts ↔ precedes KRemove KAdd schedule = true)
       ∧ (settled l id uuid opts
          ↔ precedes KLeave KJoin schedule = precedes KRemove KAdd schedule)
       ∧ (schedule = listenAction d id uuid opts ++ deafenAction d id uuid opts →
          ¬ registered l id uuid opts ∧ ¬ joined l id opts)
       ∧ (schedule = deafenAction d id uuid opts ++ listenAction d id uuid opts →
          registered l id uuid opts ∧ joined l id opts).
Proof.
  intros Hid Hu. unfold listenAction, deafenAction.
  destruct (String.eqb_spec id "") as [|_]; [done|]. rewrite Hu.
  pose proof (User_findById_id _ _ _ Hu) as Hk.
  intros Hs. schedules;
    (eexists; split;
     [cbn [run_segments run_segment]; unfold registration; cbn;
      rewrite Hk; reflexivity|]);
    unfold settled, registered, joined; cbn [rooms listeners app];
    repeat match goal with
           | |- context [precedes ?a ?b ?s] =>
               let p := fresh "p" in
               set (p := precedes a b s); vm_compute in p; subst p
           end;
    repeat split; intros; try discriminate; try done; set_solver.
Qed.

Lemma listen_deafen_outcomes_witness :
  ∃ l, run_segments no_live
         (listenAction ada_world "1" "listen-1" tab
          ++ deafenAction ada_world "1" "listen-1" tab) = Ok l
       ∧ ¬ registered l "1" "listen-1" tab ∧ ¬ joined l "1" tab.
Proof.
  destruct (listen_deafen_outcomes ada_world "1" "listen-1" tab ada no_live
              (listenAction ada_world "1" "listen-1" tab
               ++ deafenAction ada_world "1" "listen-1" tab))
    as (l & Hrun & _ & _ & _ & Hseq & _).
  - discriminate.
  - reflexivity.
  - repeat constructor.
  - exists l. split; [exact Hrun|]. by apply Hseq.
Defined.

(** ** The browser side *)

(** C10.  When the [user] channel delivers [false], [__update] leaves the
    store with the empty object for its data, so that [exists()] answers
    false; nothing is emitted by it, neither for a field nor [update]. *)
Theorem update_false_clears (this : Client.EdenUser) :
  ∃ this', Client.__update (Client.Payload (VBool false)) this = Ok this'
           ∧ Client.__data this' = VObj []
           ∧ Client.exists_ this' = false
           ∧ Client.emitted this' = Client.emitted this
           ∧ Client.__fields this' = Client.__fields this.
Proof.
  eexists. split; [reflexivity|]. by destruct this.
Qed.

(** The server pushes that [false] when a session logs out. *)
Lemma logout_pushes_false (req : request) (w w' : world) :
  logoutAction req w = Ok (tt, w') →
  Pushed (sessionID req) "user" (VBool false) ∈ trace w'.
Proof.
  unfold logoutAction, emit, _logout, req_logout. step_action.
  cbn [String.eqb Ascii.eqb Bool.eqb orb]. step_action.
  intros [= <-]. cbn [trace]. rewrite !elem_of_app, !list_elem_of_singleton.
  auto.
Qed.

(** A payload fills the store and announces each field, then [update]; the
    same payload again announces [update] only; [null] is not [false]. *)
Example update_then_logout :
  let payload := VObj [("_id", VStr "1"); ("name", VStr "Ada")] in
  (a ← Client.__update (Client.Payload payload) (Client.build VUndef);
   b ← Client.__update (Client.Payload payload) a;
   c ← Client.__update (Client.Payload (VBool false)) b;
   Ok (Client.exists_ a, (Client.emitted b).*1, Client.exists_ c,
       Client.__update (Client.Payload VNull) c))
  = Ok (true, ["_id"; "name"; "update"; "update"], false,
        Throw "TypeError: Cannot read property '__data' of null").
Proof. reflexivity. Qed.

(** ** The login form *)

Section login.
Context `{Crypto} (cfg : config) (shooks : list sanitise_hook).

(** What [_authenticate] hands to [done], by the first stored user with the
    email. *)
Lemma _authenticate_find (email password : string) (d : database) :
  _authenticate cfg email password d
  = Ok match find (same_email email) (users d) with
       | None => user_not_found
       | Some u =>
           if decide (password_ok cfg u password) then authenticated u
           else invalid_credential u "Incorrect password"
       end.
Proof.
  unfold _authenticate. rewrite exact_regexp_atoms. cbn [mbind result_bind].
  unfold User_findOne_email.
  rewrite (find_ext _ (same_email email)).
  2:{ intros u. apply email_matches_same, exact_regexp_atoms. }
  destruct (find _ _) as [u|]; [|reflexivity].
  rewrite authenticate_run, strict_eq_str_decide. unfold password_ok.
  cbn [mbind result_bind]. case_bool_decide as E; case_decide; done.
Qed.

Lemma truthy_nonempty (s : string) : s ≠ "" → truthy (VStr s) = true.
Proof. intros Hs. cbn. by destruct (String.eqb_spec s ""). Qed.

(** With both credentials in the body, the action is the callback on what
    [_authenticate] hands over. *)
Lemma loginSubmitAction_verifies (req : request) (w : world) (email password : string) :
  prop_get "email" (body req) = VStr email → email ≠ "" →
  prop_get "password" (body req) = VStr password → password ≠ "" →
  loginSubmitAction cfg shooks req w
  = login_callback cfg shooks req
      match find (same_email email) (users (db w)) with
      | None => user_not_found
      | Some u =>
          if decide (password_ok cfg u password) then authenticated u
          else invalid_credential u "Incorrect password"
      end w.
Proof.
  intros He Hne Hp Hnp. unfold loginSubmitAction, field_lookup.
  rewrite He, Hp. unfold js_or.
  rewrite !truthy_nonempty by done. cbn [negb orb]. step_action.
  by rewrite _authenticate_find.
Qed.

Lemma user_eta (u : user) : User (_id u) (fields u) = u.
Proof. by destruct u. Qed.

Lemma req_login_bound (req : request) (u : user) (w : world) :
  is_Some (_id u) →
  req_login req u w
  = Ok (tt, World (db w) (<[sessionID req := u]> (sessions w)) (trace w)).
Proof.
  intros [i Hi]. unfold req_login, serializeUser, get. cbn. by rewrite Hi.
Qed.

Lemma login_callback_accepted (req : request) (w : world) (u : user) (o : props) :
  is_Some (_id u) →
  User_sanitise cfg shooks u = Ok o →
  login_callback cfg shooks req (authenticated u) w
  = Ok (tt, World (save_login (Login (login_address req) "login" false (VUser' u)
                                 VUndef) (db w))
              (<[sessionID req := u]> (sessions w))
              (trace w ++ [ Pushed (sessionID req) "user" (VObj o);
                            Alert "success" "Successfully logged in";
                            Emitted "user.login" (VUser' u);
                            Redirect (redirect_or req (VStr "/")) ])).
Proof.
  intros Hid Hsan. unfold login_callback, authenticated.
  cbn [done_user done_err VUser' truthy negb orb].
  step_action. rewrite user_eta, req_login_bound, Hsan by done.
  unfold emit, _login. step_action. cbn. rewrite <- !app_assoc. reflexivity.
Qed.

(** X1.  A login that fails (no stored user has the email, or the first one that
    has it has another password) binds no session and changes no user; it
    appends one audit record, marked as a failure, with the user it found
    (or [false]) and the reason, and answers with the login form. *)
Theorem login_rejected (req : request) (w : world) (email password : string) :
  prop_get "email" (body req) = VStr email → email ≠ "" →
  prop_get "password" (body req) = VStr password → password ≠ "" →
  (∀ u, find (same_email email) (users (db w)) = Some u →
        ¬ password_ok cfg u password) →
  let found := find (same_email email) (users (db w)) in
  let message := if found is Some _ then "Incorrect password" else "User not found" in
  let who := from_option VUser' (VBool false) found in
  loginSubmitAction cfg shooks req w
  = Ok (tt, World (save_login (Login (login_address req) "login" true who
                                 (VStr message)) (db w))
              (sessions w)
              (trace w ++ [ Alert "error" message;
                            Emitted "user.login.fail" who;
                            Render "login"
                              [ ("old", VObj (body req));
                                ("redirect", redirect_or req (VBool false)) ] ])).
Proof.
  intros He Hne Hp Hnp Hbad found message who.
  rewrite (loginSubmitAction_verifies req w email password) by done. fold found.
  unfold message, who. destruct found as [u|] eqn:F.
  - case_decide as Hok; [by apply Hbad in Hok|].
    unfold login_callback, invalid_credential. cbn. unfold emit, _login.
    step_action. cbn. rewrite <- !app_assoc. reflexivity.
  - unfold login_callback, user_not_found. cbn. unfold emit, _login.
    step_action. cbn. rewrite <- !app_assoc. reflexivity.
Qed.

(** X2.  A login with the password of the first stored user that has the email
    binds that user to the session, pushes the sanitised user over the
    session channel, appends one audit record that is no failure, and
    redirects. *)
Theorem login_accepted (req : request) (w : world) (email password : string)
    (u : user) (o : props) :
  prop_get "email" (body req) = VStr email → email ≠ "" →
  prop_get "password" (body req) = VStr password → password ≠ "" →
  find (same_email email) (users (db w)) = Some u →
  password_ok cfg u password →
  is_Some (_id u) →
  User_sanitise cfg shooks u = Ok o →
  loginSubmitAction cfg shooks req w
  = Ok (tt, World (save_login (Login (login_address req) "login" false (VUser' u)
                                 VUndef) (db w))
              (<[sessionID req := u]> (sessions w))
              (trace w ++ [ Pushed (sessionID req) "user" (VObj o);
                            Alert "success" "Successfully logged in";
                            Emitted "user.login" (VUser' u);
                            Redirect (redirect_or req (VStr "/")) ])).
Proof.
  intros He Hne Hp Hnp Hfind Hok Hid Hsan.
  rewrite (loginSubmitAction_verifies req w email password) by done.
  rewrite Hfind, decide_True by done.
  by apply login_callback_accepted.
Qed.

(** X3.  A login followed by the logout of that session leaves the session
    unbound and the users as they were; the audit log has two more records,
    the login with the address cut after its last colon and the logout with
    the address as it is. *)
Theorem login_then_logout (req req' : request) (w : world)
    (email password : string) (u : user) (o : props) :
  prop_get "email" (body req) = VStr email → email ≠ "" →
  prop_get "password" (body req) = VStr password → password ≠ "" →
  find (same_email email) (users (db w)) = Some u →
  password_ok cfg u password →
  is_Some (_id u) →
  User_sanitise cfg shooks u = Ok o →
  sessionID req' = sessionID req →
  req_user req' = Some u →
  ∃ w', (_ ← loginSubmitAction cfg shooks req; logoutAction req') w = Ok (tt, w')
        ∧ sessions w' = delete (sessionID req) (sessions w)
        ∧ users (db w') = users (db w)
        ∧ logins (db w')
          = logins (db w)
            ++ [ Login (login_address req) "login" false (VUser' u) VUndef;
                 Login (js_or (prop_get "x-forwarded-for" (headers req'))
                          (VStr (remoteAddress req')))
                   "logout" false (VUser' u) (VBool false) ]
        ∧ last (trace w') = Some (Redirect (VStr "/")).
Proof.
  intros He Hne Hp Hnp Hfind Hok Hid Hsan Hsid Hu.
  unfold mbind at 1, st_bind at 1.
  rewrite (loginSubmitAction_verifies req w email password) by done.
  rewrite Hfind, decide_True by done.
  rewrite (login_callback_accepted req w u o) by done.
  unfold logoutAction, emit, _logout, req_logout. step_action.
  cbn [String.eqb Ascii.eqb Bool.eqb orb]. step_action.
  eexists. split; [reflexivity|]. cbn [sessions db users logins save_login trace].
  rewrite Hsid, Hu, delete_insert_eq. cbn [from_option].
  rewrite <- !app_assoc. repeat split.
  by rewrite !app_assoc, last_snoc.
Qed.
End login.

Lemma login_rejected_witness :
  (w ← run_action (loginSubmitAction sample_config [] (login_form "a@b.com" "wrong"))
         forgetful_world;
   Ok (sessions w !! "session-1", login_fail <$> logins (db w)))
  = Ok (None, [true]).
Proof.
  unfold run_action.
  rewrite (login_rejected sample_config [] (login_form "a@b.com" "wrong")
             forgetful_world "a@b.com" "wrong");
    [reflexivity | reflexivity | discriminate | reflexivity | discriminate |].
  intros u [= <-]. unfold password_ok. vm_compute. discriminate.
Defined.

Lemma forgetful_sanitised :
  ∃ o, User_sanitise sample_config [] forgetful = Ok o.
Proof. eexists. vm_compute. reflexivity. Qed.

Lemma login_accepted_witness :
  ∃ w, run_action (loginSubmitAction sample_config [] (login_form "A@B.com" "secret"))
         forgetful_world = Ok w
       ∧ sessions w !! "session-1" = Some forgetful.
Proof.
  destruct forgetful_sanitised as [o Ho]. unfold run_action.
  rewrite (login_accepted sample_config [] (login_form "A@B.com" "secret")
             forgetful_world "A@B.com" "secret" forgetful o);
    [| reflexivity | discriminate | reflexivity | discriminate | reflexivity
     | reflexivity | by eexists | exact Ho].
  eexists. split; [reflexivity|]. apply lookup_insert_eq.
Defined.

Lemma login_then_logout_witness :
  ∃ w, (_ ← loginSubmitAction sample_config [] (login_form "a@b.com" "secret");
        logoutAction logout_request) forgetful_world = Ok (tt, w)
       ∧ sessions w = ∅
       ∧ login_way <$> logins (db w) = ["login"; "logout"].
Proof.
  destruct forgetful_sanitised as [o Ho].
  destruct (login_then_logout sample_config [] (login_form "a@b.com" "secret")
              logout_request forgetful_world "a@b.com" "secret" forgetful o)
    as (w & Hrun & Hs & _ & Hl & _);
    [reflexivity | discriminate | reflexivity | discriminate | reflexivity
    | reflexivity | by eexists | exact Ho | reflexivity | reflexivity |].
  exists w. split; [exact Hrun|]. rewrite Hs, Hl. split; reflexivity.
Defined.

(** ** Audit records *)

Lemma after_last_colon_none (s : string) :
  colon_free s = true → after_last_colon s = None.
Proof.
  induction s as [|c s IH]; [done|]. cbn [colon_free list_ascii_of_string forallb].
  intros [Hc Hs]%andb_true_iff. cbn [after_last_colon].
  destruct (is_line_terminator c); [done|].
  rewrite IH by done. by destruct (Ascii.eqb c ":").
Qed.

Lemma after_last_colon_app (prefix last : string) :
  single_line prefix = true → single_line last = true → colon_free last = true →
  after_last_colon (prefix +:+ ":" +:+ last) = Some last.
Proof.
  intros Hp Hl Hc. induction prefix as [|c p IH].
  - change (after_last_colon (String ":" last) = Some last).
    cbn [after_last_colon]. by rewrite after_last_colon_none.
  - cbn [single_line list_ascii_of_string forallb] in Hp.
    apply andb_true_iff in Hp as [Hc' Hp].
    change (after_last_colon (String c (p +:+ ":" +:+ last)) = Some last).
    cbn [after_last_colon]. apply negb_true_iff in Hc'. rewrite Hc'.
    by rewrite IH.
Qed.

(** X4.  The address in the audit record of a login is what follows the last
    colon of the remote address; the record of a logout has the address as
    it is. *)
Theorem audit_address (obj : login_event) (req : request) (w : world)
    (prefix last : string) :
  ev_req obj = Some req →
  truthy (prop_get "x-forwarded-for" (headers req)) = false →
  remoteAddress req = prefix +:+ ":" +:+ last →
  single_line prefix = true → single_line last = true → colon_free last = true →
  _login obj w
  = Ok (tt, World (save_login (Login (VStr last) "login" (truthy (ev_fail obj))
                                 (ev_user obj) (ev_message obj)) (db w))
              (sessions w) (trace w))
  ∧ _logout obj w
    = Ok (tt, World (save_login (Login (VStr (prefix +:+ ":" +:+ last)) "logout" false
                                   (ev_user obj) (VBool false)) (db w))
                (sessions w) (trace w)).
Proof.
  intros Hreq Hfw Haddr Hp Hl Hc. unfold _login, _logout. rewrite Hreq.
  unfold js_or. rewrite Hfw, Haddr. unfold strip_to_last_colon.
  rewrite after_last_colon_app by done. split; reflexivity.
Qed.

(** ** Sessions *)

Lemma find_unique_id (l : list user) (u : user) (id : string) :
  NoDup (_id <$> l) → u ∈ l → _id u = Some id →
  find (fun v => bool_decide (_id v = Some id)) l = Some u.
Proof.
  intros ND Hin Hid. induction l as [|v l IH]; [by apply elem_of_nil in Hin|].
  cbn [fmap list_fmap] in ND. apply NoDup_cons in ND as [Hv ND].
  cbn [find]. case_bool_decide as E.
  - apply elem_of_cons in Hin as [->|Hin]; [done|].
    exfalso. apply Hv. rewrite E, <- Hid. apply list_elem_of_fmap. eauto.
  - apply elem_of_cons in Hin as [->|Hin]; [done|]. by apply IH.
Qed.

(** X5.  What [serializeUser] writes into the session, [_deserialise] reads back
    as the stored user; an id that no stored user bears reads back as
    [null]. *)
Theorem deserialise_serialised (d : database) (u : user) (id : string) :
  NoDup (_id <$> users d) →
  u ∈ users d →
  serializeUser u = Ok id →
  _deserialise id d = Done VNull (VUser' u) None
  ∧ ∀ id', (∀ v, v ∈ users d → _id v ≠ Some id') →
           _deserialise id' d = Done VNull VNull None.
Proof.
  intros ND Hin Hser. split.
  - unfold _deserialise, User_findById. rewrite (find_unique_id _ u); [done..|].
    unfold serializeUser, get in Hser. cbn in Hser.
    destruct (_id u); [|done]. cbn in Hser. congruence.
  - intros id' Hno. unfold _deserialise, User_findById.
    destruct (find _ _) as [v|] eqn:F; [|done].
    apply find_some in F as [Hv E]. apply bool_decide_eq_true in E.
    by apply list_elem_of_In, Hno in Hv.
Qed.

Lemma audit_address_witness :
  let obj := LoginEvent (Some register_form) VUndef VUndef VUndef in
  (w ← run_action (_ ← _login obj; _logout obj) empty_world;
   Ok (login_ip <$> logins (db w)))
  = Ok [VStr "10.0.0.7"; VStr "::ffff:10.0.0.7"].
Proof.
  intros obj.
  destruct (audit_address obj register_form empty_world "::ffff" "10.0.0.7")
    as [Hin _]; [reflexivity..|].
  unfold run_action, mbind at 2, st_bind. rewrite Hin.
  match goal with
  | |- context [_logout obj ?w] =>
      destruct (audit_address obj register_form w "::ffff" "10.0.0.7")
        as [_ Hout]; [reflexivity..|]; rewrite Hout
  end.
  reflexivity.
Defined.

Lemma deserialise_serialised_witness :
  _deserialise "7" (db forgetful_world) = Done VNull (VUser' forgetful) None
  ∧ _deserialise "8" (db forgetful_world) = Done VNull VNull None.
Proof.
  destruct (deserialise_serialised (db forgetful_world) forgetful "7")
    as [Hback Hnone].
  - cbn. apply NoDup_singleton.
  - cbn. by left.
  - reflexivity.
  - split; [exact Hback|]. apply Hnone. intros v Hv. cbn in Hv.
    apply list_elem_of_singleton in Hv as ->. discriminate.
Defined.

(** ** Registration, continued *)

Lemma find_existsb {A} (f : A → bool) (l : list A) :
  find f l = None → existsb f l = false.
Proof.
  induction l as [|x l IH]; [done|]. cbn. destruct (f x); [done | auto].
Qed.

Section register_more.
Context `{Crypto} (hook : dispatcher) (cfg : config)
        (hooks : list register_hook) (shooks : list sanitise_hook).

(** X6.  A registration that does not pass the local validations stores nothing
    and binds no session, whatever the dispatcher and the pre-handlers are:
    it answers with one error alert and the registration form.  It fails
    only when the email or the password is not a string. *)
Theorem register_invalid_rejected (req : request) (w : world) :
  locally_valid req (db w) = false →
  match registerSubmitAction hook cfg hooks shooks req w with
  | Ok (_, w') =>
      db w' = db w ∧ sessions w' = sessions w
      ∧ ∃ message,
          trace w' = trace w ++ [ Alert "error" message;
                                  Render "register"
                                    [ ("old", VObj (body req));
                                      ("redirect", redirect_or req (VBool false)) ] ]
  | Throw _ =>
      is_text (prop_get "email" (body req))
      && is_text (prop_get "password" (body req)) = false
  | Timeout => False
  end.
Proof.
  intros Hinvalid. unfold locally_valid, valid_password in Hinvalid.
  unfold registerSubmitAction, render_register.
  destruct (prop_get "email" (body req)) as [| | | |e| | | |] eqn:He; try done.
  step_action.
  destruct (Nat.ltb_spec (String.length (trim e)) 5) as [Hlen|Hlen].
  { step_action. rewrite <- app_assoc. eauto. }
  rewrite exact_regexp_atoms. step_action.
  unfold User_findOne_email. rewrite (find_ext _ (same_email e)).
  2:{ intros u. apply email_matches_same, exact_regexp_atoms. }
  destruct (find _ _) as [u|] eqn:F.
  { step_action. rewrite <- app_assoc. eauto. }
  apply find_existsb in F. rewrite F in Hinvalid.
  destruct (prop_get "password" (body req)) as [| | | |p| | | |] eqn:Hp; try done.
  step_action.
  destruct (Nat.ltb_spec (String.length (trim p)) 5) as [Hplen|Hplen].
  { step_action. rewrite <- app_assoc. eauto. }
  destruct (strict_eq_str _ p) eqn:Hconf; cbn [negb].
  - exfalso. apply Nat.leb_le in Hlen, Hplen.
    rewrite Hlen, Hplen in Hinvalid. discriminate.
  - step_action. rewrite <- app_assoc. eauto.
Qed.
End register_more.

(** *** A new user logs in *)

Section sanitise_flat.
Context (cfg : config) (shooks : list sanitise_hook).

Lemma field_value_flat (fuel : nat) (v : value) :
  flat v → ∃ out, field_value (call_sanitise cfg shooks (S fuel)) v = Ok out.
Proof.
  destruct v as [| | | | |l| | |]; try done;
    try (intros _; unfold field_value; cbn; rewrite ?andb_false_r; cbn; eauto; fail).
  intros Hl. unfold field_value. cbn [truthy has_sanitise andb mbind result_bind].
  assert (existsb is_nullish l = false) as ->.
  { induction Hl as [|x l Hx _ IH]; [done|]. cbn [existsb]. rewrite IH.
    by destruct x. }
  assert (∃ outs, rmap (fun val => if has_sanitise val
                                   then call_sanitise cfg shooks (S fuel) val
                                   else Ok val) l = Ok outs) as [outs ->].
  { induction Hl as [|x l Hx _ [outs IH]]; [by exists []|].
    cbn [rmap]. rewrite IH. destruct x; try done. cbn. eauto. }
  cbn. eauto.
Qed.

Lemma sanitise_fields_flat (fuel : nat) (u : user) (fs : list field_spec) (s : props) :
  (∀ k, flat (get u k)) →
  ∃ out, sanitise_fields (call_sanitise cfg shooks (S fuel)) u s fs = Ok out.
Proof.
  intros Hflat. revert s. induction fs as [|f fs IH]; intros s; [by eexists|].
  cbn [sanitise_fields]. rewrite sanitise_field_value.
  destruct (field_value_flat fuel _ (Hflat (field_name f))) as [v ->].
  cbn [mbind result_bind]. apply IH.
Qed.

Lemma User_sanitise_flat (u : user) (n : string) :
  name u = Ok n → (∀ k, flat (get u k)) → ∃ o, User_sanitise cfg shooks u = Ok o.
Proof.
  intros Hn Hflat. unfold User_sanitise, sanitise, sanitise_with.
  rewrite Hn. cbn [mbind result_bind]. destruct u as [id data].
  unfold VUser'. cbn [_id fields depth].
  destruct (sanitise_fields_flat
              (foldr (fun kx d => Nat.max (depth kx.2) d) O data)
              (User id data)
              (user_fields cfg)
              [ ("id", if truthy (get (User id data) "_id")
                       then VStr (to_string (get (User id data) "_id")) else VNull);
                ("_id", if truthy (get (User id data) "_id")
                        then VStr (to_string (get (User id data) "_id")) else VNull);
                ("name", VStr n);
                ("created_at", get (User id data) "created_at");
                ("updated_at", get (User id data) "updated_at") ] Hflat) as [out ->].
  cbn [mbind result_bind]. eauto.
Qed.
End sanitise_flat.

Lemma trim_long_nonempty (s : string) : (5 ≤ String.length (trim s))%nat → s ≠ "".
Proof. intros Hlen ->. cbn in Hlen. lia. Qed.

Lemma same_email_canon (e e' : string) (u : user) :
  string_canon e' = string_canon e → same_email e' u = same_email e u.
Proof. intros E. unfold same_email. by rewrite E. Qed.

Lemma find_app_none {A} (f : A → bool) (l : list A) (x : A) :
  existsb f l = false → f x = true → find f (l ++ [x]) = Some x.
Proof.
  intros Hl Hx. induction l as [|y l IH]; cbn in *.
  - by rewrite Hx.
  - destruct (f y); [done | auto].
Qed.

Section register_login.
Context `{Crypto} `{AclModel} (cfg : config) (shooks : list sanitise_hook).

Lemma registered_user_flat (d : database) (e p k : string) :
  flat (get (registered_user cfg d e p) k).
Proof.
  unfold get, registered_user. cbn [_id fields from_option].
  destruct (String.eqb k "_id"); [done|]. cbn [prop_get].
  destruct (String.eqb k "email"); [done|].
  destruct (String.eqb k "hash"); [done|].
  destruct (String.eqb k "acl"); [|done].
  cbn [flat]. apply Forall_fmap, Forall_true. intros a. exact I.
Qed.

Lemma registered_user_name (d : database) (e p : string) :
  e ≠ "" → name (registered_user cfg d e p) = Ok (trim e).
Proof.
  intros He. unfold name, get, registered_user. cbn.
  destruct (String.eqb_spec e ""); done.
Qed.

(** X7.  A registration that passes the local validations, with [_register] as
    the pre-handler, stores the new user last, binds it to the session, and
    from then on [_authenticate] accepts the registered password for the
    registered email, in any letter case. *)
Theorem register_then_login (req : request) (w : world) (e p : string) :
  prop_get "email" (body req) = VStr e →
  prop_get "password" (body req) = VStr p →
  locally_valid req (db w) = true →
  let u := registered_user cfg (db w) e p in
  ∃ w', registerSubmitAction eden_hook cfg [_register cfg] shooks req w = Ok (tt, w')
        ∧ users (db w') = users (db w) ++ [u]
        ∧ sessions w' = <[sessionID req := u]> (sessions w)
        ∧ ∀ email', string_canon email' = string_canon e →
                    _authenticate cfg email' p (db w') = Ok (authenticated u).
Proof.
  intros He Hp Hvalid u. unfold locally_valid, valid_password in Hvalid.
  rewrite He, Hp in Hvalid.
  apply andb_true_iff in Hvalid as [[Hlen Hfree]%andb_true_iff
                                      [Hplen Hconf]%andb_true_iff].
  apply Nat.leb_le in Hlen, Hplen. apply negb_true_iff in Hfree.
  pose proof (trim_long_nonempty _ Hlen) as Hne.
  destruct (User_sanitise_flat cfg shooks u (trim e)) as [o Ho].
  { by apply registered_user_name. }
  { intros k. apply registered_user_flat. }
  unfold registerSubmitAction. rewrite He, Hp. step_action.
  destruct (Nat.ltb_spec (String.length (trim e)) 5) as [?|_]; [lia|].
  rewrite exact_regexp_atoms. step_action. unfold User_findOne_email.
  rewrite (find_ext _ (same_email e)), (existsb_find _ _ Hfree).
  2:{ intros v. apply email_matches_same, exact_regexp_atoms. }
  destruct (Nat.ltb_spec (String.length (trim p)) 5) as [?|_]; [lia|].
  rewrite Hconf. cbn [negb]. unfold eden_hook. step_action.
  cbn [run_pre _register mbind result_bind p_user p_error].
  rewrite load_acls_resolve. cbn [app].
  replace (if (User_count (db w) =? 0)%nat then acl_default cfg ++ acl_admin cfg
           else acl_default cfg) with (register_specs cfg (db w)).
  2:{ unfold register_specs.
      destruct (Nat.eqb_spec (User_count (db w)) 0); case_decide; done. }
  unfold register_finalizer. cbn [truthy p_error p_user].
  unfold save. step_action. cbn [save_user set _id fields prop_set String.eqb
    Ascii.eqb Bool.eqb]. step_action. cbn [default negb].
  fold (registered_user cfg (db w) e p). fold u.
  change (id (false, u)) with (false, u). cbn iota beta. cbn [negb].
  rewrite req_login_bound by (by eexists).
  unfold register_logged_in, emit, _login. step_action.
  cbn [String.eqb Ascii.eqb Bool.eqb orb]. step_action.
  rewrite Ho. step_action.
  eexists. split; [reflexivity|]. cbn [db users sessions save_login].
  split; [done|]. split; [done|].
  intros email' Hcanon. rewrite _authenticate_find. cbn [users save_login db].
  rewrite (find_ext _ (same_email e)) by (intros v; by apply same_email_canon).
  rewrite (find_app_none _ _ u Hfree).
  2:{ unfold same_email, get, u, registered_user. cbn. by apply bool_decide_eq_true. }
  rewrite decide_True; [done|]. reflexivity.
Qed.
End register_login.

Lemma register_invalid_rejected_witness :
  match registerSubmitAction eden_hook sample_config [] []
          (register_form' "c@d.com" "abc") empty_world with
  | Ok (_, w) => db w = empty_database ∧ sessions w = ∅
  | _ => False
  end.
Proof.
  pose proof (register_invalid_rejected eden_hook sample_config [] []
                (register_form' "c@d.com" "abc") empty_world eq_refl) as Hr.
  destruct (registerSubmitAction _ _ _ _ _ _) as [[[] w]| |].
  - destruct Hr as (Hd & Hs & _). split; assumption.
  - discriminate Hr.
  - exact Hr.
Defined.

Lemma register_then_login_witness :
  let _ : AclModel := plain_acl_model in
  ∃ w, run_action (registerSubmitAction eden_hook sample_config
                     [_register sample_config] [] register_form) empty_world = Ok w
       ∧ (truthy ∘ done_user <$> _authenticate sample_config "C@D.COM" "secret2" (db w))
         = Ok true.
Proof.
  intros M.
  destruct (@register_then_login _ M sample_config [] register_form empty_world
              "c@d.com" "secret2" eq_refl eq_refl eq_refl)
    as (w & Hrun & _ & _ & Hlogin).
  exists w. unfold run_action. rewrite Hrun. split; [reflexivity|].
  rewrite (Hlogin "C@D.COM"); reflexivity.
Defined.

(** ** Forgotten passwords *)

Lemma canonicalize_to_lower (c : ascii) : canonicalize (to_lower c) = canonicalize c.
Proof. destruct c as [[] [] [] [] [] [] [] []]; reflexivity. Qed.

Lemma string_canon_toLowerCase (s : string) :
  string_canon (toLowerCase s) = string_canon s.
Proof.
  unfold string_canon. induction s as [|c s IH]; [done|].
  cbn [toLowerCase list_ascii_of_string map]. by rewrite canonicalize_to_lower, IH.
Qed.






Lemma find_elem {A} (f : A → bool) (l : list A) (x : A) :
  find f l = Some x → x ∈ l ∧ f x = true.
Proof. intros F. apply find_some in F as [Hin Hf]. by rewrite list_elem_of_In. Qed.

Section forgot.
Context `{Crypto} (cfg : config) (domain : string).

(** The forgot form and the login form resolve the same account. *)
Lemma forgot_lookup (e : string) (d : database) :
  ∃ re, exact_regexp (toLowerCase e) = Ok re
        ∧ User_findOne_email re d = find (same_email e) (users d).
Proof.
  eexists. split; [apply exact_regexp_atoms|]. unfold User_findOne_email.
  apply find_ext. intros u.
  rewrite (email_matches_same (toLowerCase e)) by apply exact_regexp_atoms.
  apply same_email_canon, string_canon_toLowerCase.
Qed.






End forgot.




(** ** What the routes do to the store *)









Section writes.
Context `{Crypto} (cfg : config) (domain : string)
        (hooks : list register_hook) (shooks : list sanitise_hook).






End writes.

Section routes.
Context `{Crypto} (cfg : config) (domain : string)
        (hooks : list register_hook) (shooks : list sanitise_hook).



End routes.





(** ** The browser side, continued *)

Lemma split_dot_plain (key : string) :
  Client.includes_dot key = false → Client.split_dot key = [key].
Proof.
  induction key as [|c key IH]; [done|]. cbn [Client.includes_dot Client.split_dot].
  intros [Hc Hk]%orb_false_iff. by rewrite IH, Hc.
Qed.

Lemma getPathSegments_simple (key : string) :
  simple_key key = true → Client.getPathSegments key = [key].
Proof.
  unfold simple_key. intros [[_ Hdot%negb_true_iff]%andb_true_iff Hd%negb_true_iff]%andb_true_iff.
  unfold Client.getPathSegments. rewrite split_dot_plain by done.
  cbn [Client.merge_escaped existsb]. by rewrite Hd.
Qed.

Lemma prop_get_missing (k : string) (o : props) :
  prop_has k o = false → prop_get k o = VUndef.
Proof.
  induction o as [|[k' v] o IH]; [done|]. cbn [prop_has prop_get].
  destruct (String.eqb k k'); [done | exact IH].
Qed.

Lemma dotProp_get_simple (o : props) (key : string) :
  simple_key key = true →
  Client.dotProp_get (VObj o) key VUndef = prop_get key o.
Proof.
  intros Hk. unfold Client.dotProp_get. cbn [Client.isObj negb].
  rewrite getPathSegments_simple by done.
  cbn [Client.get_path Client.own_property].
  destruct (prop_has key o) eqn:E.
  - by destruct (prop_get key o).
  - by rewrite prop_get_missing.
Qed.

Lemma dotProp_set_simple (o : props) (key : string) (x : value) :
  simple_key key = true →
  Client.dotProp_set (VObj o) key x = VObj (prop_set key x o).
Proof.
  intros Hk. unfold Client.dotProp_set. cbn [Client.isObj negb].
  by rewrite getPathSegments_simple.
Qed.

Lemma simple_key_nonempty (key : string) : simple_key key = true → String.eqb key "" = false.
Proof.
  unfold simple_key. by intros [[->%negb_true_iff _]%andb_true_iff _]%andb_true_iff.
Qed.

Lemma get_simple (this : Client.EdenUser) (o : props) (key : string) (d : value) :
  Client.__data this = VObj o → simple_key key = true →
  Client.get this key d = match prop_get key o with VUndef => d | got => got end.
Proof.
  intros Hd Hk. unfold Client.get.
  by rewrite simple_key_nonempty, Hd, dotProp_get_simple.
Qed.

Lemma remember_data (key : string) (this : Client.EdenUser) :
  Client.__data (Client.remember key this) = Client.__data this
  ∧ Client.emitted (Client.remember key this) = Client.emitted this
  ∧ Client.store_user (Client.remember key this) = Client.store_user this
  ∧ Client._events (Client.remember key this) = Client._events this
  ∧ key ∈ Client.__fields (Client.remember key this)
  ∧ ∀ k, k ∈ Client.__fields this → k ∈ Client.__fields (Client.remember key this).
Proof.
  unfold Client.remember. case_bool_decide as E; cbn; repeat split; try done.
  - apply elem_of_app. right. by left.
  - intros k Hk. apply elem_of_app. by left.
Qed.

Lemma includes_dot_simple (key : string) :
  simple_key key = true → Client.includes_dot key = false.
Proof.
  unfold simple_key. by intros [[_ ?%negb_true_iff]%andb_true_iff _]%andb_true_iff.
Qed.

(** [emit] throws for [error] when nobody listens, and for nothing else. *)
Lemma emit_heard (event : string) (args : list value) (this : Client.EdenUser) :
  heard this event →
  Client.emit event args this
  = Ok (Client.Build (Client.__data this) (Client.__fields this)
          (Client.emitted this ++ [(event, args)]) (Client.store_user this)
          (Client._events this)).
Proof.
  intros Hheard. unfold Client.emit.
  destruct (String.eqb_spec event "error") as [->|_]; [|done].
  destruct Hheard as [?|Hin]; [done|]. by rewrite bool_decide_eq_true_2.
Qed.

Lemma emit_unheard (args : list value) (this : Client.EdenUser) :
  "error" ∉ Client._events this →
  Client.emit "error" args this = Throw "Error: Unhandled error.".
Proof. intros Hout. unfold Client.emit. by rewrite bool_decide_eq_false_2. Qed.

Lemma set_simple (this : Client.EdenUser) (o : props) (key : string) (x : value) :
  Client.__data this = VObj o → simple_key key = true → heard this key →
  ∃ this', Client.set key x this = Ok this'
           ∧ Client.__data this' = VObj (prop_set key x o)
           ∧ Client.emitted this' = Client.emitted this ++ [(key, [x])]
           ∧ Client.store_user this' = Client.store_user this
           ∧ Client._events this' = Client._events this
           ∧ key ∈ Client.__fields this'
           ∧ ∀ k, k ∈ Client.__fields this → k ∈ Client.__fields this'.
Proof.
  intros Hd Hk Hheard. unfold Client.set. rewrite includes_dot_simple by done.
  rewrite Hd, dotProp_set_simple by done.
  set (this0 := Client.Build _ _ _ _ _).
  destruct (remember_data key this0) as (Ed & Ee & Es & Ev & Hin & Hmono).
  rewrite emit_heard.
  2:{ unfold heard. by rewrite Ev. }
  eexists. split; [reflexivity|].
  cbn [Client.__data Client.emitted Client.store_user Client.__fields Client._events].
  rewrite Ed, Ee, Es, Ev. repeat split; done.
Qed.

Lemma set_unheard (this : Client.EdenUser) (x : value) :
  "error" ∉ Client._events this →
  Client.set "error" x this = Throw "Error: Unhandled error.".
Proof.
  intros Hout. unfold Client.set.
  set (this0 := Client.Build _ _ _ _ _).
  destruct (remember_data "error" this0) as (_ & _ & _ & Ev & _).
  rewrite emit_unheard; [done|]. by rewrite Ev.
Qed.

(** X13.  What [set] stores under a key that names one property, [get] reads
    back; the other properties read as before; the key is announced with the
    value, once.  Under the key [error], with nobody listening to [error],
    the announcement is thrown instead. *)
Theorem set_then_get (this : Client.EdenUser) (o : props) (key : string)
    (x d : value) :
  Client.__data this = VObj o →
  simple_key key = true →
  (heard this key →
   ∃ this', Client.set key x this = Ok this'
            ∧ Client.get this' key d = (if x is VUndef then d else x)
            ∧ (∀ key', simple_key key' = true → key' ≠ key →
                       Client.get this' key' d = Client.get this key' d)
            ∧ Client.emitted this' = Client.emitted this ++ [(key, [x])]
            ∧ key ∈ Client.__fields this')
  ∧ (¬ heard this key → ∃ e, Client.set key x this = Throw e).
Proof.
  intros Hd Hk. split.
  - intros Hheard.
    destruct (set_simple this o key x Hd Hk Hheard)
      as (this' & Hrun & Ed & Ee & _ & _ & Hin & _).
    exists this'. split; [done|]. split; [|split; [|done]].
    + rewrite (get_simple this' _ key d Ed Hk), prop_get_set_eq. by destruct x.
    + intros key' Hk' Hne.
      rewrite (get_simple this' _ key' d Ed Hk'), (get_simple this o key' d Hd Hk').
      by rewrite prop_get_set_ne.
  - intros Hdeaf. unfold heard in Hdeaf.
    destruct (decide (key = "error")) as [->|Hne]; [|exfalso; auto].
    eexists. apply set_unheard. auto.
Qed.

(** *** Updates from the server *)

Lemma index_obj (u : props) (key : string) :
  Client.index (VObj u) key = prop_get key u.
Proof.
  unfold Client.index. cbn [Client.own_property].
  destruct (prop_has key u) eqn:E; [done|]. by rewrite prop_get_missing.
Qed.

Lemma get_simple_undef (this : Client.EdenUser) (o : props) (key : string) :
  Client.__data this = VObj o → simple_key key = true →
  Client.get this key VUndef = prop_get key o.
Proof.
  intros Hd Hk. rewrite (get_simple this o) by done. by destruct (prop_get key o).
Qed.

(** One round of the loop of [__update]. *)
Lemma update_key_simple (u o : props) (this : Client.EdenUser) (key : string) :
  Client.__data this = VObj o → simple_key key = true → heard this key →
  ∃ this' o', Client.update_key (VObj u) this key = Ok this'
        ∧ Client.__data this' = VObj o'
        ∧ same_json (prop_get key o') (prop_get key u)
        ∧ (∀ k, k ≠ key → prop_get k o' = prop_get k o)
        ∧ key ∈ Client.__fields this'
        ∧ (∀ k, k ∈ Client.__fields this → k ∈ Client.__fields this')
        ∧ Client.store_user this' = Client.store_user this
        ∧ Client._events this' = Client._events this.
Proof.
  intros Hd Hk Hheard. unfold Client.update_key.
  rewrite index_obj, (get_simple_undef this o) by done.
  case_bool_decide as E; cbn [negb mbind result_bind].
  - destruct (remember_data key this) as (Ed & _ & Es & Ev & Hin & Hmono).
    eexists _, o. split; [reflexivity|]. rewrite Ed, Hd. repeat split; done.
  - destruct (set_simple this o key (prop_get key u) Hd Hk Hheard)
      as (this1 & -> & Ed & _ & Es & Ev & Hin & Hmono).
    cbn [mbind result_bind].
    destruct (remember_data key this1) as (Ed' & _ & Es' & Ev' & Hin' & Hmono').
    eexists _, (prop_set key (prop_get key u) o). split; [reflexivity|].
    rewrite Ed', Ed, Es', Es, Ev', Ev. repeat split; try done.
    + unfold same_json. by rewrite prop_get_set_eq.
    + intros k Hne. by rewrite prop_get_set_ne.
    + auto.
Qed.

(** The loop of [__update] over the keys of the payload. *)
Lemma update_keys_simple (u : props) (keys : list string) (o : props)
    (this : Client.EdenUser) :
  Client.__data this = VObj o →
  Forall (fun k => simple_key k = true) keys →
  (∀ k, k ∈ keys → heard this k) →
  ∃ this' o', Client.forEach (Client.update_key (VObj u)) this keys = Ok this'
        ∧ Client.__data this' = VObj o'
        ∧ (∀ k, k ∈ keys → same_json (prop_get k o') (prop_get k u)
                           ∧ k ∈ Client.__fields this')
        ∧ (∀ k, k ∉ keys → prop_get k o' = prop_get k o)
        ∧ (∀ k, k ∈ Client.__fields this → k ∈ Client.__fields this')
        ∧ Client.store_user this' = Client.store_user this
        ∧ Client._events this' = Client._events this.
Proof.
  intros Hd Hkeys. revert o this Hd.
  induction Hkeys as [|key keys Hk _ IH]; intros o this Hd Hheard.
  - exists this, o. split; [done|]. split; [done|]. split; [|done].
    intros k []%elem_of_nil.
  - cbn [Client.forEach].
    destruct (update_key_simple u o this key Hd Hk)
      as (this1 & o1 & -> & Hd1 & Hjson & Hkeep & Hin & Hmono & Hs & Hv);
      [apply Hheard; by left|].
    cbn [mbind result_bind].
    destruct (IH o1 this1 Hd1) as (this2 & o2 & Hrun & Hd2 & Hall & Hkeep2 & Hmono2 & Hs2 & Hv2).
    { intros k Hin'. unfold heard. rewrite Hv. apply Hheard. by right. }
    exists this2, o2. split; [done|]. split; [done|]. split; [|split; [|split]].
    + intros k Hin'. destruct (decide (k ∈ keys)) as [Hold|Hnew]; [auto|].
      apply elem_of_cons in Hin' as [->|?]; [|done].
      rewrite (Hkeep2 key Hnew). auto.
    + intros k [Hne Hnot]%not_elem_of_cons. rewrite (Hkeep2 k Hnot). auto.
    + auto.
    + split; congruence.
Qed.

Lemma update_key_settled (user : value) (this : Client.EdenUser) (key : string) :
  same_json (Client.get this key VUndef) (Client.index user key) →
  key ∈ Client.__fields this →
  Client.update_key user this key = Ok this.
Proof.
  intros Hjson Hin. unfold Client.update_key, Client.remember.
  rewrite (bool_decide_eq_true_2 _ Hjson). cbn [negb mbind result_bind].
  by rewrite bool_decide_eq_true_2.
Qed.

Lemma update_keys_settled (user : value) (this : Client.EdenUser) (keys : list string) :
  (∀ k, k ∈ keys → same_json (Client.get this k VUndef) (Client.index user k)
                   ∧ k ∈ Client.__fields this) →
  Client.forEach (Client.update_key user) this keys = Ok this.
Proof.
  induction keys as [|key keys IH]; intros Hall; [done|]. cbn [Client.forEach].
  destruct (Hall key) as [Hjson Hin]; [by left|].
  rewrite update_key_settled by done. cbn [mbind result_bind].
  apply IH. intros k Hk. apply Hall. by right.
Qed.

(** An [error] member that is news, with nobody listening to [error]: the
    loop throws when it comes to it. *)
Lemma update_keys_unheard (u : props) (keys : list string) (o : props)
    (this : Client.EdenUser) :
  Client.__data this = VObj o →
  Forall (fun k => simple_key k = true) keys →
  "error" ∈ keys →
  ¬ same_json (prop_get "error" o) (prop_get "error" u) →
  "error" ∉ Client._events this →
  Client.forEach (Client.update_key (VObj u)) this keys
  = Throw "Error: Unhandled error.".
Proof.
  intros Hd Hkeys. revert o this Hd.
  induction Hkeys as [|key keys Hk _ IH]; intros o this Hd Hin Hnews Hdeaf.
  - by apply elem_of_nil in Hin.
  - cbn [Client.forEach]. destruct (decide (key = "error")) as [->|Hne].
    + unfold Client.update_key.
      rewrite index_obj, (get_simple_undef this o) by done.
      rewrite (bool_decide_eq_false_2 _ Hnews). cbn [negb].
      by rewrite set_unheard.
    + apply elem_of_cons in Hin as [?|Hin]; [done|].
      destruct (update_key_simple u o this key Hd Hk)
        as (this1 & o1 & -> & Hd1 & _ & Hkeep & _ & _ & _ & Hv); [by left|].
      cbn [mbind result_bind]. apply (IH o1); [done..| |].
      * by rewrite (Hkeep "error").
      * by rewrite Hv.
Qed.

Section update.
Context (this : Client.EdenUser) (o u : props).
Hypothesis data_object : Client.__data this = VObj o.
Hypothesis keys_simple : Forall (fun k => simple_key k = true) u.*1.
Hypothesis not_a_store : truthy (prop_get "__data" u) = false.

Lemma update_object_run :
  Client.__update (Client.Payload (VObj u)) this
  = (this' ← Client.forEach (Client.update_key (VObj u))
               (Client.Build (Client.__data this) (Client.__fields this)
                  (Client.emitted this) true (Client._events this)) u.*1;
     Client.emit "update" [] this').
Proof.
  unfold Client.__update. cbn [Client.own_property].
  assert (truthy (default VUndef (if prop_has "__data" u
                                  then Some (prop_get "__data" u) else None))
          = false) as ->.
  { by destruct (prop_has "__data" u). }
  reflexivity.
Qed.

(** X14.  After an update with an object none of whose keys is an [error] that
    nobody listens to, the store has, under every key of the object, a value
    that serialises as the one delivered; the properties that the object
    does not name are kept as they were; [update] is the last event emitted.
    An [error] member that is news, with nobody listening to [error], makes
    the update throw. *)
Theorem update_agrees (d : value) :
  ((∀ k, k ∈ u.*1 → heard this k) →
   ∃ this', Client.__update (Client.Payload (VObj u)) this = Ok this'
            ∧ (∀ k, k ∈ u.*1 →
                    same_json (Client.get this' k VUndef) (prop_get k u)
                    ∧ k ∈ Client.__fields this')
            ∧ (∀ k, simple_key k = true → k ∉ u.*1 →
                    Client.get this' k d = Client.get this k d)
            ∧ last (Client.emitted this') = Some ("update", []))
  ∧ ("error" ∈ u.*1 →
     ¬ same_json (Client.get this "error" VUndef) (prop_get "error" u) →
     "error" ∉ Client._events this →
     ∃ e, Client.__update (Client.Payload (VObj u)) this = Throw e).
Proof.
  split.
  - intros Hheard. rewrite update_object_run.
    set (this0 := Client.Build _ _ _ true _).
    destruct (update_keys_simple u u.*1 o this0 data_object keys_simple Hheard)
      as (this1 & o' & -> & Hd & Hall & Hkeep & _ & _ & _).
    cbn [mbind result_bind]. rewrite emit_heard by (by left).
    eexists. split; [reflexivity|].
    set (this' := Client.Build _ _ _ _ _).
    assert (Client.__data this' = VObj o') as Hd' by done.
    split; [|split].
    + intros k Hk. destruct (Hall k Hk) as [Hjson Hin]. split; [|done].
      rewrite (get_simple_undef _ o'); [done..|].
      by eapply Forall_forall in keys_simple.
    + intros k Hk Hnot.
      rewrite (get_simple _ o' k d Hd' Hk), (get_simple this o k d data_object Hk).
      by rewrite Hkeep.
    + cbn [Client.emitted]. apply last_snoc.
  - intros Hin Hnews Hdeaf. rewrite update_object_run.
    rewrite (get_simple_undef this o) in Hnews by done.
    rewrite (update_keys_unheard u u.*1 o); [by eexists|done..].
Qed.

(** X15.  The same object delivered again changes nothing and announces no key:
    [update] alone is emitted. *)
Theorem update_again :
  (∀ k, k ∈ u.*1 → heard this k) →
  ∃ a, Client.__update (Client.Payload (VObj u)) this = Ok a
       ∧ Client.__update (Client.Payload (VObj u)) a
         = Ok (Client.Build (Client.__data a) (Client.__fields a)
                 (Client.emitted a ++ [("update", [])]) (Client.store_user a)
                 (Client._events a)).
Proof.
  intros Hheard. rewrite update_object_run.
  set (this0 := Client.Build _ _ _ true _).
  destruct (update_keys_simple u u.*1 o this0 data_object keys_simple Hheard)
    as (this1 & o' & -> & Hd & Hall & _ & _ & Hs & _).
  cbn [mbind result_bind]. rewrite emit_heard by (by left).
  eexists. split; [reflexivity|].
  set (a := Client.Build _ _ _ _ _).
  assert (Client.__data a = VObj o') as Hd' by done.
  unfold Client.__update. cbn [Client.own_property].
  assert (truthy (default VUndef (if prop_has "__data" u
                                  then Some (prop_get "__data" u) else None))
          = false) as ->.
  { by destruct (prop_has "__data" u). }
  cbn [truthy negb].
  replace (Client.Build (Client.__data a) (Client.__fields a) (Client.emitted a)
             true (Client._events a)) with a.
  2:{ unfold a. cbn. by rewrite Hs. }
  rewrite update_keys_settled.
  - cbn [mbind result_bind]. by rewrite emit_heard by (by left).
  - intros k Hk. destruct (Hall k Hk) as [Hjson Hin]. split; [|done].
    rewrite index_obj, (get_simple_undef _ o'); [done..|].
    by eapply Forall_forall in keys_simple.
Qed.
End update.

Lemma set_then_get_witness :
  (∃ this', Client.set "name" (VStr "Ada") ada_store = Ok this'
            ∧ Client.get this' "name" VNull = VStr "Ada")
  ∧ (∃ e, Client.set "error" (VStr "boom") ada_store = Throw e)
  ∧ (∃ this', Client.set "error" (VStr "boom") (Client.on "error" ada_store)
              = Ok this'
              ∧ Client.get this' "error" VNull = VStr "boom").
Proof.
  split; [|split].
  - destruct (set_then_get ada_store _ "name" (VStr "Ada") VNull eq_refl eq_refl)
      as [Hset _].
    destruct Hset as (this' & Hrun & Hget & _); [left; discriminate|].
    exists this'. split; [exact Hrun | exact Hget].
  - destruct (set_then_get ada_store _ "error" (VStr "boom") VNull eq_refl eq_refl)
      as [_ Hthrow].
    apply Hthrow. intros [Hne|Hin]; [by apply Hne | by apply elem_of_nil in Hin].
  - destruct (set_then_get (Client.on "error" ada_store) _ "error" (VStr "boom")
                VNull eq_refl eq_refl) as [Hset _].
    destruct Hset as (this' & Hrun & Hget & _); [right; by left|].
    exists this'. split; [exact Hrun | exact Hget].
Defined.

Lemma ada_payload_heard (k : string) : k ∈ ada_payload.*1 → heard ada_store k.
Proof.
  intros Hk. left. intros ->. cbn in Hk.
  repeat (apply elem_of_cons in Hk as [Hk|Hk]; [discriminate|]).
  by apply elem_of_nil in Hk.
Qed.

Lemma update_agrees_witness :
  (∃ this', Client.__update (Client.Payload (VObj ada_payload)) ada_store = Ok this'
            ∧ Client.get this' "credit" VUndef = VNum 0)
  ∧ (∃ e, Client.__update (Client.Payload (VObj [("error", VStr "boom")])) ada_store
          = Throw e).
Proof.
  split.
  - destruct (update_agrees ada_store _ ada_payload eq_refl) with (d := VUndef)
      as [Hok _].
    + repeat constructor.
    + reflexivity.
    + destruct (Hok ada_payload_heard) as (this' & Hrun & _ & Hkept & _).
      exists this'. split; [exact Hrun|]. rewrite Hkept; [reflexivity..|].
      cbn. set_solver.
  - destruct (update_agrees ada_store _ [("error", VStr "boom")] eq_refl)
      with (d := VUndef) as [_ Hthrow].
    + repeat constructor.
    + reflexivity.
    + apply Hthrow.
      * by left.
      * discriminate.
      * apply not_elem_of_nil.
Defined.

Lemma update_again_witness :
  ∃ a, Client.__update (Client.Payload (VObj ada_payload)) ada_store = Ok a
       ∧ (Client.emitted <$> Client.__update (Client.Payload (VObj ada_payload)) a)
         = Ok (Client.emitted a ++ [("update", [])]).
Proof.
  destruct (update_again ada_store _ ada_payload eq_refl) as (a & Hrun & Hagain).
  - repeat constructor.
  - reflexivity.
  - exact ada_payload_heard.
  - exists a. split; [exact Hrun|]. rewrite Hagain. reflexivity.
Defined.

(** ** The server side view *)

(** X16.  On the server a stored value that is falsy reads as the default; in the
    browser it reads as itself.  The two agree exactly when the stored value
    is truthy, is [undefined], or is the default. *)
Theorem mixin_get_differs (m : Mixin.user_view) (c : Client.EdenUser) (o : props)
    (key : string) (d : value) :
  Mixin.__data m = VObj o →
  Client.__data c = VObj o →
  simple_key key = true →
  let v := prop_get key o in
  Mixin.get m key d = (if truthy v then v else d)
  ∧ Client.get c key d = (if v is VUndef then d else v)
  ∧ (Mixin.get m key d = Client.get c key d ↔ truthy v = true ∨ v = VUndef ∨ v = d).
Proof.
  intros Hm Hc Hk v.
  assert (Mixin.get m key d = if truthy v then v else d) as Em.
  { unfold Mixin.get. by rewrite simple_key_nonempty, Hm, dotProp_get_simple. }
  assert (Client.get c key d = if v is VUndef then d else v) as Ec.
  { rewrite (get_simple c o) by done. fold v. by destruct v. }
  split; [done|]. split; [done|]. rewrite Em, Ec.
  destruct (truthy v) eqn:Ht.
  - split; [auto|]. intros _. by destruct v.
  - split.
    + intros E. destruct v; auto.
    + intros [?|[->| ->]]; [done|done|]. by destruct d.
Qed.

(** ** Refreshing the store *)

(** X17.  For a session without a user [refreshAction] answers [null], and
    [__update] fails on [null]: it reads [user.__data] before it tests
    [user]. *)
Theorem refresh_anonymous `{Crypto} (cfg : config) (shooks : list sanitise_hook)
    (opts : listen_opts) (this : Client.EdenUser) :
  opts_user opts = None →
  ∃ answer, refreshAction cfg shooks opts = Ok answer
            ∧ answer = VNull
            ∧ Client.refresh answer this
              = Throw "TypeError: Cannot read property '__data' of null".
Proof.
  intros Hu. exists VNull. unfold refreshAction. rewrite Hu. done.
Qed.

(** ** sanitise, continued *)

Lemma sanitise_fields_keys (call : value → result value) (this : user)
    (fs : list field_spec) (s out : props) (k : string) :
  sanitise_fields call this s fs = Ok out →
  prop_has k out = prop_has k s || bool_decide (k ∈ field_name <$> fs).
Proof.
  revert s. induction fs as [|f fs IH]; intros s; cbn [sanitise_fields].
  - intros [= ->]. by rewrite orb_false_r.
  - rewrite sanitise_field_value.
    destruct (field_value call _) as [v| |]; try done.
    cbn [mbind result_bind]. intros Hrun. rewrite (IH _ Hrun), prop_has_set.
    cbn [fmap list_fmap]. destruct (String.eqb_spec k (field_name f)) as [->|Hne].
    + rewrite (bool_decide_eq_true_2 (_ ∈ _ :: _)) by left.
      by rewrite !orb_true_r.
    + cbn [orb]. f_equal. apply bool_decide_ext. rewrite elem_of_cons. naive_solver.
Qed.

Lemma prop_has_keys (k : string) (o : props) :
  prop_has k o = bool_decide (k ∈ o.*1).
Proof.
  induction o as [|[k' v] o IH]; [done|]. cbn [prop_has fmap list_fmap fst].
  rewrite IH. destruct (String.eqb_spec k k') as [->|Hne]; cbn [orb].
  - symmetry. apply bool_decide_eq_true. by left.
  - apply bool_decide_ext. rewrite elem_of_cons. naive_solver.
Qed.

Lemma base_object_keys (u : user) (n k : string) :
  prop_has k (base_object u n) = bool_decide (k ∈ base_keys).
Proof. by rewrite prop_has_keys. Qed.

Section sanitise_keys.
Context (cfg : config).

(** X18.  The object that [sanitise] returns has the five keys it always writes
    and the configured fields, and no other key; under a key that is not a
    configured field it has what it wrote first: the id (twice), the display
    name and the two timestamps. *)
Theorem sanitise_whitelist (fuel : nat) (u : user) (out : props) :
  sanitise cfg [] fuel u = Ok out →
  (∀ k, prop_has k out = true ↔ k ∈ base_keys ++ field_names cfg)
  ∧ ∃ n, name u = Ok n
         ∧ ∀ k, k ∉ field_names cfg → prop_get k out = prop_get k (base_object u n).
Proof.
  unfold sanitise, sanitise_with. destruct (name u) as [n| |]; try done.
  cbn [mbind result_bind foldl].
  destruct (sanitise_fields _ _ _ _) as [s| |] eqn:Hs; try done.
  cbn [mbind result_bind]. intros [= <-].
  assert ([ ("id", if truthy (get u "_id") then VStr (to_string (get u "_id"))
                   else VNull);
            ("_id", if truthy (get u "_id") then VStr (to_string (get u "_id"))
                    else VNull);
            ("name", VStr n); ("created_at", get u "created_at");
            ("updated_at", get u "updated_at") ] = base_object u n) as Hbase.
  { unfold base_object, get. cbn. destruct (_id u) as [i|]; [|done]. cbn.
    by destruct (String.eqb i ""). }
  rewrite Hbase in Hs. split.
  - intros k. rewrite (sanitise_fields_keys _ _ _ _ _ k Hs), base_object_keys.
    rewrite orb_true_iff, !bool_decide_eq_true, elem_of_app. done.
  - exists n. split; [done|]. intros k Hk.
    by destruct (sanitise_fields_has _ _ _ _ _ k Hs Hk) as [_ ->].
Qed.
End sanitise_keys.

(** ** The display name, continued *)

Lemma trimEnd_idem (s : string) : trimEnd (trimEnd s) = trimEnd s.
Proof.
  induction s as [|c s IH]; [done|]. cbn [trimEnd].
  destruct (trimEnd s) as [|c' r] eqn:E.
  - destruct (is_ws c) eqn:W; [done|]. cbn [trimEnd]. by rewrite W.
  - cbn [trimEnd] in *. by rewrite IH.
Qed.

Lemma trimStart_fixed (s : string) :
  match s with String c _ => is_ws c = false | EmptyString => True end →
  trimStart (trimEnd s) = trimEnd s.
Proof.
  destruct s as [|c s]; [done|]. intros W. cbn [trimEnd].
  destruct (trimEnd s); rewrite ?W; cbn [trimStart]; by rewrite W.
Qed.

Lemma trimStart_head (s : string) :
  match trimStart s with String c _ => is_ws c = false | EmptyString => True end.
Proof.
  induction s as [|c s IH]; [done|]. cbn [trimStart].
  by destruct (is_ws c) eqn:W.
Qed.

Lemma trim_idem (s : string) : trim (trim s) = trim s.
Proof.
  unfold trim. rewrite (trimStart_fixed (trimStart s)) by apply trimStart_head.
  apply trimEnd_idem.
Qed.

Lemma call_trim_trimmed (v : value) (s : string) : call_trim v = Ok s → trim s = s.
Proof. destruct v; try done. intros [= <-]. apply trim_idem. Qed.

(** X19.  What [name] answers has no white space at either end. *)
Theorem name_is_trimmed (u : user) (s : string) : name u = Ok s → trim s = s.
Proof.
  unfold name. destruct (call_trim _) as [t| |] eqn:E; try done.
  cbn [mbind result_bind]. destruct (String.length t =? 0)%nat.
  - apply call_trim_trimmed.
  - apply call_trim_trimmed.
Qed.

Lemma mixin_get_differs_witness :
  Mixin.get ada_view "credit" (VNum 10) = VNum 10
  ∧ Client.get ada_store "credit" (VNum 10) = VNum 0.
Proof.
  destruct (mixin_get_differs ada_view ada_store _ "credit" (VNum 10)
              eq_refl eq_refl eq_refl) as (Hm & Hc & _).
  rewrite Hm, Hc. split; reflexivity.
Defined.

Lemma refresh_anonymous_witness :
  ∃ answer, refreshAction sample_config [] (Opts "socket-1" None "session-1") = Ok answer
            ∧ Client.refresh answer ada_store
              = Throw "TypeError: Cannot read property '__data' of null".
Proof.
  destruct (refresh_anonymous sample_config [] (Opts "socket-1" None "session-1")
              ada_store eq_refl) as (answer & Hrun & _ & Hthrow).
  exists answer. split; assumption.
Defined.

Lemma sanitise_whitelist_witness :
  ∃ out, sanitise nested_config [] 2 nested = Ok out
         ∧ prop_has "hash" out = false
         ∧ prop_has "friend" out = true.
Proof.
  eexists. split; [reflexivity|].
  edestruct (sanitise_whitelist nested_config 2 nested) as [Hkeys _];
    [reflexivity|].
  split.
  - match goal with |- prop_has ?k ?o = false =>
      destruct (prop_has k o) eqn:E; [|reflexivity] end.
    apply Hkeys in E. cbn in E. set_solver.
  - apply Hkeys. cbn. set_solver.
Defined.

Lemma name_is_trimmed_witness : trim "Ada Lovelace" = "Ada Lovelace".
Proof. apply (name_is_trimmed ada). reflexivity. Defined.

Lemma shown_name_value (u : user) :
  textual (get u "name") = true →
  textual (get u "first") = true →
  textual (get u "last") = true →
  js_or (get u "name")
    (VStr (to_string (js_or (get u "first") (VStr "")) +:+ " "
           +:+ to_string (js_or (get u "last") (VStr "")))) = VStr (shown_name u).
Proof.
  intros Tn Tf Tl. rewrite !js_or_text by done. unfold shown_name, js_or.
  destruct (get u "name") as [| | | |n| | | |]; try done.
  cbn [truthy text]. by destruct (String.eqb n "").
Qed.

(** X20.  With text or nothing in its five fields, [name] fails exactly when no
    name shows, there is no username, and the email is not a string. *)
Theorem name_fails_without_fields (u : user) :
  display_fields_textual u = true →
  (∃ e, name u = Throw e)
  ↔ blank (shown_name u) = true
    ∧ text (get u "username") = ""
    ∧ is_text (get u "email") = false.
Proof.
  unfold display_fields_textual. cbn [forallb].
  rewrite !andb_true_iff. intros (Tn & Tf & Tl & Tu & Te & _).
  rewrite (name_of_str u (shown_name u)) by by apply shown_name_value.
  destruct (blank (shown_name u)).
  2:{ split; [by intros [e ?] | by intros [? _]]. }
  unfold js_or.
  destruct (get u "username") as [| | | |s| | | |]; try done; cbn [truthy text].
  3:{ destruct (String.eqb_spec s "") as [->|Hs]; cbn [negb].
      - destruct (get u "email"); try done; cbn; split;
          try (by intros [? ?]); try (by intros (_ & _ & ?)); eauto.
      - split; [by intros [? ?]|]. by intros (_ & ? & _). }
  all: destruct (get u "email"); try done; cbn; split;
    try (by intros [? ?]); try (by intros (_ & _ & ?)); eauto.
Qed.

(** ** The bootstrap and the first registration *)

Section bootstrap_register.
Context `{AclModel} (cfg : config).

Lemma resolve_all (d : database) (specs : list acl_spec) :
  (∀ spec, spec ∈ specs → Acl_count (spec_name spec) d ≠ 0%nat) →
  acl_name <$> resolve d specs = spec_name <$> specs.
Proof.
  induction specs as [|spec specs IH]; intros Hall; [done|].
  unfold resolve. cbn [omap list_omap]. fold (resolve d specs).
  destruct (Acl_findOne (spec_name spec) d) as [a|] eqn:F.
  - cbn [fmap list_fmap]. f_equal.
    + by apply Acl_findOne_Some in F as [_ ?].
    + apply IH. intros s Hs. apply Hall. by right.
  - exfalso. apply (Hall spec); [by left|].
    destruct (Acl_count (spec_name spec) d) eqn:E; [done|].
    assert (Acl_count (spec_name spec) d ≠ 0%nat) as Hpos by lia.
    apply Acl_count_pos in Hpos as (a & Ha & En).
    by eapply Acl_findOne_None in F.
Qed.

(** X21.  Once [_acl] has run, [_register] finds a record for every name it looks
    up: the new user gets one record per configured entry, in order. *)
Theorem bootstrap_then_register (d : database) (req : request)
    (obj : register_payload) :
  let d' := bootstrap cfg d in
  ∃ obj' l, _register cfg d' req obj = Ok obj'
            ∧ get (p_user obj') "acl" = VArr (VAcl <$> l)
            ∧ acl_name <$> l = spec_name <$> register_specs cfg d'
            ∧ users d' = users d.
Proof.
  intros d'. exists (RegisterPayload (set "acl"
                       (VArr (VAcl <$> resolve d' (register_specs cfg d')))
                       (p_user obj)) (p_error obj)),
                    (resolve d' (register_specs cfg d')).
  split; [|split; [|split]].
  - unfold _register. rewrite load_acls_resolve. cbn [app].
    do 4 f_equal. unfold register_specs.
    destruct (Nat.eqb_spec (User_count d') 0); case_decide; done.
  - cbn [p_user]. by rewrite get_set_eq.
  - apply resolve_all. intros spec Hs. apply bootstrap_all_exist.
    unfold register_specs in Hs. case_decide; [done|].
    apply elem_of_app. by left.
  - by destruct (bootstrap_keeps cfg d) as (new & _ & ?).
Qed.
End bootstrap_register.

Lemma name_fails_without_fields_witness :
  ∃ e, name (User (Some "3") [("first", VStr " "); ("last", VNull)]) = Throw e.
Proof. apply name_fails_without_fields; [reflexivity|]. repeat split. Defined.

(** ** Password reset, continued *)

Section reset_more.
Context `{Crypto} (cfg : config).

(** X22.  A reset request without a token that a stored user holds, or without a
    valid password, changes nothing in the store and binds no session.  It
    fails only when the token is there and the password is not a string. *)
Theorem reset_invalid_rejected (req : request) (w : world) :
  reset_valid req (db w) = false →
  is_text (prop_get "token" (body req)) || negb (truthy (prop_get "token" (body req)))
  = true →
  match resetSubmitAction cfg req w with
  | Ok (_, w') =>
      db w' = db w ∧ sessions w' = sessions w
      ∧ ∃ t, trace w' = trace w ++ t
             ∧ (last t = Some (Redirect (VStr "/forgot"))
                ∨ last t = Some (Render "reset" [("token", prop_get "token" (body req))]))
  | Throw _ => is_text (prop_get "password" (body req)) = false
  | Timeout => False
  end.
Proof.
  intros Hinvalid Htext. unfold resetSubmitAction, render_reset.
  destruct (truthy (prop_get "token" (body req))) eqn:Htruthy; cbn [negb].
  2:{ step_action. repeat split. eexists. split; [reflexivity|]. by left. }
  rewrite orb_false_r in Htext. unfold reset_valid, valid_password in Hinvalid.
  destruct (prop_get "token" (body req)) as [| | | |t| | | |] eqn:Ht;
    try discriminate Htext.
  assert (String.eqb t "" = false) as Hne.
  { cbn in Htruthy. by destruct (String.eqb t ""). }
  rewrite Hne in Hinvalid. cbn [negb andb] in Hinvalid.
  step_action. unfold User_findOne_token.
  destruct (find _ _) as [u|] eqn:F.
  2:{ step_action. repeat split. eexists. split; [by rewrite <- app_assoc|].
      by left. }
  assert (existsb (fun u => strict_eq_str (get u "token") t) (users (db w)) = true)
    as He.
  { destruct (existsb _ _) eqn:E; [done|]. by rewrite (existsb_find _ _ E) in F. }
  rewrite He in Hinvalid. cbn [negb andb] in Hinvalid.
  destruct (prop_get "password" (body req)) as [| | | |pw| | | |] eqn:Hp; try done.
  step_action.
  destruct (Nat.ltb_spec (String.length (trim pw)) 5) as [Hlen|Hlen].
  { step_action. repeat split. eexists. split; [by rewrite <- app_assoc|]. by right. }
  destruct (strict_eq_str _ pw) eqn:Hconf; cbn [negb].
  - exfalso. apply Nat.leb_le in Hlen. rewrite Hlen in Hinvalid. discriminate.
  - step_action. repeat split. eexists. split; [by rewrite <- app_assoc|]. by right.
Qed.
End reset_more.

(** ** Forgotten passwords, continued *)

(** X23.  [forgotAction] writes nothing and binds nothing.  It shows the reset
    form, with the token of the request, exactly when that token is a string
    that a stored user holds; another token gets the alert and the forgot
    form, no token the forgot form alone. *)
Theorem forgotAction_outcome (req : request) (w : world) :
  let token := prop_get "token" (query req) in
  is_text token || negb (truthy token) = true →
  forgotAction req w
  = Ok (tt, World (db w) (sessions w)
              (trace w ++
                 if negb (truthy token) then [Render "forgot" []]
                 else if existsb (fun u => strict_eq_str (get u "token") (text token))
                           (users (db w))
                      then [Render "reset" [("token", token)]]
                      else [ Alert "error" "The token you have sent is invalid";
                             Render "forgot" [] ])).
Proof.
  intros token Htext. unfold forgotAction. fold token.
  destruct (truthy token) eqn:Htruthy; cbn [negb]; [|reflexivity].
  rewrite orb_false_r in Htext. destruct token as [| | | |t| | | |]; try done.
  step_action. unfold User_findOne_token. cbn [text].
  destruct (find _ _) as [u|] eqn:F.
  - apply find_elem in F as [Hin Hu].
    assert (existsb (fun u => strict_eq_str (get u "token") t) (users (db w)) = true)
      as ->.
    { apply existsb_exists. exists u. by rewrite <- list_elem_of_In. }
    apply strict_eq_str_spec in Hu. rewrite Hu. reflexivity.
  - rewrite (find_existsb _ _ F). step_action. by rewrite <- app_assoc.
Qed.

Lemma hex_length (bytes : list Z) :
  String.length (SHA256.hex bytes) = (2 * length bytes)%nat.
Proof.
  induction bytes as [|b bytes IH]; [done|]. cbn [SHA256.hex String.length length].
  rewrite IH. lia.
Qed.

Lemma substring_all (s : string) : substring 0 (String.length s) s = s.
Proof. induction s as [|c s IH]; [done|]. cbn. by rewrite IH. Qed.

Lemma hex_char_digit (n : Z) :
  0 ≤ n < 16 → SHA256.hex_char n ∈ list_ascii_of_string "0123456789abcdef".
Proof.
  intros Hn.
  assert (n = 0 ∨ n = 1 ∨ n = 2 ∨ n = 3 ∨ n = 4 ∨ n = 5 ∨ n = 6 ∨ n = 7 ∨ n = 8
          ∨ n = 9 ∨ n = 10 ∨ n = 11 ∨ n = 12 ∨ n = 13 ∨ n = 14 ∨ n = 15) as Hcases
    by lia.
  repeat (destruct Hcases as [->|Hcases]; [cbn; set_solver|]).
  subst n. cbn. set_solver.
Qed.

Lemma hex_digits (bytes : list Z) :
  Forall (fun b => 0 ≤ b < 256) bytes →
  Forall (fun c => c ∈ list_ascii_of_string "0123456789abcdef")
    (list_ascii_of_string (SHA256.hex bytes)).
Proof.
  induction 1 as [|b bytes Hb _ IH]; [constructor|].
  cbn [SHA256.hex list_ascii_of_string].
  apply Forall_cons. split; [|apply Forall_cons; split; [|exact IH]].
  - apply hex_char_digit. rewrite Z.shiftr_div_pow2 by lia.
    change (2 ^ 4) with 16. split; [apply Z.div_pos; lia|].
    apply Z.div_lt_upper_bound; lia.
  - apply hex_char_digit. change 15 with (Z.ones 4). rewrite Z.land_ones by lia.
    change (2 ^ 4) with 16. apply Z.mod_pos_bound. lia.
Qed.

(** X24.  The reset token is the twelve random bytes in hexadecimal: twenty-four
    characters, digits and the letters a to f; the [slice] cuts nothing. *)
Theorem reset_token_format (random : list Z) :
  length random = 12%nat →
  Forall (fun b => 0 ≤ b < 256) random →
  reset_token random = SHA256.hex random
  ∧ String.length (reset_token random) = 24%nat
  ∧ Forall (fun c => c ∈ list_ascii_of_string "0123456789abcdef")
      (list_ascii_of_string (reset_token random)).
Proof.
  intros Hlen Hbytes.
  assert (reset_token random = SHA256.hex random) as E.
  { unfold reset_token, slice. cbn [Nat.sub].
    replace 24%nat with (String.length (SHA256.hex random))
      by (rewrite hex_length; lia).
    apply substring_all. }
  rewrite E, hex_length. split; [done|]. split; [lia|]. by apply hex_digits.
Qed.

(** ** sanitise, continued: a sequence with a hole *)

Section sanitise_hole.
Context (cfg : config) (shooks : list sanitise_hook).

(** X25.  When a configured field holds a sequence with [null] or [undefined]
    among its elements, [sanitise] fails: it reads [val.sanitise] of the
    element. *)
Theorem sanitise_null_element (u : user) (f : field_spec) (vals : list value) :
  f ∈ user_fields cfg →
  get u (field_name f) = VArr vals →
  existsb is_nullish vals = true →
  ∃ e, User_sanitise cfg shooks u = Throw e.
Proof.
  intros Hf Hget Hhole.
  destruct (User_sanitise cfg shooks u) as [out|e|] eqn:Hrun; [|by eexists|].
  - exfalso. unfold User_sanitise, sanitise, sanitise_with in Hrun.
    destruct (name u) as [n| |]; try done. cbn [mbind result_bind] in Hrun.
    destruct (sanitise_fields _ _ _ _) as [s| |] eqn:Hs; try done.
    pose proof (sanitise_fields_lookup _ _ _ _ _ f Hs Hf) as Hv.
    rewrite Hget in Hv. unfold field_value in Hv.
    cbn [truthy has_sanitise andb mbind result_bind] in Hv.
    by rewrite Hhole in Hv.
  - exfalso. by apply User_sanitise_returns in Hrun.
Qed.
End sanitise_hole.

(** ** The view hook *)

Section view.
Context (cfg : config) (acl_list : user → value).
Hypothesis no_hash : "hash" ∉ field_names cfg.
Hypothesis no_token : "token" ∉ field_names cfg.

(** X26.  The pre-handler of [view.compile] leaves [render] alone for a request
    without a user and for a JSON answer.  Otherwise it sets [acls] and
    [user], and only those; [user] is the object from [sanitise], which has
    no [hash] and no [token]. *)
Theorem view_compile_user (req : request) (render render' : props) :
  view_compile cfg [] acl_list req render = Ok render' →
  match req_user req with
  | Some u =>
      if truthy (prop_get "isJSON" render) then render' = render
      else prop_get "acls" render' = acl_list u
           ∧ (∃ o, User_sanitise cfg [] u = Ok o
                   ∧ prop_get "user" render' = VObj o
                   ∧ no_secret_keys o)
           ∧ ∀ k, k ≠ "acls" → k ≠ "user" → prop_get k render' = prop_get k render
  | None => render' = render
  end.
Proof.
  unfold view_compile. destruct (req_user req) as [u|]; [|by intros [= <-]].
  destruct (truthy (prop_get "isJSON" render)); cbn [negb]; [by intros [= <-]|].
  destruct (User_sanitise cfg [] u) as [o| |] eqn:Ho; try done.
  cbn [mbind result_bind]. intros [= <-]. split; [|split].
  - by rewrite prop_get_set_ne, prop_get_set_eq.
  - exists o. split; [done|]. split; [by rewrite prop_get_set_eq|].
    exact (sanitise_with_keys cfg no_hash no_token _ u o Ho).
  - intros k Ha Hu. by rewrite !prop_get_set_ne.
Qed.
End view.

Lemma reset_invalid_rejected_witness :
  match resetSubmitAction sample_config (reset_form "abc") forgetful_world with
  | Ok (_, w) => db w = db forgetful_world
  | _ => False
  end.
Proof.
  pose proof (reset_invalid_rejected sample_config (reset_form "abc") forgetful_world
                eq_refl eq_refl) as Hr.
  destruct (resetSubmitAction _ _ _) as [[[] w]| |].
  - by destruct Hr as [Hd _].
  - discriminate Hr.
  - exact Hr.
Defined.

Lemma forgotAction_outcome_witness :
  (w ← run_action (forgotAction mailed_link) forgetful_world; Ok (trace w))
  = Ok [ Alert "error" "The token you have sent is invalid"; Render "forgot" [] ].
Proof.
  unfold run_action.
  rewrite (forgotAction_outcome mailed_link forgetful_world eq_refl). reflexivity.
Defined.

Lemma reset_token_format_witness :
  reset_token twelve_bytes = "0123456789abcdef10325476".
Proof.
  destruct (reset_token_format twelve_bytes) as [-> _]; [reflexivity| |reflexivity].
  unfold twelve_bytes. repeat (apply Forall_cons; split; [lia|]). constructor.
Defined.

Lemma sanitise_null_element_witness :
  ∃ e, User_sanitise nested_config [] holey = Throw e.
Proof.
  apply (sanitise_null_element nested_config [] holey (FieldSpec "team")
           [VStr "guest"; VNull]); [|reflexivity..].
  right. left.
Defined.

Lemma view_compile_user_witness :
  ∃ render, view_compile sample_config [] no_acls logout_request [] = Ok render
            ∧ ∃ o, prop_get "user" render = VObj o ∧ prop_has "hash" o = false.
Proof.
  destruct forgetful_sanitised as [o Ho].
  exists [("acls", VArr []); ("user", VObj o)]. split.
  { unfold view_compile. cbn [logout_request req_user prop_get truthy negb].
    rewrite Ho. reflexivity. }
  assert ("hash" ∉ field_names sample_config) as Hh
    by (unfold field_names; cbn; set_solver).
  assert ("token" ∉ field_names sample_config) as Ht
    by (unfold field_names; cbn; set_solver).
  pose proof (view_compile_user sample_config no_acls Hh Ht logout_request
                [] [("acls", VArr []); ("user", VObj o)]) as Hv.
  cbn [logout_request req_user prop_get truthy] in Hv.
  destruct Hv as (_ & (o' & _ & Eo & Hk & _) & _).
  { unfold view_compile. cbn [logout_request req_user prop_get truthy negb].
    rewrite Ho. reflexivity. }
  exists o'. split; [exact Eo | exact Hk].
Defined.

(** ** Accounts and emails *)








Section accounts.
Context `{Crypto} `{AclModel} (cfg : config) (domain : string)
        (shooks : list sanitise_hook).








End accounts.



(** ** The login form, continued *)

Section login_missing.
Context `{Crypto} (cfg : config) (shooks : list sanitise_hook).

Lemma field_lookup_falsy (o : props) (k : string) :
  truthy (prop_get k o) = false → truthy (field_lookup o k) = false.
Proof. unfold field_lookup. by destruct (prop_get k o). Qed.

(** X28.  A login form without an email, or without a password, in the body and
    in the query is turned down before the store is looked at: no session is
    bound, the alert is "Missing credentials", and the audit record of the
    failure has no user. *)
Theorem login_missing_credentials (req : request) (w : world) :
  (truthy (prop_get "email" (body req)) = false
   ∧ truthy (prop_get "email" (query req)) = false)
  ∨ (truthy (prop_get "password" (body req)) = false
     ∧ truthy (prop_get "password" (query req)) = false) →
  loginSubmitAction cfg shooks req w
  = Ok (tt, World (save_login (Login (login_address req) "login" true VUndef
                                 (VStr "Missing credentials")) (db w))
              (sessions w)
              (trace w ++ [ Alert "error" "Missing credentials";
                            Emitted "user.login.fail" VUndef;
                            Render "login"
                              [ ("old", VObj (body req));
                                ("redirect", redirect_or req (VBool false)) ] ])).
Proof.
  intros Hmissing. unfold loginSubmitAction.
  assert (negb (truthy (js_or (field_lookup (body req) "email")
                          (field_lookup (query req) "email")))
          || negb (truthy (js_or (field_lookup (body req) "password")
                             (field_lookup (query req) "password"))) = true) as ->.
  { unfold js_or. destruct Hmissing as [[Hb Hq]|[Hb Hq]];
      apply field_lookup_falsy in Hb, Hq; rewrite Hb, Hq; cbn [negb orb];
      [done | by rewrite orb_true_r]. }
  unfold login_callback, info_member. cbn. unfold emit, _login.
  step_action. cbn. rewrite <- !app_assoc. reflexivity.
Qed.
End login_missing.

(** ** Forgotten passwords: a user without an email *)

Section forgot_empty.
Context (domain : string).

(** X29.  When the form has the empty email and a stored user has the empty
    email, [forgotSubmitAction] alerts "User does not have an email" and
    does nothing else: nothing is stored or sent, and no answer is rendered
    or redirected to. *)
Theorem forgot_empty_email (random : list Z) (req : request) (p : postal) (u : user) :
  prop_get "email" (body req) = VStr "" →
  find (same_email "") (users (db (world_of p))) = Some u →
  forgotSubmitAction domain random req p
  = Ok (tt, Postal (World (db (world_of p)) (sessions (world_of p))
                      (trace (world_of p)
                       ++ [Alert "error" "User does not have an email"]))
              (outbox p)).
Proof.
  intros He Hfind. unfold forgotSubmitAction. rewrite He. cbn [call_toLowerCase].
  destruct (forgot_lookup "" (db (world_of p))) as (re & Hre & Hlook).
  step_action. rewrite Hre. unfold in_world at 1. step_action.
  rewrite Hlook, Hfind. apply find_elem in Hfind as [_ Hsame].
  assert (get u "email" = VStr "") as ->.
  { unfold same_email in Hsame. destruct (get u "email") as [| | | |e| | | |];
      try done. apply bool_decide_eq_true in Hsame. by destruct e. }
  cbn [truthy String.eqb negb]. unfold in_world. step_action. reflexivity.
Qed.
End forgot_empty.

Lemma login_missing_credentials_witness :
  (w ← run_action (loginSubmitAction sample_config [] (login_form "a@b.com" ""))
         forgetful_world;
   Ok (sessions w !! "session-1", login_message <$> logins (db w)))
  = Ok (None, [VStr "Missing credentials"]).
Proof.
  unfold run_action.
  rewrite (login_missing_credentials sample_config [] (login_form "a@b.com" "")
             forgetful_world); [reflexivity|].
  right. split; reflexivity.
Defined.

Lemma forgot_empty_email_witness :
  (p ← snd <$> forgotSubmitAction "x.org" twelve_bytes (forgot_form "") unreachable_post;
   Ok (trace (world_of p), outbox p))
  = Ok ([Alert "error" "User does not have an email"], []).
Proof.
  rewrite (forgot_empty_email "x.org" twelve_bytes (forgot_form "") unreachable_post
             unreachable); reflexivity.
Defined.
